(** * NEEC_MESA_LEDS: zigzag serialisation and fixed-rate streaming

    A shallow embedding of the two senders of the repository,
    [Python/send_screen_to_leds.py] and [Python/send_video_to_leds.py]:
    the zigzag serialiser [prepare_pixel_data_standard_zigzag], the packet
    framing and the send stage of the main loops, the frame pacer and the
    frame-skip arithmetic of the video sender.

    Conventions of the embedding.
    - A Python [int] is a [Z]; a Python [float] is a binary64 [float]
      (Rocq's primitive floats, specified by [SpecFloat]).
    - A frame is a three-dimensional NumPy array of [uint8]: a [shape]
      and nested lists of [byte], consistent with the shape. What
      [cv2.resize] returns is such an array or a two-dimensional one.
    - A raised exception is the [Raise] case of [outcome]; what a function
      prints, the calls it makes to OpenCV, the serial port and [time.sleep]
      are recorded, in order, in a trace that is threaded through the code. *)

From Stdlib Require Import ZArith List Bool Lia Floats.
From Stdlib Require Import Init.Byte.
From Stdlib Require Strings.Byte.
From stdpp Require Import base numbers option list strings gmap.
Import ListNotations.
Local Open Scope Z_scope.

(** ** Exceptions and effects *)

Inductive exn : Type :=
| IndexError
| ValueError
| OverflowError
| ZeroDivisionError
| cv2_error
| SerialTimeoutException
| SerialException
| OtherException.

Inductive outcome (A : Type) : Type :=
| Ok (a : A)
| Raise (e : exn).
Arguments Ok {A} a.
Arguments Raise {A} e.

(** ** NumPy arrays of shape (h, w, channels) and dtype uint8

    The frames handed to the serialisers are three-dimensional: that is
    what the colour conversions of both senders return, so the first
    [h, w, channels = frame_rgb.shape] of a serialiser always unpacks. The
    data are [h] rows of [w] pixels of [channels] bytes. *)

Definition shape_of_data (shp : Z * Z * Z) (d : list (list (list byte))) : bool :=
  let '(h, w, c) := shp in
  (0 <=? w) && (0 <=? c)
  && (Z.of_nat (length d) =? h)
  && forallb (fun row =>
       (Z.of_nat (length row) =? w)
       && forallb (fun px => Z.of_nat (length px) =? c) row) d.

Record ndarray : Type := {
  shape : Z * Z * Z;
  data : list (list (list byte));
  shape_ok : shape_of_data shape data = true
}.

(** What [cv2.resize] returns. For a source of several channels it is an
    array of shape (h, w, channels) again; for a source of one channel
    OpenCV drops the last axis and the result has the two-dimensional
    shape (h, w), with one byte per pixel. *)
Inductive array : Type :=
| Array3 (a : ndarray)
| Array2 (shape2 : Z * Z) (data2 : list (list byte)).

(** [h, w, channels = a.shape] on such a result: the array with its three
    dimensions, or [ValueError] when the shape has two entries. *)
Definition unpack_shape (a : array) : outcome ndarray :=
  match a with
  | Array3 a => Ok a
  | Array2 _ _ => Raise ValueError
  end.

(** NumPy's normalisation of one index against an axis of length [n]:
    negative indices count from the end. *)
Definition norm_index (i n : Z) : option nat :=
  if (0 <=? i) && (i <? n) then Some (Z.to_nat i)
  else if (- n <=? i) && (i <? 0) then Some (Z.to_nat (i + n))
  else None.

(** [frame_rgb[y, x]]: the channel vector of one pixel. *)
Definition getitem (a : ndarray) (y x : Z) : outcome (list byte) :=
  let '(h, w, _) := shape a in
  match norm_index y h, norm_index x w with
  | Some i, Some j =>
      match data a !! i with
      | Some row =>
          match row !! j with
          | Some px => Ok px
          | None => Raise IndexError
          end
      | None => Raise IndexError
      end
  | _, _ => Raise IndexError
  end.

(** [r, g, b = v]: unpacking into exactly three names. *)
Definition unpack3 (v : list byte) : outcome (byte * byte * byte) :=
  match v with
  | [r; g; b] => Ok (r, g, b)
  | _ => Raise ValueError
  end.

(** [range(n)] and [range(start, stop, -1)]. *)
Definition range (n : Z) : list Z := seqZ 0 n.

Definition range_down (start stop : Z) : list Z :=
  (fun i => start - i) <$> seqZ 0 (start - stop).

(** A [for] loop whose body updates a mutable accumulator and may raise. *)
Fixpoint for_in {A S : Type} (xs : list A) (body : A -> S -> outcome S) (s : S)
  : outcome S :=
  match xs with
  | [] => Ok s
  | x :: xs' =>
      match body x s with
      | Ok s' => for_in xs' body s'
      | Raise e => Raise e
      end
  end.

(** ** The pixel loops shared by both senders

    send_screen_to_leds.py lines 41-52, send_video_to_leds.py lines 37-47:
    [pixel_data] starts empty, rows are visited in the order of
    [range(grid_height)], an even row by [range(grid_width)], an odd row
    by [range(grid_width - 1, -1, -1)], and every visited pixel extends
    [pixel_data] by [[r, g, b]]. *)

Definition emit_pixel (frame_rgb : ndarray) (y x : Z) (pixel_data : list byte)
  : outcome (list byte) :=
  match getitem frame_rgb y x with
  | Ok v =>
      match unpack3 v with
      | Ok (r, g, b) => Ok (pixel_data ++ [r; g; b])
      | Raise e => Raise e
      end
  | Raise e => Raise e
  end.

Definition emit_row (frame_rgb : ndarray) (grid_width : Z) (y : Z)
    (pixel_data : list byte) : outcome (list byte) :=
  if y mod 2 =? 0
  then for_in (range grid_width) (emit_pixel frame_rgb y) pixel_data
  else for_in (range_down (grid_width - 1) (-1)) (emit_pixel frame_rgb y) pixel_data.

Definition zigzag_loops (frame_rgb : ndarray) (grid_width grid_height : Z)
  : outcome (list byte) :=
  for_in (range grid_height) (emit_row frame_rgb grid_width) [].

(** ** The trace of effects

    The text of a printed line is abstracted to its kind and the integers
    it interpolates. *)

Inductive stream : Type := stdout | stderr.

Inductive message : Type :=
| MsgDimensionMismatch (w h channels grid_width grid_height : Z)
| MsgResizedInside
| MsgResizeFailed (e : exn)
| MsgSkippingFrame (n : Z)
| MsgPacketLengthMismatch (n expected got : Z)
| MsgWriteTimedOut (n : Z)
| MsgSerialError (n : Z)
| MsgUnexpectedSendError (n : Z)
| MsgSentFrame (n : Z)
| MsgNoValidFps
| MsgSkippingSourceFrame (idx : Z)
| MsgPacketLengthMismatchAt (n idx expected got : Z)
| MsgSentFrameProgress (n : Z).

Inductive event : Type :=
| EPrint (s : stream) (m : message)
| ECv2Resize (src : ndarray) (dsize : Z * Z)
| ESerWrite (packet : list byte)
| ESleep (secs : float).

(** Computations that may raise and that extend the trace. *)
Definition M (A : Type) : Type := list event -> outcome A * list event.

#[global] Instance M_ret : MRet M := fun A a tr => (Ok a, tr).

#[global] Instance M_bind : MBind M := fun A B k m tr =>
  match m tr with
  | (Ok a, tr') => k a tr'
  | (Raise e, tr') => (Raise e, tr')
  end.

Definition lift {A : Type} (o : outcome A) : M A := fun tr => (o, tr).

Definition emit (ev : event) : M unit := fun tr => (Ok tt, tr ++ [ev]).

(** [try: body except Exception as e: handler e]. *)
Definition try_except {A : Type} (body : M A) (handler : exn -> M A) : M A :=
  fun tr =>
    match body tr with
    | (Ok a, tr') => (Ok a, tr')
    | (Raise e, tr') => handler e tr'
    end.

Definition print (s : stream) (m : message) : M unit := emit (EPrint s m).

Definition time_sleep (secs : float) : M unit := emit (ESleep secs).

(** ** Python arithmetic on [int] and [float] *)

(** [float(n)] for an [int]: the nearest binary64, ties to even;
    [OverflowError] when that is out of range. *)
Definition float_of_int (n : Z) : outcome float :=
  let f := SF2Prim (binary_normalize prec emax n 0 false) in
  if is_infinity f then Raise OverflowError else Ok f.

(** [a / n] for a [float] and an [int]. *)
Definition float_truediv_int (a : float) (n : Z) : outcome float :=
  match float_of_int n with
  | Ok b => if (b =? 0)%float then Raise ZeroDivisionError else Ok (a / b)%float
  | Raise e => Raise e
  end.

(** The integer nearest to [m * 2^e], ties to the even one. *)
Definition round_half_even (m : positive) (e : Z) : Z :=
  if 0 <=? e then Z.pos m * 2 ^ e
  else
    let d := 2 ^ (- e) in
    let q := Z.pos m / d in
    match (2 * (Z.pos m mod d) ?= d) with
    | Lt => q
    | Gt => q + 1
    | Eq => if Z.even q then q else q + 1
    end.

(** [round(x)] for a [float], returning an [int]. *)
Definition py_round (x : float) : outcome Z :=
  match Prim2SF x with
  | S754_nan => Raise ValueError
  | S754_infinity _ => Raise OverflowError
  | S754_zero _ => Ok 0
  | S754_finite s m e => Ok (cond_Zopp s (round_half_even m e))
  end.

(** [a % b] on [int]. *)
Definition py_mod (a b : Z) : outcome Z :=
  if b =? 0 then Raise ZeroDivisionError else Ok (a mod b).

(** ** Constants of both scripts *)

Definition START_BYTE_1 : byte := xa5.
Definition START_BYTE_2 : byte := x5a.

Inductive control : Type := Continue | Break.

(** What the environment supplies to one iteration of a main loop: the
    array handed to the serialiser (the result of the capture or decode,
    [cv2.resize] and [cv2.cvtColor] calls), the two readings of
    [time.monotonic()], and how [ser.write] ends. *)
Record iteration : Type := {
  rgb_frame : ndarray;
  frame_start_time : float;
  frame_end_time : float;
  write_result : outcome Z
}.

(** The dimension test of both serialisers:
    [h != grid_height or w != grid_width or channels != 3]. *)
Definition mismatch (shp : Z * Z * Z) (grid_width grid_height : Z) : bool :=
  let '(h, w, channels) := shp in
  negb (h =? grid_height) || negb (w =? grid_width) || negb (channels =? 3).

(** The frame rate control at the end of an iteration (screen lines
    187-194, video lines 290-296). *)
Definition frame_rate_control (frame_delay start_time end_time : float) : M unit :=
  let processing_time := (end_time - start_time)%float in
  let sleep_time := (frame_delay - processing_time)%float in
  if (0 <? sleep_time)%float then time_sleep sleep_time else mret tt.

(** [ser.write(packet_buffer)] inside its [try], with the three handlers:
    [Some] of the new frame count, or [None] after a [break]. *)
Definition send_packet (packet_buffer : list byte) (result : outcome Z)
    (frame_count : Z) : M (option Z) :=
  try_except
    (emit (ESerWrite packet_buffer);; _ ← lift result; mret (Some (frame_count + 1)))
    (fun e =>
       match e with
       | SerialTimeoutException =>
           print stderr (MsgWriteTimedOut (frame_count + 1));; mret None
       | SerialException =>
           print stderr (MsgSerialError (frame_count + 1));; mret None
       | _ =>
           print stderr (MsgUnexpectedSendError (frame_count + 1));; mret None
       end).

(** ** send_screen_to_leds.py *)

Module Screen.

Definition TARGET_FPS : Z := 5.

Section WithOpenCV.

(** [cv2.resize(src, dsize, interpolation=cv2.INTER_LINEAR)], an external
    library function: it returns a new array, of three or of two
    dimensions, or raises. *)
Variable cv2_resize : ndarray -> Z * Z -> outcome array.

(** Lines 21-52. *)
Definition prepare_pixel_data_standard_zigzag
    (frame_rgb : ndarray) (grid_width grid_height : Z) : M (option (list byte)) :=
  let '(h, w, channels) := shape frame_rgb in
  checked ←
    (if mismatch (shape frame_rgb) grid_width grid_height then
       print stderr (MsgDimensionMismatch w h channels grid_width grid_height);;
       try_except
         (emit (ECv2Resize frame_rgb (grid_width, grid_height));;
          resized ← lift (cv2_resize frame_rgb (grid_width, grid_height));
          print stderr MsgResizedInside;;
          frame_rgb' ← lift (unpack_shape resized);
          if mismatch (shape frame_rgb') grid_width grid_height
          then mret None
          else mret (Some frame_rgb'))
         (fun e => print stderr (MsgResizeFailed e);; mret None)
     else mret (Some frame_rgb));
  match checked with
  | None => mret None
  | Some frame_rgb' =>
      pixel_data ← lift (zigzag_loops frame_rgb' grid_width grid_height);
      mret (Some pixel_data)
  end.

(** Lines 160-202: framing, the length check, the write, the frame rate
    control and the progress line, for a serialised [pixel_byte_list]. *)
Definition send_stage (grid_width grid_height target_fps : Z) (frame_delay : float)
    (it : iteration) (pixel_byte_list : list byte) (frame_count : Z)
  : M (control * Z) :=
  let packet_buffer := [START_BYTE_1; START_BYTE_2] ++ pixel_byte_list in
  let expected_packet_length := 2 + grid_width * grid_height * 3 in
  (if negb (Z.of_nat (length packet_buffer) =? expected_packet_length)
   then print stderr (MsgPacketLengthMismatch (frame_count + 1)
                        expected_packet_length (Z.of_nat (length packet_buffer)))
   else mret tt);;
  sent ← send_packet packet_buffer (write_result it) frame_count;
  match sent with
  | None => mret (Break, frame_count)
  | Some frame_count' =>
      frame_rate_control frame_delay (frame_start_time it) (frame_end_time it);;
      r ← lift (py_mod frame_count' (target_fps * 10));
      (if r =? 0 then print stdout (MsgSentFrame frame_count') else mret tt);;
      mret (Continue, frame_count')
  end.

(** Lines 150-202: one iteration of [while True], from the call of the
    serialiser on. *)
Definition loop_body (grid_width grid_height target_fps : Z) (frame_delay : float)
    (it : iteration) (frame_count : Z) : M (control * Z) :=
  pixel_byte_list ← prepare_pixel_data_standard_zigzag (rgb_frame it) grid_width grid_height;
  match pixel_byte_list with
  | None =>
      print stdout (MsgSkippingFrame (frame_count + 1));;
      time_sleep 0x1.47ae147ae147bp-7%float;;  (* 0.01 *)
      mret (Continue, frame_count)
  | Some pixel_byte_list =>
      send_stage grid_width grid_height target_fps frame_delay it pixel_byte_list frame_count
  end.

(** The [while True] loop over the iterations the environment supplies;
    it returns the count of sent frames. *)
Fixpoint main_loop (grid_width grid_height target_fps : Z) (frame_delay : float)
    (its : list iteration) (frame_count : Z) : M Z :=
  match its with
  | [] => mret frame_count
  | it :: rest =>
      r ← loop_body grid_width grid_height target_fps frame_delay it frame_count;
      match r with
      | (Continue, frame_count') =>
          main_loop grid_width grid_height target_fps frame_delay rest frame_count'
      | (Break, frame_count') => mret frame_count'
      end
  end.

(** Lines 89-90 and 102-127 of [main]: the target rate is fixed, the frame
    delay is [1.0 / target_fps], and the loop starts with no frame sent. *)
Definition main (grid_width grid_height : Z) (its : list iteration) : M Z :=
  let target_fps := TARGET_FPS in
  frame_delay ← lift (float_truediv_int 1%float target_fps);
  main_loop grid_width grid_height target_fps frame_delay its 0.

End WithOpenCV.

End Screen.

(** ** send_video_to_leds.py *)

Module Video.

(** Lines 32-47: no resize is attempted here. *)
Definition prepare_pixel_data_standard_zigzag
    (frame_rgb : ndarray) (grid_width grid_height : Z) : M (option (list byte)) :=
  let '(h, w, channels) := shape frame_rgb in
  if mismatch (shape frame_rgb) grid_width grid_height then
    print stderr (MsgDimensionMismatch w h channels grid_width grid_height);;
    mret None
  else
    pixel_data ← lift (zigzag_loops frame_rgb grid_width grid_height);
    mret (Some pixel_data).

(** Lines 220-225: how many source frames are read per frame sent. *)
Definition frames_to_skip (original_fps : float) (target_fps : Z) : M Z :=
  if (original_fps <=? 0)%float then
    print stderr MsgNoValidFps;;
    mret 1
  else
    q ← lift (float_truediv_int original_fps target_fps);
    r ← lift (py_round q);
    mret (Z.max 1 r).

(** Lines 267-303, for a serialised [pixel_byte_list]; [idx] is
    [processed_frame_index] after the read stage of the iteration. *)
Definition send_stage (grid_width grid_height target_fps : Z) (frame_delay : float)
    (original_frames idx : Z)
    (it : iteration) (pixel_byte_list : list byte) (frame_count : Z)
  : M (control * Z) :=
  let packet_buffer := [START_BYTE_1; START_BYTE_2] ++ pixel_byte_list in
  let expected_packet_length := 2 + grid_width * grid_height * 3 in
  (if negb (Z.of_nat (length packet_buffer) =? expected_packet_length)
   then print stderr (MsgPacketLengthMismatchAt (frame_count + 1) (idx - 1)
                        expected_packet_length (Z.of_nat (length packet_buffer)))
   else mret tt);;
  sent ← send_packet packet_buffer (write_result it) frame_count;
  match sent with
  | None => mret (Break, frame_count)
  | Some frame_count' =>
      frame_rate_control frame_delay (frame_start_time it) (frame_end_time it);;
      r ← lift (py_mod frame_count' (target_fps * 10));
      (if (r =? 0) && (0 <? original_frames)
       then print stdout (MsgSentFrameProgress frame_count')
       else
         r' ← lift (py_mod frame_count' (target_fps * 10));
         if r' =? 0 then print stdout (MsgSentFrame frame_count') else mret tt);;
      mret (Continue, frame_count')
  end.

(** Lines 256-303: one iteration of [while True] for a frame that was
    read, from the call of the serialiser on. *)
Definition loop_body (grid_width grid_height target_fps : Z) (frame_delay : float)
    (original_frames : Z) (it : iteration * Z) (frame_count : Z) : M (control * Z) :=
  let '(it, idx) := it in
  pixel_byte_list ← prepare_pixel_data_standard_zigzag (rgb_frame it) grid_width grid_height;
  match pixel_byte_list with
  | None =>
      print stdout (MsgSkippingSourceFrame (idx - 1));;
      mret (Continue, frame_count)
  | Some pixel_byte_list =>
      send_stage grid_width grid_height target_fps frame_delay original_frames idx
        it pixel_byte_list frame_count
  end.

(** The [while True] loop over the frames that were read, each with the
    value of [processed_frame_index] at that point. *)
Fixpoint main_loop (grid_width grid_height target_fps : Z) (frame_delay : float)
    (original_frames : Z) (its : list (iteration * Z)) (frame_count : Z) : M Z :=
  match its with
  | [] => mret frame_count
  | it :: rest =>
      r ← loop_body grid_width grid_height target_fps frame_delay original_frames it frame_count;
      match r with
      | (Continue, frame_count') =>
          main_loop grid_width grid_height target_fps frame_delay original_frames rest frame_count'
      | (Break, frame_count') => mret frame_count'
      end
  end.

End Video.

(** ** The zigzag order, as the specification words it

    Rows from top to bottom; an even row from left to right, an odd row from
    right to left; every pixel as its channel bytes, in their order. *)

Definition row_bytes (y : nat) (row : list (list byte)) : list byte :=
  if Nat.even y then concat row else concat (reverse row).

Definition zigzag_order (rows : list (list (list byte))) : list byte :=
  concat (imap row_bytes rows).

(** De-zigzagging a payload for a grid of [width] columns and [height] rows:
    cut it into rows of [width] pixels of three bytes, and reverse the pixels
    of every odd row. *)

Fixpoint chunks {A : Type} (count size : nat) (l : list A) : list (list A) :=
  match count with
  | O => []
  | S count' => take size l :: chunks count' size (drop size l)
  end.

Definition dezigzag_row (width y : nat) (bytes : list byte) : list (list byte) :=
  let pixels := chunks width 3 bytes in
  if Nat.even y then pixels else reverse pixels.

Definition dezigzag (width height : nat) (payload : list byte)
  : list (list (list byte)) :=
  imap (dezigzag_row width) (chunks height (3 * width) payload).

(** The skip count as the specification words it:
    [max(1, round(F_native / F_target))]. *)
Definition skip_formula (F_native : float) (F_target : Z) : outcome Z :=
  match float_truediv_int F_native F_target with
  | Ok q =>
      match py_round q with
      | Ok r => Ok (Z.max 1 r)
      | Raise e => Raise e
      end
  | Raise e => Raise e
  end.

(** ** Observations on traces *)

(** A computation only extends the trace it starts from, and what it
    returns and adds does not depend on that trace. *)
Definition appends {A : Type} (m : M A) : Prop :=
  forall tr, m tr = (fst (m []), tr ++ snd (m [])).

Definition is_length_warning (ev : event) : bool :=
  match ev with
  | EPrint _ (MsgPacketLengthMismatch _ _ _) => true
  | EPrint _ (MsgPacketLengthMismatchAt _ _ _ _) => true
  | _ => false
  end.

Definition is_write (ev : event) : bool :=
  match ev with
  | ESerWrite _ => true
  | _ => false
  end.

Definition is_resize (ev : event) : bool :=
  match ev with
  | ECv2Resize _ _ => true
  | _ => false
  end.

(** Events that are neither a serial write nor a length warning. *)
Definition quiet (ev : event) : bool := negb (is_write ev) && negb (is_length_warning ev).

(** The durations slept, in order. *)
Definition slept (evs : list event) : list float :=
  omap (fun ev => match ev with ESleep secs => Some secs | _ => None end) evs.

(** The line both serialisers print on a mismatch. *)
Definition dimension_error (shp : Z * Z * Z) (grid_width grid_height : Z) : event :=
  let '(h, w, channels) := shp in
  EPrint stderr (MsgDimensionMismatch w h channels grid_width grid_height).

(** What the screen sender's serialiser prints after its call of
    [cv2.resize]: the failure line when the call raises, the warning when
    it returns, and after the warning the failure line as well when the
    shape of the result does not unpack into three names. *)
Definition resize_report (r : outcome array) : list event :=
  match r with
  | Ok (Array3 _) => [EPrint stderr MsgResizedInside]
  | Ok (Array2 _ _) =>
      [EPrint stderr MsgResizedInside; EPrint stderr (MsgResizeFailed ValueError)]
  | Raise e => [EPrint stderr (MsgResizeFailed e)]
  end.

(** The frame the screen sender's serialiser ends up serialising, if any,
    and the effects of getting there; [screen_prepare_closed_form] below
    proves that the serialiser does exactly this. *)
Definition corrected_frame (cv2_resize : ndarray -> Z * Z -> outcome array)
    (frame_rgb : ndarray) (grid_width grid_height : Z) : option ndarray * list event :=
  let '(h, w, channels) := shape frame_rgb in
  if mismatch (shape frame_rgb) grid_width grid_height then
    match cv2_resize frame_rgb (grid_width, grid_height) with
    | Ok (Array3 frame_rgb') =>
        (if mismatch (shape frame_rgb') grid_width grid_height
         then None else Some frame_rgb',
         [EPrint stderr (MsgDimensionMismatch w h channels grid_width grid_height);
          ECv2Resize frame_rgb (grid_width, grid_height);
          EPrint stderr MsgResizedInside])
    | Ok (Array2 _ _) =>
        (None,
         [EPrint stderr (MsgDimensionMismatch w h channels grid_width grid_height);
          ECv2Resize frame_rgb (grid_width, grid_height);
          EPrint stderr MsgResizedInside;
          EPrint stderr (MsgResizeFailed ValueError)])
    | Raise e =>
        (None,
         [EPrint stderr (MsgDimensionMismatch w h channels grid_width grid_height);
          ECv2Resize frame_rgb (grid_width, grid_height);
          EPrint stderr (MsgResizeFailed e)])
    end
  else (Some frame_rgb, []).

(** The sleep the pacer makes for one iteration, from the two clock
    readings of that iteration. *)
Definition own_sleep (frame_delay : float) (it : iteration) : list float :=
  slept (snd (frame_rate_control frame_delay (frame_start_time it) (frame_end_time it) [])).

(** An iteration is served when its frame has the target dimensions and
    its write succeeds. *)
Definition served (grid_width grid_height : Z) (it : iteration) : Prop :=
  shape (rgb_frame it) = (grid_height, grid_width, 3)
  /\ exists n : Z, write_result it = Ok n.

(** The sign carried by a binary64 value, when it has one. *)
Definition sf_signed (sx : bool) (r : spec_float) : Prop :=
  match r with
  | S754_zero s | S754_infinity s | S754_finite s _ _ => s = sx
  | S754_nan => True
  end.

(** ** Concrete frames, resizers and iterations *)

(** The grid [[(1,2,3),(4,5,6)],[(7,8,9),(10,11,12)]]. *)
Definition grid2x2 : ndarray :=
  {| shape := (2, 2, 3);
     data := [[[x01; x02; x03]; [x04; x05; x06]];
              [[x07; x08; x09]; [x0a; x0b; x0c]]];
     shape_ok := eq_refl |}.

Definition grid1x1 : ndarray :=
  {| shape := (1, 1, 3); data := [[[x01; x02; x03]]]; shape_ok := eq_refl |}.

(** A resize that returns its source unchanged, and one that returns the
    2 x 2 grid whatever it is given. *)
Definition resize_unchanged : ndarray -> Z * Z -> outcome array :=
  fun src _ => Ok (Array3 src).

Definition resize_to_grid2x2 : ndarray -> Z * Z -> outcome array :=
  fun _ _ => Ok (Array3 grid2x2).

(** A 2 x 2 frame of one channel, and the resize of OpenCV on it: the
    result has lost the last axis. *)
Definition gray2x2 : ndarray :=
  {| shape := (2, 2, 1);
     data := [[[x01]; [x02]]; [[x03]; [x04]]];
     shape_ok := eq_refl |}.

Definition resize_drops_axis : ndarray -> Z * Z -> outcome array :=
  fun _ _ => Ok (Array2 (2, 2) [[x01; x02]; [x03; x04]]).

Definition iteration_gray : iteration :=
  {| rgb_frame := gray2x2;
     frame_start_time := 0x1p+3%float;
     frame_end_time := 0x1.0666666666666p+3%float;
     write_result := Ok 14 |}.

(** 0.2 s, the frame delay at 5 frames per second. *)
Definition delay_200ms : float := 0x1.999999999999ap-3%float.

(** Iterations from 8.0 s to 8.2 s whose write succeeds. *)
Definition iteration2x2 : iteration :=
  {| rgb_frame := grid2x2;
     frame_start_time := 0x1p+3%float;
     frame_end_time := 0x1.0666666666666p+3%float;
     write_result := Ok 14 |}.

Definition iteration1x1 : iteration :=
  {| rgb_frame := grid1x1;
     frame_start_time := 0x1p+3%float;
     frame_end_time := 0x1.0666666666666p+3%float;
     write_result := Ok 14 |}.

(** An iteration that takes 250 ms, from 8.0 s to 8.25 s, followed by one
    that takes 50 ms, from 8.25 s to 8.3 s. *)
Definition iteration_late : iteration :=
  {| rgb_frame := grid2x2;
     frame_start_time := 0x1p+3%float;
     frame_end_time := 0x1.08p+3%float;
     write_result := Ok 14 |}.

Definition iteration_fast : iteration :=
  {| rgb_frame := grid2x2;
     frame_start_time := 0x1.08p+3%float;
     frame_end_time := 0x1.099999999999ap+3%float;
     write_result := Ok 14 |}.

(** ** Further observations on traces and payloads *)

(** The packets handed to [ser.write], in order. *)
Definition written (evs : list event) : list (list byte) :=
  omap (fun ev => match ev with ESerWrite packet => Some packet | _ => None end) evs.

(** The line the send stage prints when [ser.write] raises [e] while
    frame [n] is being sent. *)
Definition send_error (e : exn) (n : Z) : message :=
  match e with
  | SerialTimeoutException => MsgWriteTimedOut n
  | SerialException => MsgSerialError n
  | _ => MsgUnexpectedSendError n
  end.

(** The packet of a frame: the two start bytes and the frame's rows in
    zigzag order. *)
Definition packet_of (frame_rgb : ndarray) : list byte :=
  START_BYTE_1 :: START_BYTE_2 :: zigzag_order (data frame_rgb).

(** Row and column of the [n]-th pixel of a payload for a grid of
    [grid_width] columns. *)
Definition zigzag_position (grid_width n : Z) : Z * Z :=
  let y := n / grid_width in
  let k := n mod grid_width in
  (y, if Z.even y then k else grid_width - 1 - k).

(** The [n]-th group of three bytes of a payload. *)
Definition payload_pixel (payload : list byte) (n : Z) : list byte :=
  take 3 (drop (Z.to_nat (3 * n)) payload).

(** An iteration on the 2 x 2 frame whose write times out. *)
Definition iteration_timeout : iteration :=
  {| rgb_frame := grid2x2;
     frame_start_time := 0x1p+3%float;
     frame_end_time := 0x1.08p+3%float;
     write_result := Raise SerialTimeoutException |}.

(** ** Interactive configuration (both senders)

    [input(prompt)] shows the prompt and takes the next line of standard
    input, raising [EOFError] when there is none. What is shown is recorded
    in order. The built-in [str.strip], [int] and [float] are parameters;
    [None] stands for their [ValueError]. *)

Inductive console_exn : Type :=
| EOFError
| SystemExit (code : Z).

Inductive result (E A : Type) : Type :=
| Returned (a : A)
| Thrown (e : E).
Arguments Returned {E A} a.
Arguments Thrown {E A} e.

Inductive console_message : Type :=
| SayPositiveInteger
| SayInvalidInteger
| SayPositiveNumber
| SayInvalidNumber
| SayUrlEmpty
| SayPortEmpty.

Inductive console_event : Type :=
| CPromptUrl
| CPromptPort
| CPromptInt (prompt : string) (default_value : Z)
| CPromptFloat (prompt : string) (default_value : float)
| CPrint (s : stream) (m : console_message).

Definition DEFAULT_GRID_WIDTH : Z := 32.
Definition DEFAULT_GRID_HEIGHT : Z := 18.
Definition DEFAULT_BAUD_RATE : Z := 115200.
Definition DEFAULT_TIMEOUT : float := 0x1.999999999999ap-3%float.
Definition DEFAULT_TARGET_FPS : Z := 5.

(** [not s] for a string. *)
Definition str_empty (s : string) : bool := String.eqb s "".

Module Console.

Section WithBuiltins.

Variable str_strip : string -> string.
Variable int_of_str : string -> option Z.
Variable float_of_str : string -> option float.

(** Screen lines 54-62, video lines 49-57. Each turn of [while True] takes
    one line. *)
Fixpoint get_int_input (prompt : string) (default_value : Z)
    (lines : list string) (shown : list console_event)
  : result console_exn Z * list string * list console_event :=
  match lines with
  | [] => (Thrown EOFError, [], shown ++ [CPromptInt prompt default_value])
  | line :: rest =>
      let shown := shown ++ [CPromptInt prompt default_value] in
      let value_str := str_strip line in
      if str_empty value_str then (Returned default_value, rest, shown)
      else
        match int_of_str value_str with
        | Some value =>
            if 0 <? value then (Returned value, rest, shown)
            else get_int_input prompt default_value rest
                   (shown ++ [CPrint stdout SayPositiveInteger])
        | None =>
            get_int_input prompt default_value rest
              (shown ++ [CPrint stdout SayInvalidInteger])
        end
  end.

(** Screen lines 64-72, video lines 59-67. *)
Fixpoint get_float_input (prompt : string) (default_value : float)
    (lines : list string) (shown : list console_event)
  : result console_exn float * list string * list console_event :=
  match lines with
  | [] => (Thrown EOFError, [], shown ++ [CPromptFloat prompt default_value])
  | line :: rest =>
      let shown := shown ++ [CPromptFloat prompt default_value] in
      let value_str := str_strip line in
      if str_empty value_str then (Returned default_value, rest, shown)
      else
        match float_of_str value_str with
        | Some value =>
            if (0 <? value)%float then (Returned value, rest, shown)
            else get_float_input prompt default_value rest
                   (shown ++ [CPrint stdout SayPositiveNumber])
        | None =>
            get_float_input prompt default_value rest
              (shown ++ [CPrint stdout SayInvalidNumber])
        end
  end.

(** [input(...).strip()] for the two texts that have no default. *)
Definition input_stripped (asked : console_event)
    (lines : list string) (shown : list console_event)
  : result console_exn string * list string * list console_event :=
  match lines with
  | [] => (Thrown EOFError, [], shown ++ [asked])
  | line :: rest => (Returned (str_strip line), rest, shown ++ [asked])
  end.

Record config : Type := {
  youtube_url : string;
  serial_port : string;
  grid_width : Z;
  grid_height : Z;
  baud_rate : Z;
  timeout : float;
  target_fps : Z
}.

(** The four numbers both senders ask for after the port (screen lines
    84-87, video lines 168-171). *)
Definition get_grid_and_serial_inputs (lines : list string) (shown : list console_event)
  : result console_exn (Z * Z * Z * float) * list string * list console_event :=
  match get_int_input "Enter target grid width" DEFAULT_GRID_WIDTH lines shown with
  | (Thrown e, lines, shown) => (Thrown e, lines, shown)
  | (Returned grid_width, lines, shown) =>
  match get_int_input "Enter target grid height" DEFAULT_GRID_HEIGHT lines shown with
  | (Thrown e, lines, shown) => (Thrown e, lines, shown)
  | (Returned grid_height, lines, shown) =>
  match get_int_input "Enter serial baud rate" DEFAULT_BAUD_RATE lines shown with
  | (Thrown e, lines, shown) => (Thrown e, lines, shown)
  | (Returned baud_rate, lines, shown) =>
  match get_float_input "Enter serial write timeout in seconds" DEFAULT_TIMEOUT lines shown with
  | (Thrown e, lines, shown) => (Thrown e, lines, shown)
  | (Returned timeout, lines, shown) =>
      (Returned (grid_width, grid_height, baud_rate, timeout), lines, shown)
  end end end end.

(** Screen [main], lines 79-89: the port must not be empty, and the target
    rate is the constant. *)
Definition screen_inputs (lines : list string) (shown : list console_event)
  : result console_exn config * list string * list console_event :=
  match input_stripped CPromptPort lines shown with
  | (Thrown e, lines, shown) => (Thrown e, lines, shown)
  | (Returned serial_port, lines, shown) =>
      if str_empty serial_port
      then (Thrown (SystemExit 1), lines, shown ++ [CPrint stderr SayPortEmpty])
      else
        match get_grid_and_serial_inputs lines shown with
        | (Thrown e, lines, shown) => (Thrown e, lines, shown)
        | (Returned (grid_width, grid_height, baud_rate, timeout), lines, shown) =>
            (Returned {| youtube_url := ""; serial_port := serial_port;
                         grid_width := grid_width; grid_height := grid_height;
                         baud_rate := baud_rate; timeout := timeout;
                         target_fps := Screen.TARGET_FPS |}, lines, shown)
        end
  end.

(** Video [main], lines 158-172: neither the address nor the port may be
    empty, and the target rate is asked for. *)
Definition video_inputs (lines : list string) (shown : list console_event)
  : result console_exn config * list string * list console_event :=
  match input_stripped CPromptUrl lines shown with
  | (Thrown e, lines, shown) => (Thrown e, lines, shown)
  | (Returned youtube_url, lines, shown) =>
      if str_empty youtube_url
      then (Thrown (SystemExit 1), lines, shown ++ [CPrint stderr SayUrlEmpty])
      else
  match input_stripped CPromptPort lines shown with
  | (Thrown e, lines, shown) => (Thrown e, lines, shown)
  | (Returned serial_port, lines, shown) =>
      if str_empty serial_port
      then (Thrown (SystemExit 1), lines, shown ++ [CPrint stderr SayPortEmpty])
      else
        match get_grid_and_serial_inputs lines shown with
        | (Thrown e, lines, shown) => (Thrown e, lines, shown)
        | (Returned (grid_width, grid_height, baud_rate, timeout), lines, shown) =>
            match get_int_input "Enter target FPS to send" DEFAULT_TARGET_FPS lines shown with
            | (Thrown e, lines, shown) => (Thrown e, lines, shown)
            | (Returned target_fps, lines, shown) =>
                (Returned {| youtube_url := youtube_url; serial_port := serial_port;
                             grid_width := grid_width; grid_height := grid_height;
                             baud_rate := baud_rate; timeout := timeout;
                             target_fps := target_fps |}, lines, shown)
            end
        end
  end end.

End WithBuiltins.

End Console.

(** A line that [get_int_input] turns down: it is not blank, and it is no
    integer or an integer that is not positive. [int_complaint] is the line
    printed for it. *)
Definition int_rejected (str_strip : string -> string) (int_of_str : string -> option Z)
    (line : string) : bool :=
  negb (str_empty (str_strip line))
  && match int_of_str (str_strip line) with
     | Some value => negb (0 <? value)
     | None => true
     end.

Definition int_complaint (str_strip : string -> string) (int_of_str : string -> option Z)
    (line : string) : console_event :=
  match int_of_str (str_strip line) with
  | Some _ => CPrint stdout SayPositiveInteger
  | None => CPrint stdout SayInvalidInteger
  end.

Definition float_rejected (str_strip : string -> string)
    (float_of_str : string -> option float) (line : string) : bool :=
  negb (str_empty (str_strip line))
  && match float_of_str (str_strip line) with
     | Some value => negb (0 <? value)%float
     | None => true
     end.

Definition float_complaint (str_strip : string -> string)
    (float_of_str : string -> option float) (line : string) : console_event :=
  match float_of_str (str_strip line) with
  | Some _ => CPrint stdout SayPositiveNumber
  | None => CPrint stdout SayInvalidNumber
  end.

(** What an accepted line stands for. *)
Definition int_answer (str_strip : string -> string) (int_of_str : string -> option Z)
    (default_value : Z) (line : string) : Z :=
  if str_empty (str_strip line) then default_value
  else default default_value (int_of_str (str_strip line)).

Definition float_answer (str_strip : string -> string)
    (float_of_str : string -> option float) (default_value : float) (line : string) : float :=
  if str_empty (str_strip line) then default_value
  else default default_value (float_of_str (str_strip line)).

(** Builtins for the concrete cases: a strip that leaves its argument as it
    is, and parsers that know a few texts. *)
Definition strip_nothing : string -> string := fun s => s.

Definition int_of_known (s : string) : option Z :=
  if String.eqb s "64" then Some 64
  else if String.eqb s "0" then Some 0
  else if String.eqb s "-3" then Some (-3)
  else None.

Definition float_of_known (s : string) : option float :=
  if String.eqb s "0.5" then Some 0x1p-1%float
  else if String.eqb s "nan" then Some PrimFloat.nan
  else if String.eqb s "-1" then Some (-1)%float
  else None.

(** ** Reading the video file (video sender, lines 237-303)

    The capture is the list of frames the decoder still has to deliver;
    [cap.read()] takes the first one, and returns [(False, None)] once
    there is none. *)

Definition cap_read (cap : list ndarray) : bool * option ndarray * list ndarray :=
  match cap with
  | [] => (false, None, [])
  | frame :: rest => (true, Some frame, rest)
  end.

(** Lines 246-250: the turns of [for _ in range(frames_to_skip)]. *)
Fixpoint skip_loop (turns : list Z) (ret : bool) (frame : option ndarray)
    (cap : list ndarray) (processed_frame_index : Z)
  : bool * option ndarray * list ndarray * Z :=
  match turns with
  | [] => (ret, frame, cap, processed_frame_index)
  | _ :: turns' =>
      let '(ret, frame, cap) := cap_read cap in
      let processed_frame_index := processed_frame_index + 1 in
      if negb ret then (ret, frame, cap, processed_frame_index)
      else skip_loop turns' ret frame cap processed_frame_index
  end.

(** Lines 244-250. *)
Definition read_frame (frames_to_skip : Z) (cap : list ndarray)
    (processed_frame_index : Z) : bool * option ndarray * list ndarray * Z :=
  skip_loop (range frames_to_skip) false None cap processed_frame_index.

(** The trace of the whole loop: what its iterations do, and the line
    printed at the end of the file. *)
Inductive run_event : Type :=
| FromIteration (ev : event)
| EndOfVideo (n : Z).

(** What the environment supplies to one turn of the loop besides the
    capture: the two clock readings and how [ser.write] ends. *)
Record tick : Type := {
  tick_start : float;
  tick_end : float;
  tick_write : outcome Z
}.

Module Capture.

Section WithOpenCV.

Variable cv2_resize : ndarray -> Z * Z -> outcome array.
Variable cv2_cvtColor : array -> outcome ndarray.

(** Lines 240-303: [while True] with its read stage, over the turns the
    environment supplies. An exception of [cv2.resize] or [cv2.cvtColor]
    leaves the loop. *)
Fixpoint main_loop (grid_width grid_height target_fps : Z) (frame_delay : float)
    (original_frames frames_to_skip : Z) (ticks : list tick) (cap : list ndarray)
    (processed_frame_index frame_count : Z) (tr : list run_event)
  : outcome Z * list run_event :=
  match ticks with
  | [] => (Ok frame_count, tr)
  | t :: ticks' =>
      let '(ret, frame, cap, processed_frame_index) :=
        read_frame frames_to_skip cap processed_frame_index in
      if negb ret then
        (Ok frame_count, tr ++ [EndOfVideo (processed_frame_index - 1)])
      else
        match frame with
        | None => (Raise cv2_error, tr)
        | Some frame =>
            match cv2_resize frame (grid_width, grid_height) with
            | Raise e => (Raise e, tr)
            | Ok resized_frame =>
                match cv2_cvtColor resized_frame with
                | Raise e => (Raise e, tr)
                | Ok rgb_frame =>
                    let it := {| rgb_frame := rgb_frame;
                                 frame_start_time := tick_start t;
                                 frame_end_time := tick_end t;
                                 write_result := tick_write t |} in
                    match Video.loop_body grid_width grid_height target_fps frame_delay
                            original_frames (it, processed_frame_index) frame_count []
                    with
                    | (Ok (Continue, frame_count), evs) =>
                        main_loop grid_width grid_height target_fps frame_delay
                          original_frames frames_to_skip ticks' cap
                          processed_frame_index frame_count
                          (tr ++ (FromIteration <$> evs))
                    | (Ok (Break, frame_count), evs) =>
                        (Ok frame_count, tr ++ (FromIteration <$> evs))
                    | (Raise e, evs) => (Raise e, tr ++ (FromIteration <$> evs))
                    end
                end
            end
        end
  end.

End WithOpenCV.

End Capture.

(** The frames at positions [s], [2 s], [3 s], ... of a capture, counted
    from 1. *)
Definition every_nth (s : nat) (cap : list ndarray) : list ndarray :=
  omap (fun k => cap !! (k * s + (s - 1))%nat) (seq 0 (length cap / s)).

(** The packets written over a whole run. *)
Definition run_written (evs : list run_event) : list (list byte) :=
  omap (fun ev => match ev with
                  | FromIteration (ESerWrite packet) => Some packet
                  | _ => None
                  end) evs.

(** A colour conversion that returns a three-dimensional argument as it
    is and fails on a two-dimensional one, for the concrete cases. *)
Definition cvt_unchanged : array -> outcome ndarray :=
  fun src => match src with Array3 a => Ok a | Array2 _ _ => Raise cv2_error end.

Definition grid2x2_dark : ndarray :=
  {| shape := (2, 2, 3);
     data := [[[x00; x00; x00]; [x00; x00; x01]];
              [[x00; x00; x02]; [x00; x00; x03]]];
     shape_ok := eq_refl |}.

Definition tick_ok : tick :=
  {| tick_start := 0x1p+3%float; tick_end := 0x1.08p+3%float; tick_write := Ok 14 |}.

(** ** Downloading the video (video sender, lines 70-151 and 322-330)

    The file system is the set of paths that exist. [subprocess.run] on a
    yt-dlp command is a parameter: from the command, its timeout and the
    file system it gives the captured output or the exception raised, and
    the file system it leaves. Whether [os.remove] fails on a file that
    exists is a parameter too; when it does not fail the file is gone. *)

Inductive os_exn : Type :=
| FileNotFoundError
| TimeoutExpired
| CalledProcessError (returncode : Z)
| OSError
| UnexpectedError.

Inductive download_message : Type :=
| SayAttempting (youtube_url : string)
| SayFormat (format_select : string)
| SaySavingTo (output_template : string)
| SayTimeoutSet (timeout : Z)
| SayStarting
| SayDownloadComplete (path : string)
| SayDownloadCompleteByName (path : string)
| SayReportedButMissing (path : string)
| SayCouldNotDetermine
| SayAttemptedPattern (output_template : string)
| SayErrorDuringCheck (e : os_exn)
| SayYtDlpNotFound
| SayTimedOut (timeout : Z)
| SayCleaningUp
| SayRemovedPartial (path : string)
| SayCouldNotRemovePartial (path : string)
| SayYtDlpFailed (returncode : Z)
| SayCheckUrl
| SayUnexpected (e : os_exn)
| SayDeleted (path : string)
| SayCouldNotDelete (path : string)
| SayNotFoundForCleanup (path : string).

Inductive download_event : Type :=
| DPrint (s : stream) (m : download_message)
| DRun (command : list string) (timeout : Z)
| DRemove (path : string).

Definition YTDLP_FORMAT : string :=
  "bestvideo[ext=mp4][height<=480]/bestvideo[height<=480]/bestvideo".
Definition DOWNLOAD_FILENAME : string := "temp_youtube_video".
Definition DOWNLOAD_TIMEOUT_SECONDS : Z := 300.

(** [os.path.exists]; the empty path never exists. *)
Definition path_exists (fs : gset string) (path : string) : bool :=
  negb (str_empty path) && bool_decide (path ∈ fs).

Module Download.

Section WithSystem.

Variable str_strip : string -> string.
Variable run : list string -> Z -> gset string -> result os_exn string * gset string.
Variable remove_fails : gset string -> string -> bool.

(** Lines 96-102: the first extension, in the order of the list, whose
    file exists. *)
Fixpoint probe (output_filename : string) (possible_extensions : list string)
    (fs : gset string) : option string :=
  match possible_extensions with
  | [] => None
  | ext :: rest =>
      let potential_file := output_filename +:+ ext in
      if path_exists fs potential_file then Some potential_file
      else probe output_filename rest fs
  end.

(** Lines 133-141: removal of what a download that timed out may have
    left. *)
Fixpoint remove_partial (output_filename : string) (possible_extensions : list string)
    (fs : gset string) (shown : list download_event)
  : gset string * list download_event :=
  match possible_extensions with
  | [] => (fs, shown)
  | ext :: rest =>
      let potential_file := output_filename +:+ ext in
      if path_exists fs potential_file then
        if remove_fails fs potential_file then
          remove_partial output_filename rest fs
            (shown ++ [DRemove potential_file;
                       DPrint stderr (SayCouldNotRemovePartial potential_file)])
        else
          remove_partial output_filename rest (fs ∖ {[potential_file]})
            (shown ++ [DRemove potential_file;
                       DPrint stdout (SayRemovedPartial potential_file)])
      else remove_partial output_filename rest fs shown
  end.

(** Lines 70-151. *)
Definition download_youtube_video (youtube_url format_select output_filename : string)
    (timeout : Z) (fs : gset string) (shown : list download_event)
  : option string * gset string * list download_event :=
  let output_template := output_filename +:+ ".%(ext)s" in
  let shown :=
    shown ++ [DPrint stdout (SayAttempting youtube_url);
              DPrint stdout (SayFormat format_select);
              DPrint stdout (SaySavingTo output_template);
              DPrint stdout (SayTimeoutSet timeout)] in
  let command := ["yt-dlp"; "-f"; format_select; "-o"; output_template; youtube_url] in
  let shown := shown ++ [DPrint stdout SayStarting; DRun command timeout] in
  match run command timeout fs with
  | (Returned _, fs) =>
      match probe output_filename [".mp4"; ".mkv"; ".webm"; ".avi"; ".mov"; ".flv"] fs with
      | Some downloaded_filepath =>
          (Some downloaded_filepath, fs,
           shown ++ [DPrint stdout (SayDownloadComplete downloaded_filepath)])
      | None =>
          let get_name_command :=
            ["yt-dlp"; "--print"; "filename"; "-f"; format_select;
             "-o"; output_template; youtube_url] in
          let shown := shown ++ [DRun get_name_command 30] in
          match run get_name_command 30 fs with
          | (Returned stdout_text, fs) =>
              let potential_file := str_strip stdout_text in
              if path_exists fs potential_file then
                (Some potential_file, fs,
                 shown ++ [DPrint stdout (SayDownloadCompleteByName potential_file)])
              else
                (None, fs,
                 shown ++ [DPrint stderr (SayReportedButMissing potential_file)])
          | (Thrown name_e, fs) =>
              (None, fs,
               shown ++ [DPrint stderr SayCouldNotDetermine;
                         DPrint stderr (SayAttemptedPattern output_template);
                         DPrint stderr (SayErrorDuringCheck name_e)])
          end
      end
  | (Thrown FileNotFoundError, fs) =>
      (None, fs, shown ++ [DPrint stderr SayYtDlpNotFound])
  | (Thrown TimeoutExpired, fs) =>
      let '(fs, shown) :=
        remove_partial output_filename
          [".mp4"; ".mkv"; ".webm"; ".avi"; ".mov"; ".flv"; ".part"] fs
          (shown ++ [DPrint stderr (SayTimedOut timeout); DPrint stdout SayCleaningUp]) in
      (None, fs, shown)
  | (Thrown (CalledProcessError returncode), fs) =>
      (None, fs, shown ++ [DPrint stderr (SayYtDlpFailed returncode);
                           DPrint stderr SayCheckUrl])
  | (Thrown e, fs) => (None, fs, shown ++ [DPrint stderr (SayUnexpected e)])
  end.

(** Lines 322-330 of [main]'s [finally]: the downloaded file is deleted
    when it is still there. *)
Definition delete_download (video_filepath : string) (fs : gset string)
    (shown : list download_event) : gset string * list download_event :=
  if negb (str_empty video_filepath) && path_exists fs video_filepath then
    if remove_fails fs video_filepath then
      (fs, shown ++ [DRemove video_filepath;
                     DPrint stderr (SayCouldNotDelete video_filepath)])
    else
      (fs ∖ {[video_filepath]},
       shown ++ [DRemove video_filepath; DPrint stdout (SayDeleted video_filepath)])
  else if negb (str_empty video_filepath) then
    (fs, shown ++ [DPrint stdout (SayNotFoundForCleanup video_filepath)])
  else (fs, shown).

End WithSystem.

End Download.

(** The calls of yt-dlp and of [os.remove] made, in order. *)
Definition runs (evs : list download_event) : list (list string) :=
  omap (fun ev => match ev with DRun command _ => Some command | _ => None end) evs.

Definition removals (evs : list download_event) : list string :=
  omap (fun ev => match ev with DRemove path => Some path | _ => None end) evs.

(** A yt-dlp that writes an [.mkv] and a [.webm] file, one that only
    leaves a [.part] file and times out, and an [os.remove] that never
    fails. *)
Definition run_writes_mkv_webm : list string -> Z -> gset string
                                 -> result os_exn string * gset string :=
  fun _ _ fs =>
    (Returned "", {["temp_youtube_video.webm"; "temp_youtube_video.mkv"]} ∪ fs).

Definition run_times_out : list string -> Z -> gset string
                           -> result os_exn string * gset string :=
  fun _ _ fs => (Thrown TimeoutExpired, {["temp_youtube_video.part"]} ∪ fs).

Definition remove_never_fails : gset string -> string -> bool := fun _ _ => false.

(** * Properties *)

(** ** Lists cut into pieces of one length *)

Section Uniform.
Context {A : Type}.

Lemma length_concat_uniform (n : nat) (ls : list (list A)) :
  Forall (fun l => length l = n) ls ->
  length (concat ls) = (length ls * n)%nat.
Proof.
  induction 1 as [|l ls Hl _ IH]; simpl; [reflexivity|].
  rewrite length_app, IH, Hl. reflexivity.
Qed.

Lemma lookup_concat_uniform (n : nat) (ls : list (list A)) (i j : nat) :
  Forall (fun l => length l = n) ls ->
  (j < n)%nat ->
  concat ls !! (i * n + j)%nat = ls !! i ≫= (.!! j).
Proof.
  intros Hall Hj. revert i.
  induction Hall as [|l ls Hl _ IH]; intros i; simpl.
  - reflexivity.
  - destruct i as [|i]; simpl.
    + rewrite lookup_app_l by lia. reflexivity.
    + rewrite lookup_app_r by lia.
      replace (n + i * n + j - length l)%nat with (i * n + j)%nat by lia.
      apply IH.
Qed.

Lemma chunks_concat (n : nat) (ls : list (list A)) :
  Forall (fun l => length l = n) ls ->
  chunks (length ls) n (concat ls) = ls.
Proof.
  induction 1 as [|l ls Hl _ IH]; simpl; [reflexivity|].
  rewrite take_app_length' by (symmetry; exact Hl).
  rewrite drop_app_length' by (symmetry; exact Hl).
  rewrite IH. reflexivity.
Qed.
End Uniform.

(** ** Loops that only append *)

Lemma for_in_appends {A B : Type} (f : A -> list B)
    (body : A -> list B -> outcome (list B)) (xs : list A) (acc : list B) :
  (forall x s, x ∈ xs -> body x s = Ok (s ++ f x)) ->
  for_in xs body acc = Ok (acc ++ concat (f <$> xs)).
Proof.
  revert acc. induction xs as [|x xs IH]; intros acc Hbody; simpl.
  - rewrite app_nil_r. reflexivity.
  - rewrite Hbody by left. rewrite IH.
    + rewrite <- app_assoc. reflexivity.
    + intros x' s Hin. apply Hbody. right. exact Hin.
Qed.

(** [range] and the descending [range] as index lists of a row. *)

Lemma fmap_range_lookup {A : Type} (d : A) (l : list A) :
  (fun x : Z => default d (l !! Z.to_nat x)) <$> range (Z.of_nat (length l)) = l.
Proof.
  apply list_eq. intros i. unfold range.
  rewrite list_lookup_fmap.
  destruct (decide (i < length l)%nat) as [Hlt|Hge].
  - rewrite lookup_seqZ_lt by lia. simpl.
    rewrite Z.add_0_l, Nat2Z.id.
    destruct (lookup_lt_is_Some_2 l i Hlt) as [x Hx]. rewrite Hx. reflexivity.
  - rewrite lookup_seqZ_ge by lia. simpl.
    symmetry. apply lookup_ge_None. lia.
Qed.

Lemma fmap_range_down_lookup {A : Type} (d : A) (l : list A) :
  (fun x : Z => default d (l !! Z.to_nat x))
    <$> range_down (Z.of_nat (length l) - 1) (-1) = reverse l.
Proof.
  apply list_eq. intros i. unfold range_down.
  rewrite <- list_fmap_compose, list_lookup_fmap.
  replace (Z.of_nat (length l) - 1 - -1) with (Z.of_nat (length l)) by lia.
  destruct (decide (i < length l)%nat) as [Hlt|Hge].
  - rewrite lookup_seqZ_lt by lia. simpl.
    rewrite reverse_lookup by exact Hlt.
    rewrite Z.add_0_l.
    replace (Z.to_nat (Z.of_nat (length l) - 1 - Z.of_nat i))
      with (length l - S i)%nat by lia.
    destruct (lookup_lt_is_Some_2 l (length l - S i)) as [x Hx]; [lia|].
    rewrite Hx. reflexivity.
  - rewrite lookup_seqZ_ge by lia. simpl.
    symmetry. apply lookup_ge_None. rewrite length_reverse. lia.
Qed.

(** ** What the shape of an array says about its data *)

Lemma shape_rows (a : ndarray) (h w c : Z) :
  shape a = (h, w, c) -> Z.of_nat (length (data a)) = h.
Proof.
  intros Hs. pose proof (shape_ok a) as Hok. rewrite Hs in Hok.
  unfold shape_of_data in Hok. apply andb_true_iff in Hok as [Hok _].
  apply andb_true_iff in Hok as [_ Hh]. lia.
Qed.

Lemma shape_nonneg (a : ndarray) (h w c : Z) :
  shape a = (h, w, c) -> 0 <= h /\ 0 <= w /\ 0 <= c.
Proof.
  intros Hs. pose proof (shape_ok a) as Hok. rewrite Hs in Hok.
  unfold shape_of_data in Hok. apply andb_true_iff in Hok as [Hok _].
  apply andb_true_iff in Hok as [Hok Hh].
  apply andb_true_iff in Hok as [Hw Hc].
  apply Z.leb_le in Hw, Hc. apply Z.eqb_eq in Hh. lia.
Qed.

Lemma shape_row (a : ndarray) (h w c : Z) (i : nat) (row : list (list byte)) :
  shape a = (h, w, c) -> data a !! i = Some row ->
  Z.of_nat (length row) = w /\ Forall (fun px => Z.of_nat (length px) = c) row.
Proof.
  intros Hs Hrow. pose proof (shape_ok a) as Hok. rewrite Hs in Hok.
  unfold shape_of_data in Hok. apply andb_true_iff in Hok as [_ Hrows].
  rewrite forallb_forall in Hrows.
  apply list_elem_of_lookup_2, list_elem_of_In in Hrow.
  apply Hrows, andb_true_iff in Hrow as [Hw Hpx].
  split; [lia|].
  apply Forall_forall. intros px Hin.
  rewrite forallb_forall in Hpx. apply list_elem_of_In, Hpx in Hin. lia.
Qed.

Lemma norm_index_in_range (i : nat) (n : Z) :
  Z.of_nat i < n -> norm_index (Z.of_nat i) n = Some i.
Proof.
  intros Hlt. unfold norm_index.
  replace (0 <=? Z.of_nat i) with true by (symmetry; apply Z.leb_le; lia).
  replace (Z.of_nat i <? n) with true by (symmetry; apply Z.ltb_lt; lia).
  simpl. rewrite Nat2Z.id. reflexivity.
Qed.

Lemma even_mod2 (i : nat) : (Z.of_nat i mod 2 =? 0) = Nat.even i.
Proof.
  destruct (Nat.even i) eqn:He.
  - apply Nat.even_spec in He as [k ->]. apply Z.eqb_eq.
    replace (Z.of_nat (2 * k)) with (Z.of_nat k * 2) by lia.
    apply Z_mod_mult.
  - apply Z.eqb_neq. intros Hz.
    assert (Ho : Nat.odd i = true) by (unfold Nat.odd; rewrite He; reflexivity).
    apply Nat.odd_spec in Ho as [k ->].
    replace (Z.of_nat (2 * k + 1)) with (1 + Z.of_nat k * 2) in Hz by lia.
    rewrite Z_mod_plus_full in Hz. discriminate Hz.
Qed.

(** ** The pixel loops compute the zigzag order *)

Section Loops.
Variable frame_rgb : ndarray.
Variables grid_width grid_height : Z.
Hypothesis Hshape : shape frame_rgb = (grid_height, grid_width, 3).

Lemma emit_pixel_appends (i j : nat) (row : list (list byte)) (px acc : list byte) :
  data frame_rgb !! i = Some row -> row !! j = Some px ->
  emit_pixel frame_rgb (Z.of_nat i) (Z.of_nat j) acc = Ok (acc ++ px).
Proof.
  intros Hrow Hpx.
  pose proof (shape_rows _ _ _ _ Hshape) as Hh.
  destruct (shape_row _ _ _ _ _ _ Hshape Hrow) as [Hw Hc].
  apply lookup_lt_Some in Hrow as Hi. apply lookup_lt_Some in Hpx as Hj.
  unfold emit_pixel, getitem. rewrite Hshape.
  rewrite !norm_index_in_range by lia. rewrite Hrow, Hpx.
  rewrite Forall_forall in Hc.
  specialize (Hc px (list_elem_of_lookup_2 _ _ _ Hpx)).
  destruct px as [|r [|g [|b [|]]]]; simpl in Hc; try lia.
  reflexivity.
Qed.

Lemma emit_row_appends (i : nat) (row : list (list byte)) (acc : list byte) :
  data frame_rgb !! i = Some row ->
  emit_row frame_rgb grid_width (Z.of_nat i) acc = Ok (acc ++ row_bytes i row).
Proof.
  intros Hrow.
  destruct (shape_row _ _ _ _ _ _ Hshape Hrow) as [Hw _].
  assert (Hbody : forall x s, 0 <= x < grid_width ->
            emit_pixel frame_rgb (Z.of_nat i) x s
            = Ok (s ++ default [] (row !! Z.to_nat x))).
  { intros x s Hx.
    destruct (lookup_lt_is_Some_2 row (Z.to_nat x)) as [px Hpx]; [lia|].
    rewrite Hpx. simpl. rewrite <- (Z2Nat.id x) at 1 by lia.
    eapply emit_pixel_appends; eassumption. }
  unfold emit_row, row_bytes.
  rewrite even_mod2.
  destruct (Nat.even i).
  - rewrite (for_in_appends (fun x => default [] (row !! Z.to_nat x))).
    + rewrite <- Hw, fmap_range_lookup. reflexivity.
    + intros x s Hin. apply Hbody.
      unfold range in Hin. apply elem_of_seqZ in Hin. lia.
  - rewrite (for_in_appends (fun x => default [] (row !! Z.to_nat x))).
    + rewrite <- Hw, fmap_range_down_lookup. reflexivity.
    + intros x s Hin. apply Hbody.
      unfold range_down in Hin. apply list_elem_of_fmap in Hin as [k [-> Hk]].
      apply elem_of_seqZ in Hk. lia.
Qed.

Lemma zigzag_loops_order :
  zigzag_loops frame_rgb grid_width grid_height = Ok (zigzag_order (data frame_rgb)).
Proof.
  pose proof (shape_rows _ _ _ _ Hshape) as Hh.
  unfold zigzag_loops, zigzag_order.
  rewrite (for_in_appends
             (fun y => row_bytes (Z.to_nat y)
                         (default [] (data frame_rgb !! Z.to_nat y)))).
  - simpl. f_equal. f_equal. apply list_eq. intros i.
    unfold range. rewrite list_lookup_fmap, list_lookup_imap.
    destruct (data frame_rgb !! i) as [row|] eqn:Hrow.
    + apply lookup_lt_Some in Hrow as Hi.
      rewrite lookup_seqZ_lt by lia. simpl.
      rewrite Z.add_0_l, Nat2Z.id, Hrow. reflexivity.
    + apply lookup_ge_None in Hrow.
      rewrite lookup_seqZ_ge by lia. reflexivity.
  - intros y s Hin. unfold range in Hin. apply elem_of_seqZ in Hin.
    destruct (lookup_lt_is_Some_2 (data frame_rgb) (Z.to_nat y)) as [row Hrow]; [lia|].
    rewrite Hrow. simpl. rewrite <- (Z2Nat.id y) at 1 by lia.
    apply emit_row_appends. exact Hrow.
Qed.
End Loops.

Lemma Z_even_of_nat (i : nat) : Z.even (Z.of_nat i) = Nat.even i.
Proof.
  rewrite <- even_mod2. apply Zeven_mod.
Qed.

Lemma getitem_in_range (a : ndarray) (h w c : Z) (i j : nat)
    (row : list (list byte)) (px : list byte) :
  shape a = (h, w, c) ->
  data a !! i = Some row -> row !! j = Some px ->
  getitem a (Z.of_nat i) (Z.of_nat j) = Ok px.
Proof.
  intros Hs Hrow Hpx.
  pose proof (shape_rows _ _ _ _ Hs) as Hh.
  destruct (shape_row _ _ _ _ _ _ Hs Hrow) as [Hw _].
  apply lookup_lt_Some in Hrow as Hi. apply lookup_lt_Some in Hpx as Hj.
  unfold getitem. rewrite Hs.
  rewrite !norm_index_in_range by lia. rewrite Hrow, Hpx. reflexivity.
Qed.

(** The byte at channel [c] of the [j]-th emitted pixel of row [i]. *)
Lemma zigzag_order_lookup (rows : list (list (list byte))) (w i j c : nat)
    (row : list (list byte)) :
  Forall (fun row => length row = w /\ Forall (fun px => length px = 3%nat) row) rows ->
  rows !! i = Some row -> (j < w)%nat -> (c < 3)%nat ->
  zigzag_order rows !! (3 * (i * w + j) + c)%nat
  = (if Nat.even i then row else reverse row) !! j ≫= (.!! c).
Proof.
  intros Hall Hrow Hj Hc. unfold zigzag_order.
  replace (3 * (i * w + j) + c)%nat with (i * (w * 3) + (j * 3 + c))%nat by lia.
  rewrite (lookup_concat_uniform (w * 3)); [| |lia].
  - rewrite list_lookup_imap, Hrow. simpl.
    rewrite Forall_forall in Hall.
    destruct (Hall row (list_elem_of_lookup_2 _ _ _ Hrow)) as [_ Hpx].
    unfold row_bytes. destruct (Nat.even i).
    + apply lookup_concat_uniform; [exact Hpx|exact Hc].
    + apply lookup_concat_uniform; [|exact Hc].
      apply Forall_reverse. exact Hpx.
  - apply Forall_forall. intros bs Hin.
    apply list_elem_of_lookup in Hin as [k Hk].
    rewrite list_lookup_imap in Hk.
    destruct (rows !! k) as [rk|] eqn:Hrk; [|discriminate Hk].
    simpl in Hk. injection Hk as <-.
    rewrite Forall_forall in Hall.
    destruct (Hall rk (list_elem_of_lookup_2 _ _ _ Hrk)) as [Hlen Hpx].
    unfold row_bytes. destruct (Nat.even k).
    + rewrite (length_concat_uniform 3) by exact Hpx. lia.
    + rewrite (length_concat_uniform 3) by (apply Forall_reverse; exact Hpx).
      rewrite length_reverse. lia.
Qed.

Lemma shape_uniform (a : ndarray) (h w c : Z) :
  shape a = (h, w, c) ->
  Forall (fun row => length row = Z.to_nat w
                     /\ Forall (fun px => length px = Z.to_nat c) row) (data a).
Proof.
  intros Hs. apply Forall_forall. intros row Hin.
  apply list_elem_of_lookup in Hin as [i Hi].
  destruct (shape_row _ _ _ _ _ _ Hs Hi) as [Hw Hc].
  split; [lia|]. eapply Forall_impl; [exact Hc|]. simpl. intros px Hpx. lia.
Qed.

Lemma length_zigzag_order (rows : list (list (list byte))) (w : nat) :
  Forall (fun row => length row = w /\ Forall (fun px => length px = 3%nat) row) rows ->
  length (zigzag_order rows) = (3 * w * length rows)%nat.
Proof.
  intros Hall. unfold zigzag_order.
  rewrite (length_concat_uniform (w * 3)).
  - rewrite length_imap. lia.
  - apply Forall_forall. intros bs Hin.
    apply list_elem_of_lookup in Hin as [k Hk].
    rewrite list_lookup_imap in Hk.
    destruct (rows !! k) as [rk|] eqn:Hrk; [|discriminate Hk].
    simpl in Hk. injection Hk as <-.
    rewrite Forall_forall in Hall.
    destruct (Hall rk (list_elem_of_lookup_2 _ _ _ Hrk)) as [Hlen Hpx].
    unfold row_bytes. destruct (Nat.even k).
    + rewrite (length_concat_uniform 3) by exact Hpx. lia.
    + rewrite (length_concat_uniform 3) by (apply Forall_reverse; exact Hpx).
      rewrite length_reverse. lia.
Qed.

(** ** The serialisers on a frame of the target dimensions *)

Lemma mismatch_false (grid_width grid_height : Z) :
  mismatch (grid_height, grid_width, 3) grid_width grid_height = false.
Proof.
  unfold mismatch. rewrite !Z.eqb_refl. reflexivity.
Qed.

Lemma mismatch_false_inv (shp : Z * Z * Z) (grid_width grid_height : Z) :
  mismatch shp grid_width grid_height = false -> shp = (grid_height, grid_width, 3).
Proof.
  destruct shp as [[h w] c]. unfold mismatch. intros Hm.
  apply orb_false_iff in Hm as [Hm Hc]. apply orb_false_iff in Hm as [Hh Hw].
  apply negb_false_iff, Z.eqb_eq in Hh, Hw, Hc. subst. reflexivity.
Qed.

Lemma screen_prepare_matching (cv2_resize : ndarray -> Z * Z -> outcome array)
    (frame_rgb : ndarray) (grid_width grid_height : Z) (tr : list event) :
  shape frame_rgb = (grid_height, grid_width, 3) ->
  Screen.prepare_pixel_data_standard_zigzag cv2_resize frame_rgb grid_width grid_height tr
  = (Ok (Some (zigzag_order (data frame_rgb))), tr).
Proof.
  intros Hs. unfold Screen.prepare_pixel_data_standard_zigzag.
  rewrite Hs, mismatch_false. unfold mbind, M_bind, mret, M_ret, lift.
  rewrite (zigzag_loops_order _ _ _ Hs). reflexivity.
Qed.

Lemma video_prepare_matching (frame_rgb : ndarray) (grid_width grid_height : Z)
    (tr : list event) :
  shape frame_rgb = (grid_height, grid_width, 3) ->
  Video.prepare_pixel_data_standard_zigzag frame_rgb grid_width grid_height tr
  = (Ok (Some (zigzag_order (data frame_rgb))), tr).
Proof.
  intros Hs. unfold Video.prepare_pixel_data_standard_zigzag.
  rewrite Hs, mismatch_false. unfold mbind, M_bind, mret, M_ret, lift.
  rewrite (zigzag_loops_order _ _ _ Hs). reflexivity.
Qed.

(** ** The order of the serialised bytes *)

(** C1. On a frame of exactly [grid_height] rows and [grid_width] columns of
    three channels, both serialisers return, without any effect, a list in
    which the pixels of row [y] start at byte [3 * (y * grid_width)]: the
    [k]-th pixel emitted for row [y] is the pixel of column [k] when [y] is
    even and of column [grid_width - 1 - k] when [y] is odd, and its three
    bytes are R, G, B in that order in both cases. *)
Theorem zigzag_rows_alternate
    (cv2_resize : ndarray -> Z * Z -> outcome array)
    (frame_rgb : ndarray) (grid_width grid_height : Z) (tr : list event) :
  shape frame_rgb = (grid_height, grid_width, 3) ->
  exists pixel_data : list byte,
    Screen.prepare_pixel_data_standard_zigzag cv2_resize frame_rgb grid_width grid_height tr
    = (Ok (Some pixel_data), tr)
    /\ Video.prepare_pixel_data_standard_zigzag frame_rgb grid_width grid_height tr
       = (Ok (Some pixel_data), tr)
    /\ forall y k : Z,
        0 <= y < grid_height -> 0 <= k < grid_width ->
        exists r g b : byte,
          getitem frame_rgb y (if Z.even y then k else grid_width - 1 - k)
          = Ok [r; g; b]
          /\ pixel_data !! Z.to_nat (3 * (y * grid_width + k)) = Some r
          /\ pixel_data !! Z.to_nat (3 * (y * grid_width + k) + 1) = Some g
          /\ pixel_data !! Z.to_nat (3 * (y * grid_width + k) + 2) = Some b.
Proof.
  intros Hs. exists (zigzag_order (data frame_rgb)).
  split; [apply screen_prepare_matching; exact Hs|].
  split; [apply video_prepare_matching; exact Hs|].
  intros y k Hy Hk.
  pose proof (shape_rows _ _ _ _ Hs) as Hh.
  pose proof (shape_uniform _ _ _ _ Hs) as Hu.
  destruct (lookup_lt_is_Some_2 (data frame_rgb) (Z.to_nat y)) as [row Hrow]; [lia|].
  destruct (shape_row _ _ _ _ _ _ Hs Hrow) as [Hw Hc].
  set (j := if Nat.even (Z.to_nat y) then Z.to_nat k
            else (Z.to_nat grid_width - S (Z.to_nat k))%nat).
  destruct (lookup_lt_is_Some_2 row j) as [px Hpx].
  { unfold j. destruct (Nat.even (Z.to_nat y)); lia. }
  assert (Hsel : (if Nat.even (Z.to_nat y) then row else reverse row) !! Z.to_nat k
                 = Some px).
  { unfold j in Hpx. destruct (Nat.even (Z.to_nat y)); [exact Hpx|].
    rewrite reverse_lookup by lia.
    replace (length row) with (Z.to_nat grid_width) by lia. exact Hpx. }
  rewrite Forall_forall in Hc.
  pose proof (Hc px (list_elem_of_lookup_2 _ _ _ Hpx)) as Hlen.
  destruct px as [|r [|g [|b [|]]]]; simpl in Hlen; try lia.
  exists r, g, b. split.
  - rewrite <- (Z2Nat.id y) by lia. rewrite Z_even_of_nat.
    replace (if Nat.even (Z.to_nat y) then k
             else grid_width - 1 - k) with (Z.of_nat j).
    + eapply getitem_in_range; eassumption.
    + unfold j. destruct (Nat.even (Z.to_nat y)); lia.
  - assert (Hat : forall c : nat, (c < 3)%nat ->
              zigzag_order (data frame_rgb)
                !! Z.to_nat (3 * (y * grid_width + k) + Z.of_nat c)
              = [r; g; b] !! c).
    { intros c Hc3.
      replace (Z.to_nat (3 * (y * grid_width + k) + Z.of_nat c))
        with (3 * (Z.to_nat y * Z.to_nat grid_width + Z.to_nat k) + c)%nat by nia.
      rewrite (zigzag_order_lookup _ (Z.to_nat grid_width) _ _ _ row);
        [|exact Hu|exact Hrow|lia|exact Hc3].
      rewrite Hsel. reflexivity. }
    pose proof (Hat 0%nat ltac:(lia)) as H0.
    pose proof (Hat 1%nat ltac:(lia)) as H1.
    pose proof (Hat 2%nat ltac:(lia)) as H2.
    rewrite Z.add_0_r in H0. simpl Z.of_nat in H1, H2.
    repeat split; assumption.
Qed.

Lemma zigzag_rows_alternate_witness :
  shape grid2x2 = (2, 2, 3)
  /\ exists pixel_data : list byte,
      Screen.prepare_pixel_data_standard_zigzag resize_unchanged grid2x2 2 2 []
      = (Ok (Some pixel_data), [])
      /\ Video.prepare_pixel_data_standard_zigzag grid2x2 2 2 []
         = (Ok (Some pixel_data), [])
      /\ forall y k : Z,
          0 <= y < 2 -> 0 <= k < 2 ->
          exists r g b : byte,
            getitem grid2x2 y (if Z.even y then k else 2 - 1 - k) = Ok [r; g; b]
            /\ pixel_data !! Z.to_nat (3 * (y * 2 + k)) = Some r
            /\ pixel_data !! Z.to_nat (3 * (y * 2 + k) + 1) = Some g
            /\ pixel_data !! Z.to_nat (3 * (y * 2 + k) + 2) = Some b.
Proof.
  split; [reflexivity|].
  apply (zigzag_rows_alternate resize_unchanged grid2x2 2 2 []). reflexivity.
Defined.

(** ** Round trip *)

Lemma dezigzag_zigzag_order (rows : list (list (list byte))) (w : nat) :
  Forall (fun row => length row = w /\ Forall (fun px => length px = 3%nat) row) rows ->
  dezigzag w (length rows) (zigzag_order rows) = rows.
Proof.
  intros Hall. unfold dezigzag, zigzag_order.
  assert (Hlen : Forall (fun bs : list byte => length bs = (3 * w)%nat)
                   (imap row_bytes rows)).
  { apply Forall_forall. intros bs Hin.
    apply list_elem_of_lookup in Hin as [k Hk].
    rewrite list_lookup_imap in Hk.
    destruct (rows !! k) as [rk|] eqn:Hrk; [|discriminate Hk].
    simpl in Hk. injection Hk as <-.
    rewrite Forall_forall in Hall.
    destruct (Hall rk (list_elem_of_lookup_2 _ _ _ Hrk)) as [Hw Hpx].
    unfold row_bytes. destruct (Nat.even k).
    - rewrite (length_concat_uniform 3) by exact Hpx. lia.
    - rewrite (length_concat_uniform 3) by (apply Forall_reverse; exact Hpx).
      rewrite length_reverse. lia. }
  rewrite <- (length_imap row_bytes rows) at 1.
  rewrite (chunks_concat _ _ Hlen).
  apply list_eq. intros i. rewrite !list_lookup_imap.
  destruct (rows !! i) as [row|] eqn:Hrow; [|reflexivity].
  simpl. f_equal.
  rewrite Forall_forall in Hall.
  destruct (Hall row (list_elem_of_lookup_2 _ _ _ Hrow)) as [Hw Hpx].
  unfold dezigzag_row, row_bytes. destruct (Nat.even i).
  - rewrite <- Hw. apply chunks_concat. exact Hpx.
  - rewrite <- Hw, <- (length_reverse row).
    rewrite chunks_concat by (apply Forall_reverse; exact Hpx).
    apply reverse_involutive.
Qed.

(** C2. De-zigzagging what a serialiser returns for a frame of the target
    dimensions gives back the rows of the frame. It holds for every width
    and height, in particular for those that are at least 1. *)
Theorem dezigzag_prepare_roundtrip
    (cv2_resize : ndarray -> Z * Z -> outcome array)
    (frame_rgb : ndarray) (grid_width grid_height : Z) (tr : list event) :
  shape frame_rgb = (grid_height, grid_width, 3) ->
  exists payload : list byte,
    Screen.prepare_pixel_data_standard_zigzag cv2_resize frame_rgb grid_width grid_height tr
    = (Ok (Some payload), tr)
    /\ Video.prepare_pixel_data_standard_zigzag frame_rgb grid_width grid_height tr
       = (Ok (Some payload), tr)
    /\ dezigzag (Z.to_nat grid_width) (Z.to_nat grid_height) payload = data frame_rgb.
Proof.
  intros Hs. exists (zigzag_order (data frame_rgb)).
  split; [apply screen_prepare_matching; exact Hs|].
  split; [apply video_prepare_matching; exact Hs|].
  pose proof (shape_rows _ _ _ _ Hs) as Hh.
  replace (Z.to_nat grid_height) with (length (data frame_rgb)) by lia.
  apply dezigzag_zigzag_order.
  exact (shape_uniform _ _ _ _ Hs).
Qed.

Lemma dezigzag_prepare_roundtrip_witness :
  shape grid2x2 = (2, 2, 3)
  /\ exists payload : list byte,
      Screen.prepare_pixel_data_standard_zigzag resize_unchanged grid2x2 2 2 []
      = (Ok (Some payload), [])
      /\ Video.prepare_pixel_data_standard_zigzag grid2x2 2 2 []
         = (Ok (Some payload), [])
      /\ dezigzag (Z.to_nat 2) (Z.to_nat 2) payload = data grid2x2.
Proof.
  split; [reflexivity|].
  apply (dezigzag_prepare_roundtrip resize_unchanged grid2x2 2 2 []). reflexivity.
Defined.

(** C3. The grid [[(1,2,3),(4,5,6)],[(7,8,9),(10,11,12)]] with width 2 and
    height 2 is serialised, by both senders, to the bytes
    1,2,3,4,5,6,10,11,12,7,8,9. *)
Theorem zigzag_grid2x2 (cv2_resize : ndarray -> Z * Z -> outcome array) :
  shape grid2x2 = (2, 2, 3)
  /\ map (map (map Strings.Byte.to_N)) (data grid2x2)
     = [[[1; 2; 3]; [4; 5; 6]]; [[7; 8; 9]; [10; 11; 12]]]%N
  /\ Screen.prepare_pixel_data_standard_zigzag cv2_resize grid2x2 2 2 []
     = (Ok (Some [x01; x02; x03; x04; x05; x06; x0a; x0b; x0c; x07; x08; x09]), [])
  /\ Video.prepare_pixel_data_standard_zigzag grid2x2 2 2 []
     = (Ok (Some [x01; x02; x03; x04; x05; x06; x0a; x0b; x0c; x07; x08; x09]), [])
  /\ map Strings.Byte.to_N [x01; x02; x03; x04; x05; x06; x0a; x0b; x0c; x07; x08; x09]
     = [1; 2; 3; 4; 5; 6; 10; 11; 12; 7; 8; 9]%N.
Proof.
  repeat split; reflexivity.
Qed.

(** ** Computations only extend the trace *)

Lemma appends_mret {A : Type} (a : A) : appends (mret a).
Proof. intros tr. unfold mret, M_ret. simpl. rewrite app_nil_r. reflexivity. Qed.

Lemma appends_lift {A : Type} (o : outcome A) : appends (lift o).
Proof. intros tr. unfold lift. simpl. rewrite app_nil_r. reflexivity. Qed.

Lemma appends_emit (ev : event) : appends (emit ev).
Proof. intros tr. reflexivity. Qed.

Lemma appends_mbind {A B : Type} (m : M A) (k : A -> M B) :
  appends m -> (forall a, appends (k a)) -> appends (m ≫= k).
Proof.
  intros Hm Hk tr. unfold mbind, M_bind.
  rewrite (Hm tr). destruct (m []) as [[a|e] new]; simpl.
  - rewrite (Hk a (tr ++ new)), (Hk a new). simpl.
    rewrite app_assoc. reflexivity.
  - reflexivity.
Qed.

Lemma appends_try_except {A : Type} (body : M A) (handler : exn -> M A) :
  appends body -> (forall e, appends (handler e)) -> appends (try_except body handler).
Proof.
  intros Hm Hk tr. unfold try_except.
  rewrite (Hm tr). destruct (body []) as [[a|e] new]; simpl.
  - reflexivity.
  - rewrite (Hk e (tr ++ new)), (Hk e new). simpl.
    rewrite app_assoc. reflexivity.
Qed.

Create HintDb appends.

Ltac appends_step :=
  lazymatch goal with
  | |- appends (mret _) => apply appends_mret
  | |- appends (lift _) => apply appends_lift
  | |- appends (emit _) => apply appends_emit
  | |- appends (print _ _) => apply appends_emit
  | |- appends (time_sleep _) => apply appends_emit
  | |- appends (mbind _ _) => apply appends_mbind; [|intros ?]
  | |- appends (try_except _ _) => apply appends_try_except; [|intros ?]
  | |- appends (if ?b then _ else _) => destruct b
  | |- appends (match ?x with _ => _ end) => destruct x
  | |- appends _ => solve [auto with appends]
  end.

Ltac solve_appends := repeat appends_step.

Lemma appends_frame_rate_control (frame_delay start_time end_time : float) :
  appends (frame_rate_control frame_delay start_time end_time).
Proof. unfold frame_rate_control. solve_appends. Qed.
#[global] Hint Resolve appends_frame_rate_control : appends.

Lemma appends_send_packet (packet_buffer : list byte) (result : outcome Z)
    (frame_count : Z) :
  appends (send_packet packet_buffer result frame_count).
Proof. unfold send_packet. solve_appends. Qed.
#[global] Hint Resolve appends_send_packet : appends.

Lemma appends_screen_prepare (cv2_resize : ndarray -> Z * Z -> outcome array)
    (frame_rgb : ndarray) (grid_width grid_height : Z) :
  appends (Screen.prepare_pixel_data_standard_zigzag cv2_resize frame_rgb
             grid_width grid_height).
Proof.
  unfold Screen.prepare_pixel_data_standard_zigzag.
  destruct (shape frame_rgb) as [[h w] c]. solve_appends.
Qed.

Lemma appends_video_prepare (frame_rgb : ndarray) (grid_width grid_height : Z) :
  appends (Video.prepare_pixel_data_standard_zigzag frame_rgb grid_width grid_height).
Proof.
  unfold Video.prepare_pixel_data_standard_zigzag.
  destruct (shape frame_rgb) as [[h w] c]. solve_appends.
Qed.

Lemma appends_screen_send_stage (grid_width grid_height target_fps : Z)
    (frame_delay : float) (it : iteration) (pixel_byte_list : list byte)
    (frame_count : Z) :
  appends (Screen.send_stage grid_width grid_height target_fps frame_delay it
             pixel_byte_list frame_count).
Proof.
  unfold Screen.send_stage. solve_appends.
Qed.
#[global] Hint Resolve appends_screen_prepare appends_video_prepare
  appends_screen_send_stage : appends.

Lemma appends_video_send_stage (grid_width grid_height target_fps : Z)
    (frame_delay : float) (original_frames idx : Z) (it : iteration)
    (pixel_byte_list : list byte) (frame_count : Z) :
  appends (Video.send_stage grid_width grid_height target_fps frame_delay
             original_frames idx it pixel_byte_list frame_count).
Proof.
  unfold Video.send_stage. solve_appends.
Qed.
#[global] Hint Resolve appends_video_send_stage : appends.

Lemma appends_screen_loop_body (cv2_resize : ndarray -> Z * Z -> outcome array)
    (grid_width grid_height target_fps : Z) (frame_delay : float)
    (it : iteration) (frame_count : Z) :
  appends (Screen.loop_body cv2_resize grid_width grid_height target_fps
             frame_delay it frame_count).
Proof.
  unfold Screen.loop_body. solve_appends.
Qed.

Lemma appends_video_loop_body (grid_width grid_height target_fps : Z)
    (frame_delay : float) (original_frames : Z) (it : iteration * Z)
    (frame_count : Z) :
  appends (Video.loop_body grid_width grid_height target_fps frame_delay
             original_frames it frame_count).
Proof.
  unfold Video.loop_body. destruct it as [it idx]. solve_appends.
Qed.
#[global] Hint Resolve appends_screen_loop_body appends_video_loop_body : appends.

(** ** A closed form of the screen sender's serialiser *)

Lemma corrected_frame_shape (cv2_resize : ndarray -> Z * Z -> outcome array)
    (frame_rgb : ndarray) (grid_width grid_height : Z) (frame_rgb' : ndarray) :
  fst (corrected_frame cv2_resize frame_rgb grid_width grid_height) = Some frame_rgb' ->
  shape frame_rgb' = (grid_height, grid_width, 3).
Proof.
  unfold corrected_frame. destruct (shape frame_rgb) as [[h w] c] eqn:Hs.
  destruct (mismatch (h, w, c) grid_width grid_height) eqn:Hm.
  - destruct (cv2_resize frame_rgb (grid_width, grid_height)) as [[f'|shp d]|e]; simpl.
    + destruct (mismatch (shape f') grid_width grid_height) eqn:Hm'; [discriminate|].
      intros [= <-]. apply mismatch_false_inv. exact Hm'.
    + discriminate.
    + discriminate.
  - simpl. intros [= <-]. rewrite Hs. apply mismatch_false_inv. exact Hm.
Qed.

Lemma screen_prepare_closed_form (cv2_resize : ndarray -> Z * Z -> outcome array)
    (frame_rgb : ndarray) (grid_width grid_height : Z) (tr : list event) :
  Screen.prepare_pixel_data_standard_zigzag cv2_resize frame_rgb grid_width grid_height tr
  = (Ok (zigzag_order ∘ data
           <$> fst (corrected_frame cv2_resize frame_rgb grid_width grid_height)),
     tr ++ snd (corrected_frame cv2_resize frame_rgb grid_width grid_height)).
Proof.
  pose proof (corrected_frame_shape cv2_resize frame_rgb grid_width grid_height) as Hshape.
  revert Hshape.
  unfold Screen.prepare_pixel_data_standard_zigzag, corrected_frame.
  destruct (shape frame_rgb) as [[h w] c] eqn:Hs.
  destruct (mismatch (h, w, c) grid_width grid_height) eqn:Hm.
  - unfold mbind, M_bind, mret, M_ret, try_except, print, emit, lift.
    destruct (cv2_resize frame_rgb (grid_width, grid_height)) as [[f'|shp d]|e]; simpl.
    + destruct (mismatch (shape f') grid_width grid_height) eqn:Hm'; simpl; intros Hshape.
      * rewrite <- !app_assoc. reflexivity.
      * rewrite (zigzag_loops_order _ _ _ (Hshape f' eq_refl)).
        rewrite <- !app_assoc. reflexivity.
    + intros _. rewrite <- !app_assoc. reflexivity.
    + intros _. rewrite <- !app_assoc. reflexivity.
  - unfold mbind, M_bind, mret, M_ret, lift. simpl. intros Hshape.
    rewrite (zigzag_loops_order _ _ _ (Hshape frame_rgb eq_refl)).
    rewrite app_nil_r. reflexivity.
Qed.

Lemma video_prepare_closed_form (frame_rgb : ndarray) (grid_width grid_height : Z)
    (tr : list event) :
  Video.prepare_pixel_data_standard_zigzag frame_rgb grid_width grid_height tr
  = if mismatch (shape frame_rgb) grid_width grid_height
    then (Ok None,
          tr ++ [EPrint stderr (MsgDimensionMismatch (snd (fst (shape frame_rgb)))
                                  (fst (fst (shape frame_rgb))) (snd (shape frame_rgb))
                                  grid_width grid_height)])
    else (Ok (Some (zigzag_order (data frame_rgb))), tr).
Proof.
  destruct (mismatch (shape frame_rgb) grid_width grid_height) eqn:Hm.
  - unfold Video.prepare_pixel_data_standard_zigzag.
    destruct (shape frame_rgb) as [[h w] c]. rewrite Hm. reflexivity.
  - apply video_prepare_matching. apply mismatch_false_inv. exact Hm.
Qed.

(** ** Determinism *)

(** C9. Each serialiser is a function of its arguments alone: the value it
    returns and the effects it adds are the same from every starting
    trace, [cv2.resize] being a function of its arguments. *)
Theorem prepare_deterministic
    (cv2_resize : ndarray -> Z * Z -> outcome array)
    (frame_rgb : ndarray) (grid_width grid_height : Z) :
  (exists (result : outcome (option (list byte))) (effects : list event),
      forall tr,
        Screen.prepare_pixel_data_standard_zigzag cv2_resize frame_rgb
          grid_width grid_height tr = (result, tr ++ effects))
  /\ (exists (result : outcome (option (list byte))) (effects : list event),
        forall tr,
          Video.prepare_pixel_data_standard_zigzag frame_rgb grid_width grid_height tr
          = (result, tr ++ effects)).
Proof.
  split.
  - eexists _, _. intros tr. apply appends_screen_prepare.
  - eexists _, _. intros tr. apply appends_video_prepare.
Qed.

(** ** The send stage *)

Ltac unfold_M :=
  unfold mbind, M_bind, mret, M_ret, try_except, print, time_sleep, emit, lift.

Ltac close_trace :=
  simpl; eexists; split; [rewrite <- ?app_assoc; simpl; reflexivity | reflexivity].

Lemma screen_send_stage_trace (grid_width grid_height target_fps : Z)
    (frame_delay : float) (it : iteration) (pixel_byte_list : list byte)
    (frame_count : Z) (tr : list event) :
  let packet_buffer := [START_BYTE_1; START_BYTE_2] ++ pixel_byte_list in
  let expected := 2 + grid_width * grid_height * 3 in
  exists rest : list event,
    snd (Screen.send_stage grid_width grid_height target_fps frame_delay it
           pixel_byte_list frame_count tr)
    = tr
      ++ (if negb (Z.of_nat (length packet_buffer) =? expected)
          then [EPrint stderr (MsgPacketLengthMismatch (frame_count + 1) expected
                                 (Z.of_nat (length packet_buffer)))]
          else [])
      ++ ESerWrite packet_buffer :: rest
    /\ forallb quiet rest = true.
Proof.
  intros packet_buffer expected.
  unfold Screen.send_stage, send_packet, frame_rate_control, py_mod.
  fold packet_buffer. fold expected. unfold_M.
  destruct (negb (Z.of_nat (length packet_buffer) =? expected));
    destruct (write_result it) as [n|[]];
    destruct (0 <? frame_delay - (frame_end_time it - frame_start_time it))%float;
    destruct (target_fps * 10 =? 0);
    try destruct ((frame_count + 1) mod (target_fps * 10) =? 0);
    close_trace.
Qed.

Lemma video_send_stage_trace (grid_width grid_height target_fps : Z)
    (frame_delay : float) (original_frames idx : Z) (it : iteration)
    (pixel_byte_list : list byte) (frame_count : Z) (tr : list event) :
  let packet_buffer := [START_BYTE_1; START_BYTE_2] ++ pixel_byte_list in
  let expected := 2 + grid_width * grid_height * 3 in
  exists rest : list event,
    snd (Video.send_stage grid_width grid_height target_fps frame_delay
           original_frames idx it pixel_byte_list frame_count tr)
    = tr
      ++ (if negb (Z.of_nat (length packet_buffer) =? expected)
          then [EPrint stderr (MsgPacketLengthMismatchAt (frame_count + 1) (idx - 1)
                                 expected (Z.of_nat (length packet_buffer)))]
          else [])
      ++ ESerWrite packet_buffer :: rest
    /\ forallb quiet rest = true.
Proof.
  intros packet_buffer expected.
  unfold Video.send_stage, send_packet, frame_rate_control, py_mod.
  fold packet_buffer. fold expected. unfold_M.
  destruct (negb (Z.of_nat (length packet_buffer) =? expected));
    destruct (write_result it) as [n|[]];
    destruct (0 <? frame_delay - (frame_end_time it - frame_start_time it))%float;
    destruct (target_fps * 10 =? 0);
    try destruct ((frame_count + 1) mod (target_fps * 10) =? 0);
    try destruct (0 <? original_frames);
    close_trace.
Qed.

(** A successful write ends the iteration with [Continue] and one more
    frame counted. *)
Lemma screen_send_stage_continues (grid_width grid_height target_fps : Z)
    (frame_delay : float) (it : iteration) (pixel_byte_list : list byte)
    (frame_count : Z) (tr : list event) (n : Z) :
  write_result it = Ok n -> target_fps <> 0 ->
  fst (Screen.send_stage grid_width grid_height target_fps frame_delay it
         pixel_byte_list frame_count tr)
  = Ok (Continue, frame_count + 1).
Proof.
  intros Hw Hfps.
  unfold Screen.send_stage, send_packet, frame_rate_control, py_mod.
  rewrite Hw. unfold_M.
  replace (target_fps * 10 =? 0) with false by (symmetry; apply Z.eqb_neq; lia).
  destruct (negb _);
    destruct (0 <? frame_delay - (frame_end_time it - frame_start_time it))%float;
    destruct ((frame_count + 1) mod (target_fps * 10) =? 0);
    reflexivity.
Qed.

Lemma video_send_stage_continues (grid_width grid_height target_fps : Z)
    (frame_delay : float) (original_frames idx : Z) (it : iteration)
    (pixel_byte_list : list byte) (frame_count : Z) (tr : list event) (n : Z) :
  write_result it = Ok n -> target_fps <> 0 ->
  fst (Video.send_stage grid_width grid_height target_fps frame_delay
         original_frames idx it pixel_byte_list frame_count tr)
  = Ok (Continue, frame_count + 1).
Proof.
  intros Hw Hfps.
  unfold Video.send_stage, send_packet, frame_rate_control, py_mod.
  rewrite Hw. unfold_M.
  replace (target_fps * 10 =? 0) with false by (symmetry; apply Z.eqb_neq; lia).
  destruct (negb _);
    destruct (0 <? frame_delay - (frame_end_time it - frame_start_time it))%float;
    destruct ((frame_count + 1) mod (target_fps * 10) =? 0);
    destruct (0 <? original_frames);
    reflexivity.
Qed.

(** ** The length of what is serialised *)

Lemma length_serialised (frame_rgb : ndarray) (grid_width grid_height : Z) :
  shape frame_rgb = (grid_height, grid_width, 3) ->
  Z.of_nat (length (zigzag_order (data frame_rgb))) = grid_width * grid_height * 3.
Proof.
  intros Hs.
  rewrite (length_zigzag_order _ (Z.to_nat grid_width))
    by exact (shape_uniform _ _ _ _ Hs).
  pose proof (shape_rows _ _ _ _ Hs). pose proof (shape_nonneg _ _ _ _ Hs). nia.
Qed.

Lemma screen_prepare_length (cv2_resize : ndarray -> Z * Z -> outcome array)
    (frame_rgb : ndarray) (grid_width grid_height : Z) (tr tr' : list event)
    (pixel_data : list byte) :
  Screen.prepare_pixel_data_standard_zigzag cv2_resize frame_rgb grid_width grid_height tr
  = (Ok (Some pixel_data), tr') ->
  Z.of_nat (length pixel_data) = grid_width * grid_height * 3.
Proof.
  rewrite screen_prepare_closed_form.
  pose proof (corrected_frame_shape cv2_resize frame_rgb grid_width grid_height) as Hshape.
  destruct (corrected_frame cv2_resize frame_rgb grid_width grid_height) as [[f'|] evs];
    simpl; [|discriminate].
  intros [= <- _]. apply length_serialised. apply Hshape. reflexivity.
Qed.

Lemma video_prepare_length (frame_rgb : ndarray) (grid_width grid_height : Z)
    (tr tr' : list event) (pixel_data : list byte) :
  Video.prepare_pixel_data_standard_zigzag frame_rgb grid_width grid_height tr
  = (Ok (Some pixel_data), tr') ->
  Z.of_nat (length pixel_data) = grid_width * grid_height * 3.
Proof.
  rewrite video_prepare_closed_form.
  destruct (mismatch (shape frame_rgb) grid_width grid_height) eqn:Hm; [discriminate|].
  intros [= <- _]. apply length_serialised. apply mismatch_false_inv. exact Hm.
Qed.

Lemma packet_length_agrees (pixel_byte_list : list byte) (grid_width grid_height : Z) :
  Z.of_nat (length pixel_byte_list) = grid_width * grid_height * 3 ->
  negb (Z.of_nat (length ([START_BYTE_1; START_BYTE_2] ++ pixel_byte_list))
        =? 2 + grid_width * grid_height * 3) = false.
Proof.
  intros Hlen. apply negb_false_iff, Z.eqb_eq. simpl length. lia.
Qed.

Lemma forallb_quiet_no_warning (evs : list event) :
  forallb quiet evs = true -> forallb (fun ev => negb (is_length_warning ev)) evs = true.
Proof.
  rewrite !forallb_forall. intros H ev Hin.
  specialize (H ev Hin). unfold quiet in H. apply andb_true_iff in H as [_ H]. exact H.
Qed.

Lemma screen_loop_body_no_warning (cv2_resize : ndarray -> Z * Z -> outcome array)
    (grid_width grid_height target_fps : Z) (frame_delay : float)
    (it : iteration) (frame_count : Z) (tr : list event) :
  exists new : list event,
    snd (Screen.loop_body cv2_resize grid_width grid_height target_fps frame_delay
           it frame_count tr) = tr ++ new
    /\ forallb (fun ev => negb (is_length_warning ev)) new = true.
Proof.
  unfold Screen.loop_body, mbind, M_bind.
  destruct (Screen.prepare_pixel_data_standard_zigzag cv2_resize (rgb_frame it)
              grid_width grid_height tr) as [[[out|]|e] tr1] eqn:Hprep.
  - pose proof (screen_prepare_length _ _ _ _ _ _ _ Hprep) as Hlen.
    rewrite screen_prepare_closed_form in Hprep.
    destruct (screen_send_stage_trace grid_width grid_height target_fps frame_delay
                it out frame_count tr1) as [rest [Htr Hq]].
    cbv zeta in Htr. rewrite (packet_length_agrees _ _ _ Hlen) in Htr.
    injection Hprep as _ <-.
    eexists. split; [rewrite Htr, <- app_assoc; reflexivity|].
    rewrite forallb_app. apply andb_true_iff. split.
    + unfold corrected_frame.
      destruct (shape (rgb_frame it)) as [[h w] c].
      destruct (mismatch (h, w, c) grid_width grid_height); [|reflexivity].
      destruct (cv2_resize (rgb_frame it) (grid_width, grid_height)) as [[f'|shp d]|e];
        reflexivity.
    + simpl. apply forallb_quiet_no_warning. exact Hq.
  - rewrite screen_prepare_closed_form in Hprep. injection Hprep as _ <-.
    unfold_M. simpl. eexists. split; [rewrite <- !app_assoc; reflexivity|].
    rewrite forallb_app. apply andb_true_iff. split; [|reflexivity].
    unfold corrected_frame.
    destruct (shape (rgb_frame it)) as [[h w] c].
    destruct (mismatch (h, w, c) grid_width grid_height); [|reflexivity].
    destruct (cv2_resize (rgb_frame it) (grid_width, grid_height)) as [[f'|shp d]|e];
        reflexivity.
  - rewrite screen_prepare_closed_form in Hprep. discriminate Hprep.
Qed.

Lemma video_loop_body_no_warning (grid_width grid_height target_fps : Z)
    (frame_delay : float) (original_frames idx : Z) (it : iteration)
    (frame_count : Z) (tr : list event) :
  exists new : list event,
    snd (Video.loop_body grid_width grid_height target_fps frame_delay
           original_frames (it, idx) frame_count tr) = tr ++ new
    /\ forallb (fun ev => negb (is_length_warning ev)) new = true.
Proof.
  unfold Video.loop_body, mbind, M_bind.
  rewrite video_prepare_closed_form.
  destruct (mismatch (shape (rgb_frame it)) grid_width grid_height) eqn:Hm.
  - unfold_M. simpl. eexists. split; [rewrite <- !app_assoc; reflexivity|reflexivity].
  - apply mismatch_false_inv in Hm.
    pose proof (length_serialised _ _ _ Hm) as Hlen.
    destruct (video_send_stage_trace grid_width grid_height target_fps frame_delay
                original_frames idx it (zigzag_order (data (rgb_frame it)))
                frame_count tr) as [rest [Htr Hq]].
    cbv zeta in Htr. rewrite (packet_length_agrees _ _ _ Hlen) in Htr.
    eexists. split; [exact Htr|].
    simpl. apply forallb_quiet_no_warning. exact Hq.
Qed.

(** C10. Whatever a serialiser returns other than [None] has exactly
    [grid_width * grid_height * 3] elements; consequently no iteration of
    either main loop prints the packet length warning. *)
Theorem serialised_length_exact
    (cv2_resize : ndarray -> Z * Z -> outcome array)
    (grid_width grid_height : Z) (it : iteration) :
  (forall (tr tr' : list event) (pixel_data : list byte),
      Screen.prepare_pixel_data_standard_zigzag cv2_resize (rgb_frame it)
        grid_width grid_height tr = (Ok (Some pixel_data), tr') ->
      Z.of_nat (length pixel_data) = grid_width * grid_height * 3)
  /\ (forall (tr tr' : list event) (pixel_data : list byte),
        Video.prepare_pixel_data_standard_zigzag (rgb_frame it)
          grid_width grid_height tr = (Ok (Some pixel_data), tr') ->
        Z.of_nat (length pixel_data) = grid_width * grid_height * 3)
  /\ (forall (target_fps : Z) (frame_delay : float) (frame_count : Z) (tr : list event),
        exists new : list event,
          snd (Screen.loop_body cv2_resize grid_width grid_height target_fps
                 frame_delay it frame_count tr) = tr ++ new
          /\ forallb (fun ev => negb (is_length_warning ev)) new = true)
  /\ (forall (target_fps : Z) (frame_delay : float) (original_frames idx : Z)
             (frame_count : Z) (tr : list event),
        exists new : list event,
          snd (Video.loop_body grid_width grid_height target_fps frame_delay
                 original_frames (it, idx) frame_count tr) = tr ++ new
          /\ forallb (fun ev => negb (is_length_warning ev)) new = true).
Proof.
  split; [|split; [|split]].
  - intros tr tr' pixel_data. apply screen_prepare_length.
  - intros tr tr' pixel_data. apply video_prepare_length.
  - intros. apply screen_loop_body_no_warning.
  - intros. apply video_loop_body_no_warning.
Qed.

Lemma serialised_length_exact_witness :
  Z.of_nat (length [x01; x02; x03; x04; x05; x06; x0a; x0b; x0c; x07; x08; x09])
  = 2 * 2 * 3.
Proof.
  exact (proj1 (serialised_length_exact resize_unchanged 2 2 iteration2x2)
           [] [] _ eq_refl).
Defined.

(** ** Framing *)

(** C4. When the serialiser returns a payload, the iteration writes one
    packet to the serial port: the two bytes 0xA5, 0x5A followed by that
    payload, [2 + 3 * grid_width * grid_height] bytes in all. This holds
    for every width and height, in particular for those at least 1. *)
Theorem packet_header_and_length
    (cv2_resize : ndarray -> Z * Z -> outcome array)
    (grid_width grid_height target_fps : Z) (frame_delay : float)
    (original_frames idx : Z) (it : iteration) (frame_count : Z)
    (tr tr1 : list event) (payload : list byte) :
  Screen.prepare_pixel_data_standard_zigzag cv2_resize (rgb_frame it)
    grid_width grid_height tr = (Ok (Some payload), tr1)
  \/ Video.prepare_pixel_data_standard_zigzag (rgb_frame it)
       grid_width grid_height tr = (Ok (Some payload), tr1) ->
  Strings.Byte.to_N START_BYTE_1 = 0xA5%N
  /\ Strings.Byte.to_N START_BYTE_2 = 0x5A%N
  /\ Z.of_nat (length (START_BYTE_1 :: START_BYTE_2 :: payload))
     = 2 + 3 * grid_width * grid_height
  /\ (Screen.prepare_pixel_data_standard_zigzag cv2_resize (rgb_frame it)
        grid_width grid_height tr = (Ok (Some payload), tr1) ->
      exists rest : list event,
        snd (Screen.loop_body cv2_resize grid_width grid_height target_fps
               frame_delay it frame_count tr)
        = tr1 ++ ESerWrite (START_BYTE_1 :: START_BYTE_2 :: payload) :: rest
        /\ forallb (fun ev => negb (is_write ev)) rest = true)
  /\ (Video.prepare_pixel_data_standard_zigzag (rgb_frame it)
        grid_width grid_height tr = (Ok (Some payload), tr1) ->
      exists rest : list event,
        snd (Video.loop_body grid_width grid_height target_fps frame_delay
               original_frames (it, idx) frame_count tr)
        = tr1 ++ ESerWrite (START_BYTE_1 :: START_BYTE_2 :: payload) :: rest
        /\ forallb (fun ev => negb (is_write ev)) rest = true).
Proof.
  intros Hprep.
  assert (Hlen : Z.of_nat (length payload) = grid_width * grid_height * 3).
  { destruct Hprep as [H|H].
    - exact (screen_prepare_length _ _ _ _ _ _ _ H).
    - exact (video_prepare_length _ _ _ _ _ _ H). }
  assert (Hquiet : forall rest, forallb quiet rest = true ->
                     forallb (fun ev => negb (is_write ev)) rest = true).
  { intros rest. rewrite !forallb_forall. intros H ev Hin.
    specialize (H ev Hin). unfold quiet in H.
    apply andb_true_iff in H as [H _]. exact H. }
  split; [reflexivity|]. split; [reflexivity|].
  split; [simpl length; lia|]. split.
  - intros H. unfold Screen.loop_body, mbind, M_bind. rewrite H.
    destruct (screen_send_stage_trace grid_width grid_height target_fps frame_delay
                it payload frame_count tr1) as [rest [Htr Hq]].
    cbv zeta in Htr. rewrite (packet_length_agrees _ _ _ Hlen) in Htr.
    exists rest. split; [exact Htr|]. apply Hquiet. exact Hq.
  - intros H. unfold Video.loop_body, mbind, M_bind. rewrite H.
    destruct (video_send_stage_trace grid_width grid_height target_fps frame_delay
                original_frames idx it payload frame_count tr1) as [rest [Htr Hq]].
    cbv zeta in Htr. rewrite (packet_length_agrees _ _ _ Hlen) in Htr.
    exists rest. split; [exact Htr|]. apply Hquiet. exact Hq.
Qed.

Lemma packet_header_and_length_witness :
  Screen.prepare_pixel_data_standard_zigzag resize_unchanged (rgb_frame iteration2x2)
    2 2 []
  = (Ok (Some [x01; x02; x03; x04; x05; x06; x0a; x0b; x0c; x07; x08; x09]), [])
  /\ Z.of_nat (length (START_BYTE_1 :: START_BYTE_2
                        :: [x01; x02; x03; x04; x05; x06; x0a; x0b; x0c; x07; x08; x09]))
     = 2 + 3 * 2 * 2.
Proof.
  split; [reflexivity|].
  exact (proj1 (proj2 (proj2
           (packet_header_and_length resize_unchanged 2 2 5 0x1.999999999999ap-3%float
              0 1 iteration2x2 0 [] [] _ (or_introl eq_refl))))).
Defined.

(** C6. When the length of the packet differs from
    [2 + 3 * grid_width * grid_height], the send stage prints the warning
    and then writes the packet all the same; when the write succeeds, the
    iteration ends with [Continue] and the frame is counted as sent. *)
Theorem length_anomaly_still_sent
    (grid_width grid_height target_fps : Z) (frame_delay : float)
    (original_frames idx : Z) (it : iteration) (pixel_byte_list : list byte)
    (frame_count : Z) (tr : list event) :
  Z.of_nat (length ([START_BYTE_1; START_BYTE_2] ++ pixel_byte_list))
  <> 2 + grid_width * grid_height * 3 ->
  (exists rest : list event,
      snd (Screen.send_stage grid_width grid_height target_fps frame_delay it
             pixel_byte_list frame_count tr)
      = tr ++ EPrint stderr
                (MsgPacketLengthMismatch (frame_count + 1)
                   (2 + grid_width * grid_height * 3)
                   (Z.of_nat (length ([START_BYTE_1; START_BYTE_2] ++ pixel_byte_list))))
              :: ESerWrite ([START_BYTE_1; START_BYTE_2] ++ pixel_byte_list)
              :: rest)
  /\ (exists rest : list event,
        snd (Video.send_stage grid_width grid_height target_fps frame_delay
               original_frames idx it pixel_byte_list frame_count tr)
        = tr ++ EPrint stderr
                  (MsgPacketLengthMismatchAt (frame_count + 1) (idx - 1)
                     (2 + grid_width * grid_height * 3)
                     (Z.of_nat (length ([START_BYTE_1; START_BYTE_2] ++ pixel_byte_list))))
                :: ESerWrite ([START_BYTE_1; START_BYTE_2] ++ pixel_byte_list)
                :: rest)
  /\ (forall n : Z,
        write_result it = Ok n -> target_fps <> 0 ->
        fst (Screen.send_stage grid_width grid_height target_fps frame_delay it
               pixel_byte_list frame_count tr) = Ok (Continue, frame_count + 1)
        /\ fst (Video.send_stage grid_width grid_height target_fps frame_delay
                  original_frames idx it pixel_byte_list frame_count tr)
           = Ok (Continue, frame_count + 1)).
Proof.
  intros Hne.
  assert (Hcond : negb (Z.of_nat (length ([START_BYTE_1; START_BYTE_2] ++ pixel_byte_list))
                        =? 2 + grid_width * grid_height * 3) = true).
  { apply negb_true_iff, Z.eqb_neq. exact Hne. }
  split; [|split].
  - destruct (screen_send_stage_trace grid_width grid_height target_fps frame_delay
                it pixel_byte_list frame_count tr) as [rest [Htr _]].
    cbv zeta in Htr. rewrite Hcond in Htr. exists rest. exact Htr.
  - destruct (video_send_stage_trace grid_width grid_height target_fps frame_delay
                original_frames idx it pixel_byte_list frame_count tr)
      as [rest [Htr _]].
    cbv zeta in Htr. rewrite Hcond in Htr. exists rest. exact Htr.
  - intros n Hw Hfps. split.
    + eapply screen_send_stage_continues; eassumption.
    + eapply video_send_stage_continues; eassumption.
Qed.

Lemma length_anomaly_still_sent_witness :
  Z.of_nat (length ([START_BYTE_1; START_BYTE_2] ++ [x01])) <> 2 + 2 * 2 * 3
  /\ exists rest : list event,
      snd (Screen.send_stage 2 2 5 0x1.999999999999ap-3%float iteration2x2 [x01] 0 [])
      = [] ++ EPrint stderr (MsgPacketLengthMismatch (0 + 1) (2 + 2 * 2 * 3)
                               (Z.of_nat (length ([START_BYTE_1; START_BYTE_2] ++ [x01]))))
             :: ESerWrite ([START_BYTE_1; START_BYTE_2] ++ [x01])
             :: rest.
Proof.
  assert (H : Z.of_nat (length ([START_BYTE_1; START_BYTE_2] ++ [x01])) <> 2 + 2 * 2 * 3)
    by discriminate.
  split; [exact H|].
  exact (proj1 (length_anomaly_still_sent 2 2 5 0x1.999999999999ap-3%float 0 1
                  iteration2x2 [x01] 0 [] H)).
Defined.

(** ** Frames of the wrong dimensions *)

Lemma corrected_frame_mismatch (cv2_resize : ndarray -> Z * Z -> outcome array)
    (frame_rgb : ndarray) (grid_width grid_height : Z) :
  mismatch (shape frame_rgb) grid_width grid_height = true ->
  corrected_frame cv2_resize frame_rgb grid_width grid_height
  = (match cv2_resize frame_rgb (grid_width, grid_height) with
     | Ok (Array3 frame_rgb') =>
         if mismatch (shape frame_rgb') grid_width grid_height
         then None else Some frame_rgb'
     | Ok (Array2 _ _) => None
     | Raise _ => None
     end,
     dimension_error (shape frame_rgb) grid_width grid_height
     :: ECv2Resize frame_rgb (grid_width, grid_height)
     :: resize_report (cv2_resize frame_rgb (grid_width, grid_height))).
Proof.
  intros Hm. unfold corrected_frame, dimension_error.
  destruct (shape frame_rgb) as [[h w] c]. rewrite Hm.
  destruct (cv2_resize frame_rgb (grid_width, grid_height)) as [[f'|shp d]|e];
    reflexivity.
Qed.

(** C7, as the code has it. On a frame whose dimensions mismatch the target
    grid, the serialiser of the screen sender prints the error line and
    calls [cv2.resize] once. When the call raises it prints the failure
    line; when it returns it prints the warning, and when what it returned
    has only two dimensions, as for a source of one channel, the unpacking
    of its shape raises and the failure line is printed after the warning.
    If the call raises, or the result has two dimensions, or it has three
    and still mismatches, the serialiser returns [None], and the iteration
    writes nothing, prints that the frame is skipped, sleeps 0.01 s and the
    loop goes on with the next iteration. The serialiser of the video
    sender makes no resize attempt: it returns [None] at once, and the
    iteration writes nothing, prints that the frame is skipped and the loop
    goes on with the next iteration. *)
Theorem mismatch_drops_frame
    (cv2_resize : ndarray -> Z * Z -> outcome array)
    (grid_width grid_height target_fps : Z) (frame_delay : float)
    (original_frames idx : Z) (it : iteration)
    (rest : list iteration) (vrest : list (iteration * Z))
    (frame_count : Z) (tr : list event) :
  mismatch (shape (rgb_frame it)) grid_width grid_height = true ->
  snd (Screen.prepare_pixel_data_standard_zigzag cv2_resize (rgb_frame it)
         grid_width grid_height tr)
  = tr ++ dimension_error (shape (rgb_frame it)) grid_width grid_height
          :: ECv2Resize (rgb_frame it) (grid_width, grid_height)
          :: resize_report (cv2_resize (rgb_frame it) (grid_width, grid_height))
  /\ (forall (shape2 : Z * Z) (data2 : list (list byte)),
        cv2_resize (rgb_frame it) (grid_width, grid_height) = Ok (Array2 shape2 data2) ->
        Screen.prepare_pixel_data_standard_zigzag cv2_resize (rgb_frame it)
          grid_width grid_height tr
        = (Ok None,
           tr ++ [dimension_error (shape (rgb_frame it)) grid_width grid_height;
                  ECv2Resize (rgb_frame it) (grid_width, grid_height);
                  EPrint stderr MsgResizedInside;
                  EPrint stderr (MsgResizeFailed ValueError)]))
  /\ ((forall frame_rgb',
         cv2_resize (rgb_frame it) (grid_width, grid_height) = Ok (Array3 frame_rgb') ->
         mismatch (shape frame_rgb') grid_width grid_height = true) ->
      let dropped :=
        tr ++ (dimension_error (shape (rgb_frame it)) grid_width grid_height
               :: ECv2Resize (rgb_frame it) (grid_width, grid_height)
               :: resize_report (cv2_resize (rgb_frame it) (grid_width, grid_height)))
           ++ [EPrint stdout (MsgSkippingFrame (frame_count + 1));
               ESleep 0x1.47ae147ae147bp-7%float] in
      fst (Screen.prepare_pixel_data_standard_zigzag cv2_resize (rgb_frame it)
             grid_width grid_height tr) = Ok None
      /\ Screen.loop_body cv2_resize grid_width grid_height target_fps frame_delay
           it frame_count tr = (Ok (Continue, frame_count), dropped)
      /\ Screen.main_loop cv2_resize grid_width grid_height target_fps frame_delay
           (it :: rest) frame_count tr
         = Screen.main_loop cv2_resize grid_width grid_height target_fps frame_delay
             rest frame_count dropped)
  /\ (let dropped :=
        tr ++ [dimension_error (shape (rgb_frame it)) grid_width grid_height;
               EPrint stdout (MsgSkippingSourceFrame (idx - 1))] in
      Video.prepare_pixel_data_standard_zigzag (rgb_frame it) grid_width grid_height tr
      = (Ok None, tr ++ [dimension_error (shape (rgb_frame it)) grid_width grid_height])
      /\ Video.loop_body grid_width grid_height target_fps frame_delay original_frames
           (it, idx) frame_count tr = (Ok (Continue, frame_count), dropped)
      /\ Video.main_loop grid_width grid_height target_fps frame_delay original_frames
           ((it, idx) :: vrest) frame_count tr
         = Video.main_loop grid_width grid_height target_fps frame_delay original_frames
             vrest frame_count dropped).
Proof.
  intros Hm.
  pose proof (corrected_frame_mismatch cv2_resize _ _ _ Hm) as Hcf.
  split; [|split; [|split]].
  - rewrite screen_prepare_closed_form, Hcf. reflexivity.
  - intros shape2 data2 Hr. rewrite screen_prepare_closed_form, Hcf, Hr. reflexivity.
  - intros Hstill dropped.
    assert (Hnone : fst (corrected_frame cv2_resize (rgb_frame it) grid_width grid_height)
                    = None).
    { rewrite Hcf. simpl.
      destruct (cv2_resize (rgb_frame it) (grid_width, grid_height))
        as [[f'|shp d]|e] eqn:Hr; [|reflexivity|reflexivity].
      rewrite (Hstill f' eq_refl). reflexivity. }
    assert (Hbody : Screen.loop_body cv2_resize grid_width grid_height target_fps
                      frame_delay it frame_count tr = (Ok (Continue, frame_count), dropped)).
    { unfold Screen.loop_body, mbind, M_bind.
      rewrite screen_prepare_closed_form, Hnone. rewrite Hcf. unfold_M. simpl.
      rewrite <- !app_assoc. reflexivity. }
    split; [|split].
    + rewrite screen_prepare_closed_form, Hnone. reflexivity.
    + exact Hbody.
    + cbn [Screen.main_loop]. unfold mbind at 1. unfold M_bind. rewrite Hbody. reflexivity.
  - intros dropped.
    assert (Hprep : Video.prepare_pixel_data_standard_zigzag (rgb_frame it)
                      grid_width grid_height tr
                    = (Ok None, tr ++ [dimension_error (shape (rgb_frame it))
                                         grid_width grid_height])).
    { rewrite video_prepare_closed_form, Hm. unfold dimension_error.
      destruct (shape (rgb_frame it)) as [[h w] c]. reflexivity. }
    assert (Hbody : Video.loop_body grid_width grid_height target_fps frame_delay
                      original_frames (it, idx) frame_count tr
                    = (Ok (Continue, frame_count), dropped)).
    { unfold Video.loop_body, mbind, M_bind. rewrite Hprep. unfold_M.
      rewrite <- !app_assoc. reflexivity. }
    split; [exact Hprep|]. split; [exact Hbody|].
    cbn [Video.main_loop]. unfold mbind at 1. unfold M_bind. rewrite Hbody. reflexivity.
Qed.

Lemma mismatch_drops_frame_witness :
  mismatch (shape (rgb_frame iteration1x1)) 2 2 = true
  /\ snd (Screen.prepare_pixel_data_standard_zigzag resize_unchanged
            (rgb_frame iteration1x1) 2 2 [])
     = [] ++ dimension_error (shape (rgb_frame iteration1x1)) 2 2
             :: ECv2Resize (rgb_frame iteration1x1) (2, 2)
             :: resize_report (resize_unchanged (rgb_frame iteration1x1) (2, 2))
  /\ mismatch (shape (rgb_frame iteration_gray)) 2 2 = true
  /\ Screen.prepare_pixel_data_standard_zigzag resize_drops_axis
       (rgb_frame iteration_gray) 2 2 []
     = (Ok None,
        [] ++ [dimension_error (shape (rgb_frame iteration_gray)) 2 2;
               ECv2Resize (rgb_frame iteration_gray) (2, 2);
               EPrint stderr MsgResizedInside;
               EPrint stderr (MsgResizeFailed ValueError)]).
Proof.
  split; [reflexivity|]. split; [|split; [reflexivity|]].
  - exact (proj1 (mismatch_drops_frame resize_unchanged 2 2 5 0x1.999999999999ap-3%float
                    0 1 iteration1x1 [] [] 0 [] eq_refl)).
  - exact (proj1 (proj2 (mismatch_drops_frame resize_drops_axis 2 2 5
                           0x1.999999999999ap-3%float 0 1 iteration_gray [] [] 0 []
                           eq_refl))
             (2, 2) [[x01; x02]; [x03; x04]] eq_refl).
Defined.

(** C7 as stated fails for the video sender. With a [cv2.resize] that
    would return a frame of the target dimensions, the screen sender's
    serialiser makes the attempt and serialises the resized frame, while the
    video sender's serialiser returns [None] with no resize attempted. *)
Lemma video_prepare_makes_no_resize_attempt :
  mismatch (shape grid1x1) 2 2 = true
  /\ Screen.prepare_pixel_data_standard_zigzag resize_to_grid2x2 grid1x1 2 2 []
     = (Ok (Some [x01; x02; x03; x04; x05; x06; x0a; x0b; x0c; x07; x08; x09]),
        [EPrint stderr (MsgDimensionMismatch 1 1 3 2 2);
         ECv2Resize grid1x1 (2, 2);
         EPrint stderr MsgResizedInside])
  /\ Video.prepare_pixel_data_standard_zigzag grid1x1 2 2 []
     = (Ok None, [EPrint stderr (MsgDimensionMismatch 1 1 3 2 2)])
  /\ existsb is_resize (snd (Video.prepare_pixel_data_standard_zigzag grid1x1 2 2 []))
     = false.
Proof.
  repeat split; reflexivity.
Qed.

(** ** Binary64 arithmetic

    Facts about [SpecFloat]'s rounding that the pacer and the frame-skip
    arithmetic rest on; [prec] is 53 and [emax] is 1024, so the least
    exponent is -1074. *)

Lemma digits2_pos_lower (m : positive) : 2 ^ (Z.pos (digits2_pos m) - 1) <= Z.pos m.
Proof.
  induction m as [m IH|m IH|]; simpl digits2_pos.
  - rewrite Pos2Z.inj_succ.
    replace (Z.succ (Z.pos (digits2_pos m)) - 1) with (Z.succ (Z.pos (digits2_pos m) - 1)) by lia.
    rewrite Z.pow_succ_r by lia. lia.
  - rewrite Pos2Z.inj_succ.
    replace (Z.succ (Z.pos (digits2_pos m)) - 1) with (Z.succ (Z.pos (digits2_pos m) - 1)) by lia.
    rewrite Z.pow_succ_r by lia. lia.
  - simpl. lia.
Qed.

Lemma digits2_pos_upper (m : positive) : Z.pos m < 2 ^ Z.pos (digits2_pos m).
Proof.
  induction m as [m IH|m IH|]; simpl digits2_pos.
  - rewrite Pos2Z.inj_succ, Z.pow_succ_r by lia. lia.
  - rewrite Pos2Z.inj_succ, Z.pow_succ_r by lia. lia.
  - simpl. lia.
Qed.

Lemma shr_1_lower (mrs : shr_record) (j : Z) :
  0 <= j -> 2 ^ (j + 1) <= shr_m mrs -> 2 ^ j <= shr_m (shr_1 mrs).
Proof.
  intros Hj. rewrite Z.pow_add_r, Z.pow_1_r by lia.
  assert (0 < 2 ^ j) by (apply Z.pow_pos_nonneg; lia).
  destruct mrs as [m r s]. simpl.
  destruct m as [|[p|p|]|[p|p|]]; simpl; lia.
Qed.

Lemma iter_pos_shr_1_lower (p : positive) :
  forall (mrs : shr_record) (j : Z),
    0 <= j -> 2 ^ (j + Z.pos p) <= shr_m mrs ->
    2 ^ j <= shr_m (SpecFloat.iter_pos shr_1 p mrs).
Proof.
  induction p as [p IH|p IH|]; intros mrs j Hj Hm; simpl.
  - apply IH; [lia|]. apply IH; [lia|]. apply shr_1_lower; [lia|].
    replace (j + Z.pos p + Z.pos p + 1) with (j + Z.pos p~1) by lia. exact Hm.
  - apply IH; [lia|]. apply IH; [lia|].
    replace (j + Z.pos p + Z.pos p) with (j + Z.pos p~0) by lia. exact Hm.
  - apply shr_1_lower; assumption.
Qed.

Lemma shr_m_record_of_loc (m : Z) (l : location) : shr_m (shr_record_of_loc m l) = m.
Proof. destruct l as [|[]]; reflexivity. Qed.

Lemma shr_fexp_positive (m : positive) (e : Z) (l : location) :
  -1074 <= e ->
  0 < shr_m (fst (shr_fexp prec emax (Z.pos m) e l))
  /\ -1074 <= snd (shr_fexp prec emax (Z.pos m) e l).
Proof.
  intros He. unfold shr_fexp, shr. simpl Zdigits2.
  change (fexp prec emax (Z.pos (digits2_pos m) + e))
    with (Z.max (Z.pos (digits2_pos m) + e - 53) (-1074)).
  destruct (Z.max (Z.pos (digits2_pos m) + e - 53) (-1074) - e) as [|n|n] eqn:Hn;
    simpl; rewrite ?shr_m_record_of_loc; try lia.
  split; [|lia].
  pose proof (digits2_pos_lower m) as Hlow.
  assert (H1 : 2 ^ 0 <= shr_m (SpecFloat.iter_pos shr_1 n (shr_record_of_loc (Z.pos m) l))).
  { apply iter_pos_shr_1_lower; [lia|]. rewrite shr_m_record_of_loc.
    eapply Z.le_trans; [|exact Hlow]. apply Z.pow_le_mono_r; lia. }
  simpl in H1. lia.
Qed.

Lemma round_nearest_even_ge (m : Z) (l : location) : m <= round_nearest_even m l.
Proof.
  destruct l as [|[]]; simpl; try lia. destruct (Z.even m); lia.
Qed.

(** Rounding a positive mantissa at an exponent above the least one never
    gives zero or NaN. *)
Lemma binary_round_aux_positive (sx : bool) (m : positive) (e : Z) (l : location) :
  -1074 <= e ->
  (exists m' e', binary_round_aux prec emax sx (Z.pos m) e l = S754_finite sx m' e')
  \/ binary_round_aux prec emax sx (Z.pos m) e l = S754_infinity sx.
Proof.
  intros He. unfold binary_round_aux.
  destruct (shr_fexp_positive m e l He) as [Hm1 He1].
  destruct (shr_fexp prec emax (Z.pos m) e l) as [mrs' e'] eqn:H1. simpl in Hm1, He1.
  pose proof (round_nearest_even_ge (shr_m mrs') (loc_of_shr_record mrs')) as Hr.
  destruct (round_nearest_even (shr_m mrs') (loc_of_shr_record mrs')) as [|m2|m2] eqn:Hm2;
    try lia.
  destruct (shr_fexp_positive m2 e' loc_Exact He1) as [Hm3 _].
  destruct (shr_fexp prec emax (Z.pos m2) e' loc_Exact) as [mrs'' e''] eqn:H2.
  simpl in Hm3.
  destruct (shr_m mrs'') as [|m3|m3]; try lia.
  destruct (e'' <=? emax - prec); [left; eauto|right; reflexivity].
Qed.

Lemma binary_round_positive (sx : bool) (m : positive) (e : Z) :
  -1074 <= e ->
  (exists m' e', binary_round prec emax sx m e = S754_finite sx m' e')
  \/ binary_round prec emax sx m e = S754_infinity sx.
Proof.
  intros He. unfold binary_round, shl_align.
  change (fexp prec emax (Z.pos (digits2_pos m) + e))
    with (Z.max (Z.pos (digits2_pos m) + e - 53) (-1074)).
  destruct (Z.max (Z.pos (digits2_pos m) + e - 53) (-1074) - e) eqn:Hd;
    apply binary_round_aux_positive; lia.
Qed.

Lemma bounded_facts (m : positive) (e : Z) :
  bounded prec emax m e = true ->
  -1074 <= e /\ Z.pos (digits2_pos m) <= 53
  /\ (Z.pos (digits2_pos m) = 53 \/ e = -1074).
Proof.
  unfold bounded, canonical_mantissa.
  change (fexp prec emax (Z.pos (digits2_pos m) + e))
    with (Z.max (Z.pos (digits2_pos m) + e - 53) (-1074)).
  intros H. apply andb_true_iff in H as [H _]. apply Z.eqb_eq in H. lia.
Qed.

Lemma shl_align_value (m : positive) (e ez : Z) :
  ez <= e -> Z.pos (fst (shl_align m e ez)) = Z.pos m * 2 ^ (e - ez).
Proof.
  intros Hle. unfold shl_align.
  destruct (ez - e) as [|d|d] eqn:Hd; simpl fst; try lia.
  - replace (e - ez) with 0 by lia. lia.
  - change (Pos.iter xO m d) with (shift_pos d m).
    rewrite shift_pos_correct. replace (e - ez) with (Z.pos d) by lia.
    change (Z.pow_pos 2 d) with (2 ^ Z.pos d). lia.
Qed.

(** Comparing two valid finite magnitudes is comparing their mantissas
    once aligned on the smaller exponent. *)
Lemma aligned_compare (mx my : positive) (ex ey : Z) :
  bounded prec emax mx ex = true -> bounded prec emax my ey = true ->
  match ex ?= ey with
  | Lt => Lt
  | Gt => Gt
  | Eq => Pos.compare_cont Eq mx my
  end
  = (Z.pos (fst (shl_align mx ex (Z.min ex ey)))
     ?= Z.pos (fst (shl_align my ey (Z.min ex ey)))).
Proof.
  intros Hx Hy.
  destruct (bounded_facts _ _ Hx) as (Hex & Hdx & Hnx).
  destruct (bounded_facts _ _ Hy) as (Hey & Hdy & Hny).
  pose proof (digits2_pos_lower mx) as Hlx. pose proof (digits2_pos_upper mx) as Hux.
  pose proof (digits2_pos_lower my) as Hly. pose proof (digits2_pos_upper my) as Huy.
  assert (Hu53 : forall d, d <= 53 -> 2 ^ d <= 2 ^ 53)
    by (intros d Hd; apply Z.pow_le_mono_r; lia).
  rewrite !shl_align_value by lia.
  destruct (Z.compare_spec ex ey) as [Heq|Hlt|Hgt].
  - subst ey. rewrite Z.min_id, Z.sub_diag, Z.pow_0_r, !Z.mul_1_r. reflexivity.
  - rewrite Z.min_l by lia. rewrite Z.sub_diag, Z.pow_0_r, Z.mul_1_r.
    symmetry. apply Z.compare_lt_iff.
    destruct Hny as [Hny|Hny]; [|lia]. rewrite Hny in Hly. simpl in Hly.
    assert (2 ^ 1 <= 2 ^ (ey - ex)) by (apply Z.pow_le_mono_r; lia).
    specialize (Hu53 _ Hdx). change (2 ^ 53) with 9007199254740992 in Hu53.
    change (2 ^ 1) with 2 in H. change (2 ^ 52) with 4503599627370496 in Hly. nia.
  - rewrite Z.min_r by lia. rewrite Z.sub_diag, Z.pow_0_r, Z.mul_1_r.
    symmetry. apply Z.compare_gt_iff.
    destruct Hnx as [Hnx|Hnx]; [|lia]. rewrite Hnx in Hlx. simpl in Hlx.
    assert (2 ^ 1 <= 2 ^ (ex - ey)) by (apply Z.pow_le_mono_r; lia).
    specialize (Hu53 _ Hdy). change (2 ^ 53) with 9007199254740992 in Hu53.
    change (2 ^ 1) with 2 in H. change (2 ^ 52) with 4503599627370496 in Hly. nia.
Qed.

Lemma binary_round_aux_signed (sx : bool) (m e : Z) (l : location) :
  sf_signed sx (binary_round_aux prec emax sx m e l).
Proof.
  unfold binary_round_aux.
  destruct (shr_fexp prec emax m e l) as [mrs' e'].
  destruct (shr_fexp prec emax _ e' loc_Exact) as [mrs'' e''].
  destruct (shr_m mrs''); [|destruct (e'' <=? emax - prec)|]; simpl; auto.
Qed.

Lemma binary_round_signed (sx : bool) (m : positive) (e : Z) :
  sf_signed sx (binary_round prec emax sx m e).
Proof.
  unfold binary_round. destruct (shl_align _ _ _) as [mz ez].
  apply binary_round_aux_signed.
Qed.

(** The sign of a normalised aligned difference. *)
Lemma binary_normalize_sign (d e : Z) :
  -1074 <= e ->
  SFltb (S754_zero false) (binary_normalize prec emax d e false) = (0 <? d).
Proof.
  intros He. destruct d as [|p|p]; simpl binary_normalize.
  - reflexivity.
  - destruct (binary_round_positive false p e He) as [(m' & e' & ->)| ->]; reflexivity.
  - pose proof (binary_round_signed true p e) as Hs.
    destruct (binary_round prec emax true p e) as [s|s| |s m' e'];
      simpl in Hs; try subst s; reflexivity.
Qed.

Lemma SFcompare_finite (sx sy : bool) (mx my : positive) (ex ey : Z) :
  bounded prec emax mx ex = true -> bounded prec emax my ey = true ->
  SFcompare (S754_finite sx mx ex) (S754_finite sy my ey)
  = Some (cond_Zopp sx (Z.pos (fst (shl_align mx ex (Z.min ex ey))))
          ?= cond_Zopp sy (Z.pos (fst (shl_align my ey (Z.min ex ey))))).
Proof.
  intros Hx Hy. pose proof (aligned_compare mx my ex ey Hx Hy) as Hxy.
  unfold SFcompare.
  set (X := Z.pos (fst (shl_align mx ex (Z.min ex ey)))) in *.
  set (Y := Z.pos (fst (shl_align my ey (Z.min ex ey)))) in *.
  assert (0 < X) by (unfold X; lia). assert (0 < Y) by (unfold Y; lia).
  destruct sx, sy; unfold cond_Zopp; try reflexivity; f_equal.
  - rewrite Z.compare_opp, (Z.compare_antisym X Y), <- Hxy.
    destruct (ex ?= ey); reflexivity.
  - exact Hxy.
Qed.

Lemma SFsub_sign (x y : spec_float) :
  valid_binary x = true -> valid_binary y = true ->
  (SFltb y x = true -> SFltb (S754_zero false) (SF64sub x y) = true)
  /\ (SFleb x y = true -> SFltb (S754_zero false) (SF64sub x y) = false).
Proof.
  intros Hx Hy.
  destruct x as [sx|sx| |sx mx ex], y as [sy|sy| |sy my ey];
    try (split; [try destruct sx; try destruct sy; simpl; intros H;
                  first [discriminate H | reflexivity]..]).
  simpl in Hx, Hy.
  destruct (bounded_facts _ _ Hx) as (Hex & _). destruct (bounded_facts _ _ Hy) as (Hey & _).
  unfold SF64sub, SFsub. rewrite binary_normalize_sign by lia.
  unfold SFltb, SFleb.
  rewrite (SFcompare_finite sy sx my mx ey ex Hy Hx), (SFcompare_finite sx sy mx my ex ey Hx Hy).
  rewrite (Z.min_comm ey ex).
  set (X := cond_Zopp sx (Z.pos (fst (shl_align mx ex (Z.min ex ey))))).
  set (Y := cond_Zopp sy (Z.pos (fst (shl_align my ey (Z.min ex ey))))).
  split.
  - destruct (Z.compare_spec Y X); try discriminate. intros _. apply Z.ltb_lt. lia.
  - destruct (Z.compare_spec X Y); try discriminate; intros _; apply Z.ltb_ge; lia.
Qed.

Lemma float_sub_sign (x y : float) :
  ((y <? x)%float = true -> (0 <? x - y)%float = true)
  /\ ((x <=? y)%float = true -> (0 <? x - y)%float = false).
Proof.
  rewrite !ltb_spec, leb_spec, sub_spec.
  change (Prim2SF 0%float) with (S754_zero false).
  apply SFsub_sign; apply Prim2SF_valid.
Qed.

Lemma binary_normalize_nonneg (n : Z) :
  0 <= n -> sf_signed false (binary_normalize prec emax n 0 false).
Proof.
  intros Hn. destruct n as [|p|p]; simpl; [reflexivity| |lia].
  apply binary_round_signed.
Qed.

Lemma SFldexp_signed (sx : bool) (f : spec_float) (e : Z) :
  sf_signed sx f -> sf_signed sx (SFldexp prec emax f e).
Proof.
  destruct f as [s|s| |s m e']; simpl; intros H; try exact H.
  subst s. apply binary_round_signed.
Qed.

Lemma SF2Prim_nonneg (f : spec_float) :
  sf_signed false f -> sf_signed false (Prim2SF (SF2Prim f)).
Proof.
  destruct f as [s|s| |s m e]; simpl; intros H; try subst s; try reflexivity.
  rewrite Z_ldexp_spec. apply SFldexp_signed.
  rewrite of_uint63_spec. apply binary_normalize_nonneg.
  apply Uint63.to_Z_bounded.
Qed.

Lemma float_of_int_nonneg (n : Z) (b : float) :
  0 <= n -> float_of_int n = Ok b -> sf_signed false (Prim2SF b).
Proof.
  intros Hn. unfold float_of_int.
  destruct (is_infinity _); [discriminate|].
  intros [= <-]. apply SF2Prim_nonneg, binary_normalize_nonneg. exact Hn.
Qed.

Lemma round_half_even_nonneg (m : positive) (e : Z) : 0 <= round_half_even m e.
Proof.
  unfold round_half_even. destruct (0 <=? e) eqn:He.
  - apply Z.leb_le in He. apply Z.mul_nonneg_nonneg; [lia|]. apply Z.pow_nonneg. lia.
  - assert (0 < 2 ^ (- e)) by (apply Z.pow_pos_nonneg; lia).
    assert (0 <= Z.pos m / 2 ^ (- e)) by (apply Z.div_pos; lia).
    destruct (_ ?= _); [destruct (Z.even _)| |]; lia.
Qed.

(** Rounding a quotient of a non-positive by a non-negative float. *)
Lemma py_round_nonpos_quotient (x b : float) (r : Z) :
  (x <=? 0)%float = true -> sf_signed false (Prim2SF b) ->
  py_round (x / b)%float = Ok r -> r <= 0.
Proof.
  rewrite leb_spec. unfold py_round. rewrite div_spec.
  change (Prim2SF 0%float) with (S754_zero false).
  unfold SF64div, SFdiv.
  destruct (Prim2SF x) as [sx|sx| |sx mx ex], (Prim2SF b) as [sb|sb| |sb mb eb];
    simpl; try discriminate; intros Hx Hb; try subst sb;
    try (intros [= <-]; lia).
  all: destruct sx; try discriminate Hx.
  destruct (SFdiv_core_binary prec emax (Z.pos mx) ex (Z.pos mb) eb) as [[mz ez] lz].
  pose proof (binary_round_aux_signed true mz ez lz) as Hs.
  change (xorb true false) with true.
  destruct (binary_round_aux prec emax true mz ez lz) as [s|s| |s m e];
    simpl in Hs; try subst s; try discriminate; intros [= <-]; [lia|].
  simpl. pose proof (round_half_even_nonneg m e). lia.
Qed.

Lemma frames_to_skip_positive_fps (original_fps : float) (target_fps : Z) (tr : list event) :
  (original_fps <=? 0)%float = false ->
  Video.frames_to_skip original_fps target_fps tr
  = (skip_formula original_fps target_fps, tr).
Proof.
  intros Hpos. unfold Video.frames_to_skip, skip_formula. rewrite Hpos.
  unfold mbind, M_bind, mret, M_ret, lift.
  destruct (float_truediv_int original_fps target_fps) as [q|e]; [|reflexivity].
  destruct (py_round q); reflexivity.
Qed.

Lemma frames_to_skip_default (original_fps : float) (target_fps : Z) (tr : list event) :
  (original_fps <=? 0)%float = true ->
  Video.frames_to_skip original_fps target_fps tr
  = (Ok 1, tr ++ [EPrint stderr MsgNoValidFps]).
Proof.
  intros Hle. unfold Video.frames_to_skip. rewrite Hle. reflexivity.
Qed.

Lemma skip_formula_nonpos_fps (original_fps : float) (target_fps v : Z) :
  0 < target_fps -> (original_fps <=? 0)%float = true ->
  skip_formula original_fps target_fps = Ok v -> v = 1.
Proof.
  intros Ht Hle. unfold skip_formula, float_truediv_int.
  destruct (float_of_int target_fps) as [b|e] eqn:Hb; [|discriminate].
  apply float_of_int_nonneg in Hb; [|lia].
  destruct (b =? 0)%float; [discriminate|].
  destruct (py_round (original_fps / b)%float) as [r|e] eqn:Hr; [|discriminate].
  apply py_round_nonpos_quotient in Hr; [|assumption..].
  intros [= <-]. lia.
Qed.

(** C5. For a target rate above zero, the skip count the video sender
    computes is [max(1, round(F_native / F_target))] whenever that formula
    has a value, and it is 1, after a warning, whenever the native rate is
    not positive; a returned count is at least 1. A native rate of 30 with a
    target of 5 gives 6, a native rate of 0 gives 1, and 24 with 24 gives
    1. *)
Theorem frames_to_skip_formula (original_fps : float) (target_fps : Z) (tr : list event) :
  0 < target_fps ->
  (forall v : Z,
      skip_formula original_fps target_fps = Ok v ->
      fst (Video.frames_to_skip original_fps target_fps tr) = Ok v)
  /\ ((original_fps <=? 0)%float = true ->
      Video.frames_to_skip original_fps target_fps tr
      = (Ok 1, tr ++ [EPrint stderr MsgNoValidFps]))
  /\ ((original_fps <=? 0)%float = false ->
      Video.frames_to_skip original_fps target_fps tr
      = (skip_formula original_fps target_fps, tr))
  /\ (forall v : Z,
        fst (Video.frames_to_skip original_fps target_fps tr) = Ok v -> 1 <= v)
  /\ fst (Video.frames_to_skip 30 5 tr) = Ok 6
  /\ skip_formula 30 5 = Ok 6
  /\ fst (Video.frames_to_skip 0 target_fps tr) = Ok 1
  /\ fst (Video.frames_to_skip 24 24 tr) = Ok 1
  /\ skip_formula 24 24 = Ok 1.
Proof.
  intros Ht. split; [|split; [|split; [|split]]].
  - intros v Hv. destruct (original_fps <=? 0)%float eqn:Hle.
    + rewrite (frames_to_skip_default _ _ _ Hle). simpl.
      rewrite (skip_formula_nonpos_fps _ _ _ Ht Hle Hv). reflexivity.
    + rewrite (frames_to_skip_positive_fps _ _ _ Hle). exact Hv.
  - apply frames_to_skip_default.
  - apply frames_to_skip_positive_fps.
  - intros v. destruct (original_fps <=? 0)%float eqn:Hle.
    + rewrite (frames_to_skip_default _ _ _ Hle). simpl. intros [= <-]. lia.
    + rewrite (frames_to_skip_positive_fps _ _ _ Hle). simpl.
      unfold skip_formula.
      destruct (float_truediv_int original_fps target_fps) as [q|e]; [|discriminate].
      destruct (py_round q) as [r|e]; [|discriminate].
      intros [= <-]. lia.
  - repeat split; reflexivity.
Qed.

(** A native rate of 29.97 frames per second with a target of 5. *)
Lemma frames_to_skip_formula_witness :
  0 < 5
  /\ Video.frames_to_skip 0x1.df851eb851eb8p+4%float 5 []
     = (skip_formula 0x1.df851eb851eb8p+4%float 5, [])
  /\ skip_formula 0x1.df851eb851eb8p+4%float 5 = Ok 6.
Proof.
  assert (H : 0 < 5) by reflexivity.
  split; [exact H|]. split; [|reflexivity].
  exact (proj1 (proj2 (proj2
           (frames_to_skip_formula 0x1.df851eb851eb8p+4%float 5 [] H))) eq_refl).
Defined.

(** ** The pacer *)

Lemma slept_app (a b : list event) : slept (a ++ b) = slept a ++ slept b.
Proof. apply omap_app. Qed.

Lemma frame_rate_control_remainder (frame_delay start_time end_time : float)
    (tr : list event) :
  (end_time - start_time <? frame_delay)%float = true ->
  frame_rate_control frame_delay start_time end_time tr
  = (Ok tt, tr ++ [ESleep (frame_delay - (end_time - start_time))%float]).
Proof.
  intros Hlt. unfold frame_rate_control.
  rewrite (proj1 (float_sub_sign _ _) Hlt). reflexivity.
Qed.

Lemma frame_rate_control_late (frame_delay start_time end_time : float)
    (tr : list event) :
  (frame_delay <=? end_time - start_time)%float = true ->
  frame_rate_control frame_delay start_time end_time tr = (Ok tt, tr).
Proof.
  intros Hle. unfold frame_rate_control.
  rewrite (proj2 (float_sub_sign _ _) Hle). reflexivity.
Qed.

Lemma screen_send_stage_served (grid_width grid_height target_fps : Z)
    (frame_delay : float) (it : iteration) (pixel_byte_list : list byte)
    (frame_count : Z) (tr : list event) (n : Z) :
  write_result it = Ok n -> target_fps <> 0 ->
  Z.of_nat (length pixel_byte_list) = grid_width * grid_height * 3 ->
  exists new : list event,
    Screen.send_stage grid_width grid_height target_fps frame_delay it
      pixel_byte_list frame_count tr = (Ok (Continue, frame_count + 1), tr ++ new)
    /\ slept new = own_sleep frame_delay it.
Proof.
  intros Hw Hfps Hlen.
  unfold Screen.send_stage, own_sleep.
  rewrite (packet_length_agrees _ _ _ Hlen).
  unfold send_packet, frame_rate_control, py_mod.
  rewrite Hw. unfold_M.
  replace (target_fps * 10 =? 0) with false by (symmetry; apply Z.eqb_neq; lia).
  destruct (0 <? frame_delay - (frame_end_time it - frame_start_time it))%float;
    destruct ((frame_count + 1) mod (target_fps * 10) =? 0);
    simpl; eexists; (split; [rewrite <- ?app_assoc; simpl; reflexivity|reflexivity]).
Qed.

Lemma video_send_stage_served (grid_width grid_height target_fps : Z)
    (frame_delay : float) (original_frames idx : Z) (it : iteration)
    (pixel_byte_list : list byte) (frame_count : Z) (tr : list event) (n : Z) :
  write_result it = Ok n -> target_fps <> 0 ->
  Z.of_nat (length pixel_byte_list) = grid_width * grid_height * 3 ->
  exists new : list event,
    Video.send_stage grid_width grid_height target_fps frame_delay original_frames idx
      it pixel_byte_list frame_count tr = (Ok (Continue, frame_count + 1), tr ++ new)
    /\ slept new = own_sleep frame_delay it.
Proof.
  intros Hw Hfps Hlen.
  unfold Video.send_stage, own_sleep.
  rewrite (packet_length_agrees _ _ _ Hlen).
  unfold send_packet, frame_rate_control, py_mod.
  rewrite Hw. unfold_M.
  replace (target_fps * 10 =? 0) with false by (symmetry; apply Z.eqb_neq; lia).
  destruct (0 <? frame_delay - (frame_end_time it - frame_start_time it))%float;
    destruct ((frame_count + 1) mod (target_fps * 10) =? 0);
    destruct (0 <? original_frames);
    simpl; eexists; (split; [rewrite <- ?app_assoc; simpl; reflexivity|reflexivity]).
Qed.

Lemma screen_main_loop_slept (cv2_resize : ndarray -> Z * Z -> outcome array)
    (grid_width grid_height target_fps : Z) (frame_delay : float)
    (its : list iteration) :
  target_fps <> 0 -> Forall (served grid_width grid_height) its ->
  forall (frame_count : Z) (tr : list event),
    slept (snd (Screen.main_loop cv2_resize grid_width grid_height target_fps
                  frame_delay its frame_count tr))
    = slept tr ++ concat (own_sleep frame_delay <$> its).
Proof.
  intros Hfps Hall. induction Hall as [|it its [Hs [n Hw]] _ IH]; intros frame_count tr.
  - simpl. rewrite app_nil_r. reflexivity.
  - cbn [Screen.main_loop]. unfold mbind at 1. unfold M_bind.
    unfold Screen.loop_body. unfold mbind at 1. unfold M_bind.
    rewrite (screen_prepare_matching _ _ _ _ _ Hs).
    destruct (screen_send_stage_served grid_width grid_height target_fps frame_delay it
                (zigzag_order (data (rgb_frame it))) frame_count tr n Hw Hfps
                (length_serialised _ _ _ Hs)) as [new [-> Hnew]].
    rewrite IH, slept_app, Hnew, <- app_assoc. reflexivity.
Qed.

Lemma video_main_loop_slept (grid_width grid_height target_fps : Z)
    (frame_delay : float) (original_frames : Z) (its : list (iteration * Z)) :
  target_fps <> 0 -> Forall (served grid_width grid_height) (fst <$> its) ->
  forall (frame_count : Z) (tr : list event),
    slept (snd (Video.main_loop grid_width grid_height target_fps frame_delay
                  original_frames its frame_count tr))
    = slept tr ++ concat (own_sleep frame_delay <$> (fst <$> its)).
Proof.
  intros Hfps. induction its as [|[it idx] its IH]; intros Hall frame_count tr.
  - simpl. rewrite app_nil_r. reflexivity.
  - apply Forall_cons in Hall as [[Hs [n Hw]] Hall]. simpl in Hs, Hw.
    cbn [Video.main_loop]. unfold mbind at 1. unfold M_bind.
    unfold Video.loop_body. unfold mbind at 1. unfold M_bind.
    rewrite (video_prepare_matching _ _ _ _ Hs).
    destruct (video_send_stage_served grid_width grid_height target_fps frame_delay
                original_frames idx it
                (zigzag_order (data (rgb_frame it))) frame_count tr n Hw Hfps
                (length_serialised _ _ _ Hs)) as [new [-> Hnew]].
    rewrite (IH Hall), slept_app, Hnew, <- app_assoc. reflexivity.
Qed.

(** C8. With [p] the processing time of an iteration, measured from that
    iteration's own start, the pacer sleeps exactly [frame_delay - p] when
    [p < frame_delay] and does not sleep when [frame_delay <= p]. Over a
    run of served iterations each one contributes its own sleep and nothing
    else: lateness is not carried over. At 5 frames per second the delay is
    0.2 s; an iteration of 50 ms sleeps 0.15000000000000002 s, one of
    250 ms does not sleep, and the 50 ms iteration that follows a 250 ms
    one still sleeps its own remainder. *)
Theorem pacer_sleeps_remainder
    (cv2_resize : ndarray -> Z * Z -> outcome array)
    (grid_width grid_height target_fps : Z) (frame_delay : float)
    (original_frames : Z) (it : iteration)
    (its : list iteration) (vits : list (iteration * Z))
    (frame_count : Z) (tr : list event) :
  let p := (frame_end_time it - frame_start_time it)%float in
  ((p <? frame_delay)%float = true ->
   frame_rate_control frame_delay (frame_start_time it) (frame_end_time it) tr
   = (Ok tt, tr ++ [ESleep (frame_delay - p)%float])
   /\ own_sleep frame_delay it = [(frame_delay - p)%float])
  /\ ((frame_delay <=? p)%float = true ->
      frame_rate_control frame_delay (frame_start_time it) (frame_end_time it) tr
      = (Ok tt, tr)
      /\ own_sleep frame_delay it = [])
  /\ (target_fps <> 0 -> Forall (served grid_width grid_height) its ->
      slept (snd (Screen.main_loop cv2_resize grid_width grid_height target_fps
                    frame_delay its frame_count tr))
      = slept tr ++ concat (own_sleep frame_delay <$> its))
  /\ (target_fps <> 0 -> Forall (served grid_width grid_height) (fst <$> vits) ->
      slept (snd (Video.main_loop grid_width grid_height target_fps frame_delay
                    original_frames vits frame_count tr))
      = slept tr ++ concat (own_sleep frame_delay <$> (fst <$> vits)))
  /\ float_truediv_int 1%float 5 = Ok delay_200ms
  /\ frame_rate_control delay_200ms 0%float 0x1.999999999999ap-5%float []
     = (Ok tt, [ESleep 0x1.3333333333334p-3%float])
  /\ frame_rate_control delay_200ms 0%float 0x1p-2%float [] = (Ok tt, [])
  /\ slept (snd (Screen.main cv2_resize 2 2 [iteration_late; iteration_fast] []))
     = [0x1.333333333331ap-3%float].
Proof.
  intros p. split; [|split; [|split; [|split]]].
  - intros Hlt. split.
    + apply frame_rate_control_remainder. exact Hlt.
    + unfold own_sleep. rewrite (frame_rate_control_remainder _ _ _ [] Hlt). reflexivity.
  - intros Hle. split.
    + apply frame_rate_control_late. exact Hle.
    + unfold own_sleep. rewrite (frame_rate_control_late _ _ _ [] Hle). reflexivity.
  - intros Hfps Hall. apply screen_main_loop_slept; assumption.
  - intros Hfps Hall. apply video_main_loop_slept; assumption.
  - repeat split; reflexivity.
Qed.

Lemma pacer_sleeps_remainder_witness :
  (frame_end_time iteration_fast - frame_start_time iteration_fast <? delay_200ms)%float
  = true
  /\ own_sleep delay_200ms iteration_fast
     = [(delay_200ms
         - (frame_end_time iteration_fast - frame_start_time iteration_fast))%float].
Proof.
  split; [reflexivity|].
  exact (proj2 (proj1 (pacer_sleeps_remainder resize_unchanged 2 2 5 delay_200ms 0
                         iteration_fast [] [] 0 []) eq_refl)).
Defined.

(** * Further properties of the serialisers and the loops *)

(** ** Failure of the serialisers *)

(** X1. Neither serialiser raises: the screen sender's catches what
    [cv2.resize] raises, and what the unpacking of a two-dimensional
    result raises. The video sender's returns a payload exactly when the
    frame has the target dimensions and three channels; the screen
    sender's also when the resized frame has three dimensions, the target
    height and width and three channels. *)
Theorem prepare_returns_or_none
    (cv2_resize : ndarray -> Z * Z -> outcome array)
    (frame_rgb : ndarray) (grid_width grid_height : Z) (tr : list event) :
  (exists r : option (list byte),
      fst (Screen.prepare_pixel_data_standard_zigzag cv2_resize frame_rgb
             grid_width grid_height tr) = Ok r
      /\ (is_Some r <->
          mismatch (shape frame_rgb) grid_width grid_height = false
          \/ exists frame_rgb',
              cv2_resize frame_rgb (grid_width, grid_height) = Ok (Array3 frame_rgb')
              /\ mismatch (shape frame_rgb') grid_width grid_height = false))
  /\ (exists r : option (list byte),
        fst (Video.prepare_pixel_data_standard_zigzag frame_rgb
               grid_width grid_height tr) = Ok r
        /\ (is_Some r <-> mismatch (shape frame_rgb) grid_width grid_height = false)).
Proof.
  split.
  - rewrite screen_prepare_closed_form. eexists. split; [reflexivity|].
    unfold corrected_frame. destruct (shape frame_rgb) as [[h w] c].
    destruct (mismatch (h, w, c) grid_width grid_height) eqn:Hm; simpl.
    + destruct (cv2_resize frame_rgb (grid_width, grid_height))
        as [[f'|shp d]|e] eqn:Hr; simpl.
      * destruct (mismatch (shape f') grid_width grid_height) eqn:Hm'; simpl.
        -- split; [intros [x Hx]; discriminate Hx|].
           intros [H|(f'' & [= <-] & H)]; congruence.
        -- split; [|intros _; eexists; reflexivity].
           intros _. right. exists f'. split; [reflexivity|exact Hm'].
      * split; [intros [x Hx]; discriminate Hx|].
        intros [H|(f'' & H & _)]; discriminate H.
      * split; [intros [x Hx]; discriminate Hx|].
        intros [H|(f'' & H & _)]; discriminate H.
    + split; [intros _; left; reflexivity|intros _; eexists; reflexivity].
  - rewrite video_prepare_closed_form.
    destruct (mismatch (shape frame_rgb) grid_width grid_height); simpl;
      eexists; (split; [reflexivity|]).
    + split; [intros [x Hx]; discriminate Hx|discriminate].
    + split; [reflexivity|intros _; eexists; reflexivity].
Qed.

(** X2. When the frame mismatches and [cv2.resize] returns a frame of the
    target dimensions, the screen sender's serialiser returns what it
    returns for the resized frame itself, after the error line, the resize
    and the warning. *)
Theorem screen_prepare_serialises_resized
    (cv2_resize : ndarray -> Z * Z -> outcome array)
    (frame_rgb frame_rgb' : ndarray) (grid_width grid_height : Z) (tr : list event) :
  mismatch (shape frame_rgb) grid_width grid_height = true ->
  cv2_resize frame_rgb (grid_width, grid_height) = Ok (Array3 frame_rgb') ->
  mismatch (shape frame_rgb') grid_width grid_height = false ->
  fst (Screen.prepare_pixel_data_standard_zigzag cv2_resize frame_rgb
         grid_width grid_height tr)
  = fst (Screen.prepare_pixel_data_standard_zigzag cv2_resize frame_rgb'
           grid_width grid_height tr)
  /\ snd (Screen.prepare_pixel_data_standard_zigzag cv2_resize frame_rgb
            grid_width grid_height tr)
     = tr ++ [dimension_error (shape frame_rgb) grid_width grid_height;
              ECv2Resize frame_rgb (grid_width, grid_height);
              EPrint stderr MsgResizedInside]
  /\ exists payload : list byte,
      fst (Screen.prepare_pixel_data_standard_zigzag cv2_resize frame_rgb
             grid_width grid_height tr) = Ok (Some payload)
      /\ dezigzag (Z.to_nat grid_width) (Z.to_nat grid_height) payload = data frame_rgb'.
Proof.
  intros Hm Hr Hm'.
  pose proof (mismatch_false_inv _ _ _ Hm') as Hs'.
  rewrite (screen_prepare_matching _ _ _ _ _ Hs').
  rewrite screen_prepare_closed_form, (corrected_frame_mismatch _ _ _ _ Hm), Hr, Hm'.
  simpl. split; [reflexivity|]. split; [reflexivity|].
  eexists. split; [reflexivity|].
  pose proof (shape_rows _ _ _ _ Hs') as Hh.
  replace (Z.to_nat grid_height) with (length (data frame_rgb')) by lia.
  apply dezigzag_zigzag_order. exact (shape_uniform _ _ _ _ Hs').
Qed.

Lemma screen_prepare_serialises_resized_witness :
  mismatch (shape grid1x1) 2 2 = true
  /\ fst (Screen.prepare_pixel_data_standard_zigzag resize_to_grid2x2 grid1x1 2 2 [])
     = fst (Screen.prepare_pixel_data_standard_zigzag resize_to_grid2x2 grid2x2 2 2 []).
Proof.
  split; [reflexivity|].
  exact (proj1 (screen_prepare_serialises_resized resize_to_grid2x2 grid1x1 grid2x2 2 2 []
                  eq_refl eq_refl eq_refl)).
Defined.

(** ** Transport errors *)

Lemma send_packet_raises (packet_buffer : list byte) (e : exn) (frame_count : Z)
    (tr : list event) :
  send_packet packet_buffer (Raise e) frame_count tr
  = (Ok None, tr ++ [ESerWrite packet_buffer; EPrint stderr (send_error e (frame_count + 1))]).
Proof.
  unfold send_packet. unfold_M. destruct e; simpl; rewrite <- app_assoc; reflexivity.
Qed.

(** X3. When [ser.write] raises on a frame of the target dimensions, the
    iteration prints one error line, chosen by the kind of exception, does
    not count the frame and does not sleep, and the loop ends there: the
    iterations that would follow are not run. *)
Theorem write_failure_ends_loop
    (cv2_resize : ndarray -> Z * Z -> outcome array)
    (grid_width grid_height target_fps : Z) (frame_delay : float)
    (original_frames idx : Z) (it : iteration)
    (rest : list iteration) (vrest : list (iteration * Z))
    (e : exn) (frame_count : Z) (tr : list event) :
  shape (rgb_frame it) = (grid_height, grid_width, 3) ->
  write_result it = Raise e ->
  Screen.main_loop cv2_resize grid_width grid_height target_fps frame_delay
    (it :: rest) frame_count tr
  = (Ok frame_count,
     tr ++ [ESerWrite (packet_of (rgb_frame it));
            EPrint stderr (send_error e (frame_count + 1))])
  /\ Video.main_loop grid_width grid_height target_fps frame_delay original_frames
       ((it, idx) :: vrest) frame_count tr
     = (Ok frame_count,
        tr ++ [ESerWrite (packet_of (rgb_frame it));
               EPrint stderr (send_error e (frame_count + 1))]).
Proof.
  intros Hs Hw.
  pose proof (packet_length_agrees _ _ _ (length_serialised _ _ _ Hs)) as Hlen.
  split.
  - cbn [Screen.main_loop]. unfold mbind at 1. unfold M_bind.
    unfold Screen.loop_body. unfold mbind at 1. unfold M_bind.
    rewrite (screen_prepare_matching _ _ _ _ _ Hs).
    unfold Screen.send_stage. rewrite Hlen, Hw.
    unfold mbind at 1. unfold M_bind. unfold mret at 1. unfold M_ret.
    unfold mbind at 1. unfold M_bind.
    rewrite send_packet_raises. reflexivity.
  - cbn [Video.main_loop]. unfold mbind at 1. unfold M_bind.
    unfold Video.loop_body. unfold mbind at 1. unfold M_bind.
    rewrite (video_prepare_matching _ _ _ _ Hs).
    unfold Video.send_stage. rewrite Hlen, Hw.
    unfold mbind at 1. unfold M_bind. unfold mret at 1. unfold M_ret.
    unfold mbind at 1. unfold M_bind.
    rewrite send_packet_raises. reflexivity.
Qed.

(** An iteration on the 2 x 2 frame whose write times out. *)
Lemma write_failure_ends_loop_witness :
  shape (rgb_frame iteration_timeout) = (2, 2, 3)
  /\ Screen.main_loop resize_unchanged 2 2 5 delay_200ms
       [iteration_timeout; iteration_fast] 7 []
     = (Ok 7, [] ++ [ESerWrite (packet_of (rgb_frame iteration_timeout));
                     EPrint stderr (send_error SerialTimeoutException (7 + 1))]).
Proof.
  split; [reflexivity|].
  exact (proj1 (write_failure_ends_loop resize_unchanged 2 2 5 delay_200ms 0 1
                  iteration_timeout [iteration_fast] [] SerialTimeoutException 7 []
                  eq_refl eq_refl)).
Defined.

(** ** What a run writes *)

Lemma written_app (a b : list event) : written (a ++ b) = written a ++ written b.
Proof. apply omap_app. Qed.

Lemma screen_send_stage_writes (grid_width grid_height target_fps : Z)
    (frame_delay : float) (it : iteration) (pixel_byte_list : list byte)
    (frame_count : Z) (tr : list event) (n : Z) :
  write_result it = Ok n -> target_fps <> 0 ->
  Z.of_nat (length pixel_byte_list) = grid_width * grid_height * 3 ->
  exists new : list event,
    Screen.send_stage grid_width grid_height target_fps frame_delay it
      pixel_byte_list frame_count tr = (Ok (Continue, frame_count + 1), tr ++ new)
    /\ written new = [START_BYTE_1 :: START_BYTE_2 :: pixel_byte_list].
Proof.
  intros Hw Hfps Hlen.
  unfold Screen.send_stage.
  rewrite (packet_length_agrees _ _ _ Hlen).
  unfold send_packet, frame_rate_control, py_mod.
  rewrite Hw. unfold_M.
  replace (target_fps * 10 =? 0) with false by (symmetry; apply Z.eqb_neq; lia).
  destruct (0 <? frame_delay - (frame_end_time it - frame_start_time it))%float;
    destruct ((frame_count + 1) mod (target_fps * 10) =? 0);
    simpl; eexists; (split; [rewrite <- ?app_assoc; simpl; reflexivity|reflexivity]).
Qed.

Lemma video_send_stage_writes (grid_width grid_height target_fps : Z)
    (frame_delay : float) (original_frames idx : Z) (it : iteration)
    (pixel_byte_list : list byte) (frame_count : Z) (tr : list event) (n : Z) :
  write_result it = Ok n -> target_fps <> 0 ->
  Z.of_nat (length pixel_byte_list) = grid_width * grid_height * 3 ->
  exists new : list event,
    Video.send_stage grid_width grid_height target_fps frame_delay original_frames idx
      it pixel_byte_list frame_count tr = (Ok (Continue, frame_count + 1), tr ++ new)
    /\ written new = [START_BYTE_1 :: START_BYTE_2 :: pixel_byte_list].
Proof.
  intros Hw Hfps Hlen.
  unfold Video.send_stage.
  rewrite (packet_length_agrees _ _ _ Hlen).
  unfold send_packet, frame_rate_control, py_mod.
  rewrite Hw. unfold_M.
  replace (target_fps * 10 =? 0) with false by (symmetry; apply Z.eqb_neq; lia).
  destruct (0 <? frame_delay - (frame_end_time it - frame_start_time it))%float;
    destruct ((frame_count + 1) mod (target_fps * 10) =? 0);
    destruct (0 <? original_frames);
    simpl; eexists; (split; [rewrite <- ?app_assoc; simpl; reflexivity|reflexivity]).
Qed.

Lemma screen_loop_body_served (cv2_resize : ndarray -> Z * Z -> outcome array)
    (grid_width grid_height target_fps : Z) (frame_delay : float)
    (it : iteration) (frame_count : Z) (tr : list event) :
  target_fps <> 0 -> served grid_width grid_height it ->
  exists new : list event,
    Screen.loop_body cv2_resize grid_width grid_height target_fps frame_delay
      it frame_count tr = (Ok (Continue, frame_count + 1), tr ++ new)
    /\ written new = [packet_of (rgb_frame it)].
Proof.
  intros Hfps [Hs [n Hw]].
  unfold Screen.loop_body. unfold mbind at 1. unfold M_bind.
  rewrite (screen_prepare_matching _ _ _ _ _ Hs).
  exact (screen_send_stage_writes grid_width grid_height target_fps frame_delay it
           (zigzag_order (data (rgb_frame it))) frame_count tr n Hw Hfps
           (length_serialised _ _ _ Hs)).
Qed.

Lemma video_loop_body_served (grid_width grid_height target_fps : Z)
    (frame_delay : float) (original_frames idx : Z)
    (it : iteration) (frame_count : Z) (tr : list event) :
  target_fps <> 0 -> served grid_width grid_height it ->
  exists new : list event,
    Video.loop_body grid_width grid_height target_fps frame_delay original_frames
      (it, idx) frame_count tr = (Ok (Continue, frame_count + 1), tr ++ new)
    /\ written new = [packet_of (rgb_frame it)].
Proof.
  intros Hfps [Hs [n Hw]].
  unfold Video.loop_body. unfold mbind at 1. unfold M_bind.
  rewrite (video_prepare_matching _ _ _ _ Hs).
  exact (video_send_stage_writes grid_width grid_height target_fps frame_delay
           original_frames idx it
           (zigzag_order (data (rgb_frame it))) frame_count tr n Hw Hfps
           (length_serialised _ _ _ Hs)).
Qed.

Lemma screen_main_loop_served (cv2_resize : ndarray -> Z * Z -> outcome array)
    (grid_width grid_height target_fps : Z) (frame_delay : float)
    (its : list iteration) :
  target_fps <> 0 -> Forall (served grid_width grid_height) its ->
  forall (frame_count : Z) (tr : list event),
  exists new : list event,
    Screen.main_loop cv2_resize grid_width grid_height target_fps frame_delay
      its frame_count tr = (Ok (frame_count + Z.of_nat (length its)), tr ++ new)
    /\ written new = (packet_of ∘ rgb_frame <$> its).
Proof.
  intros Hfps Hall. induction Hall as [|it its Hit _ IH]; intros frame_count tr.
  - exists []. simpl. rewrite Z.add_0_r, app_nil_r. split; reflexivity.
  - cbn [Screen.main_loop]. unfold mbind at 1. unfold M_bind.
    destruct (screen_loop_body_served cv2_resize grid_width grid_height target_fps
                frame_delay it frame_count tr Hfps Hit) as [new [-> Hnew]].
    destruct (IH (frame_count + 1) (tr ++ new)) as [new' [-> Hnew']].
    exists (new ++ new'). rewrite written_app, Hnew, Hnew', <- app_assoc.
    split; [|reflexivity]. do 2 f_equal. simpl length. lia.
Qed.

Lemma video_main_loop_served (grid_width grid_height target_fps : Z)
    (frame_delay : float) (original_frames : Z) (vits : list (iteration * Z)) :
  target_fps <> 0 -> Forall (served grid_width grid_height) (fst <$> vits) ->
  forall (frame_count : Z) (tr : list event),
  exists new : list event,
    Video.main_loop grid_width grid_height target_fps frame_delay original_frames
      vits frame_count tr = (Ok (frame_count + Z.of_nat (length vits)), tr ++ new)
    /\ written new = (packet_of ∘ rgb_frame ∘ fst <$> vits).
Proof.
  intros Hfps. induction vits as [|[it idx] vits IH]; intros Hall frame_count tr.
  - exists []. simpl. rewrite Z.add_0_r, app_nil_r. split; reflexivity.
  - apply Forall_cons in Hall as [Hit Hall]. simpl in Hit.
    cbn [Video.main_loop]. unfold mbind at 1. unfold M_bind.
    destruct (video_loop_body_served grid_width grid_height target_fps
                frame_delay original_frames idx it frame_count tr Hfps Hit)
      as [new [-> Hnew]].
    destruct (IH Hall (frame_count + 1) (tr ++ new)) as [new' [-> Hnew']].
    exists (new ++ new'). rewrite written_app, Hnew, Hnew', <- app_assoc.
    split; [|reflexivity]. do 2 f_equal. simpl length. lia.
Qed.

(** X4. Over iterations whose frames have the target dimensions and whose
    writes succeed, a main loop writes one packet per iteration, in order,
    each the packet of that iteration's frame, and returns the frame count
    raised by the number of iterations. *)
Theorem served_run_writes_every_frame
    (cv2_resize : ndarray -> Z * Z -> outcome array)
    (grid_width grid_height target_fps : Z) (frame_delay : float)
    (original_frames : Z) (its : list iteration) (vits : list (iteration * Z))
    (frame_count : Z) (tr : list event) :
  target_fps <> 0 ->
  (Forall (served grid_width grid_height) its ->
   fst (Screen.main_loop cv2_resize grid_width grid_height target_fps frame_delay
          its frame_count tr) = Ok (frame_count + Z.of_nat (length its))
   /\ written (snd (Screen.main_loop cv2_resize grid_width grid_height target_fps
                      frame_delay its frame_count tr))
      = written tr ++ (packet_of ∘ rgb_frame <$> its))
  /\ (Forall (served grid_width grid_height) (fst <$> vits) ->
      fst (Video.main_loop grid_width grid_height target_fps frame_delay
             original_frames vits frame_count tr)
      = Ok (frame_count + Z.of_nat (length vits))
      /\ written (snd (Video.main_loop grid_width grid_height target_fps frame_delay
                         original_frames vits frame_count tr))
         = written tr ++ (packet_of ∘ rgb_frame ∘ fst <$> vits)).
Proof.
  intros Hfps. split; intros Hall.
  - destruct (screen_main_loop_served cv2_resize grid_width grid_height target_fps
                frame_delay its Hfps Hall frame_count tr) as [new [-> Hnew]].
    simpl. rewrite written_app, Hnew. split; reflexivity.
  - destruct (video_main_loop_served grid_width grid_height target_fps
                frame_delay original_frames vits Hfps Hall frame_count tr)
      as [new [-> Hnew]].
    simpl. rewrite written_app, Hnew. split; reflexivity.
Qed.

Lemma served_run_writes_every_frame_witness :
  (5 : Z) <> 0
  /\ written (snd (Screen.main_loop resize_unchanged 2 2 5 delay_200ms
                     [iteration_late; iteration_fast] 0 []))
     = written [] ++ (packet_of ∘ rgb_frame <$> [iteration_late; iteration_fast]).
Proof.
  assert (H5 : (5 : Z) <> 0) by discriminate.
  split; [exact H5|].
  refine (proj2 (proj1 (served_run_writes_every_frame resize_unchanged 2 2 5 delay_200ms
                          0 [iteration_late; iteration_fast] [] 0 [] H5) _)).
  repeat constructor; exists 14; reflexivity.
Defined.

(** ** The payload as a rearrangement of the frame *)

Lemma concat_imap_Permutation {A : Type} (f : nat -> list (list A) -> list A)
    (rows : list (list (list A))) :
  (forall i row, f i row ≡ₚ concat row) ->
  concat (imap f rows) ≡ₚ concat (concat rows).
Proof.
  revert f. induction rows as [|row rows IH]; intros f Hf; simpl.
  - reflexivity.
  - rewrite concat_app, (Hf 0%nat row). apply Permutation_app_head.
    apply IH. intros i r. apply Hf.
Qed.

Lemma row_bytes_Permutation (y : nat) (row : list (list byte)) :
  row_bytes y row ≡ₚ concat row.
Proof.
  unfold row_bytes. destruct (Nat.even y); [reflexivity|].
  induction row as [|px row IH]; [reflexivity|].
  rewrite reverse_cons, concat_app. simpl. rewrite app_nil_r, IH.
  apply Permutation_app_comm.
Qed.

(** X5. The payload of a frame of the target dimensions is a rearrangement
    of the frame's bytes: each byte of each pixel appears in it as many
    times as in the frame, none is lost and none is added. *)
Theorem payload_is_permutation_of_frame
    (cv2_resize : ndarray -> Z * Z -> outcome array)
    (frame_rgb : ndarray) (grid_width grid_height : Z) (tr : list event) :
  shape frame_rgb = (grid_height, grid_width, 3) ->
  exists payload : list byte,
    fst (Screen.prepare_pixel_data_standard_zigzag cv2_resize frame_rgb
           grid_width grid_height tr) = Ok (Some payload)
    /\ fst (Video.prepare_pixel_data_standard_zigzag frame_rgb
              grid_width grid_height tr) = Ok (Some payload)
    /\ payload ≡ₚ concat (concat (data frame_rgb)).
Proof.
  intros Hs. exists (zigzag_order (data frame_rgb)).
  rewrite (screen_prepare_matching _ _ _ _ _ Hs), (video_prepare_matching _ _ _ _ Hs).
  split; [reflexivity|]. split; [reflexivity|].
  apply concat_imap_Permutation. apply row_bytes_Permutation.
Qed.

Lemma payload_is_permutation_of_frame_witness :
  shape grid2x2 = (2, 2, 3)
  /\ exists payload : list byte,
      fst (Screen.prepare_pixel_data_standard_zigzag resize_unchanged grid2x2 2 2 [])
      = Ok (Some payload)
      /\ fst (Video.prepare_pixel_data_standard_zigzag grid2x2 2 2 []) = Ok (Some payload)
      /\ payload ≡ₚ concat (concat (data grid2x2)).
Proof.
  split; [reflexivity|].
  exact (payload_is_permutation_of_frame resize_unchanged grid2x2 2 2 [] eq_refl).
Defined.

(** ** Neighbouring pixels of the payload *)

Lemma zigzag_position_pixel (frame_rgb : ndarray) (grid_width grid_height n : Z) :
  shape frame_rgb = (grid_height, grid_width, 3) ->
  0 <= n < grid_width * grid_height ->
  getitem frame_rgb (fst (zigzag_position grid_width n)) (snd (zigzag_position grid_width n))
  = Ok (payload_pixel (zigzag_order (data frame_rgb)) n).
Proof.
  intros Hs Hn.
  pose proof (shape_rows _ _ _ _ Hs) as Hh.
  pose proof (shape_nonneg _ _ _ _ Hs) as (Hh0 & Hw0 & _).
  pose proof (shape_uniform _ _ _ _ Hs) as Hu.
  assert (Hw : 0 < grid_width) by nia.
  unfold zigzag_position. cbn [fst snd].
  pose proof (Z.mod_pos_bound n grid_width Hw) as Hk.
  pose proof (Z.div_pos n grid_width ltac:(lia) Hw) as Hy0.
  assert (Hy : n / grid_width < grid_height).
  { apply Z.div_lt_upper_bound; [lia|]. lia. }
  pose proof (Z.div_mod n grid_width ltac:(lia)) as Hdm.
  set (y := n / grid_width) in *. set (k := n mod grid_width) in *.
  destruct (lookup_lt_is_Some_2 (data frame_rgb) (Z.to_nat y)) as [row Hrow]; [lia|].
  destruct (shape_row _ _ _ _ _ _ Hs Hrow) as [Hlen Hc].
  set (j := if Nat.even (Z.to_nat y) then Z.to_nat k
            else (Z.to_nat grid_width - S (Z.to_nat k))%nat).
  destruct (lookup_lt_is_Some_2 row j) as [px Hpx].
  { unfold j. destruct (Nat.even (Z.to_nat y)); lia. }
  assert (Hsel : (if Nat.even (Z.to_nat y) then row else reverse row) !! Z.to_nat k
                 = Some px).
  { unfold j in Hpx. destruct (Nat.even (Z.to_nat y)); [exact Hpx|].
    rewrite reverse_lookup by lia.
    replace (length row) with (Z.to_nat grid_width) by lia. exact Hpx. }
  replace (if Z.even y then k else grid_width - 1 - k) with (Z.of_nat j); cycle 1.
  { unfold j. rewrite <- (Z2Nat.id y) at 2 by lia. rewrite Z_even_of_nat.
    destruct (Nat.even (Z.to_nat y)); lia. }
  rewrite <- (Z2Nat.id y) at 1 by lia.
  rewrite (getitem_in_range _ _ _ _ _ _ _ _ Hs Hrow Hpx). f_equal.
  rewrite Forall_forall in Hc.
  pose proof (Hc px (list_elem_of_lookup_2 _ _ _ Hpx)) as Hpxlen.
  unfold payload_pixel. apply list_eq. intros c.
  destruct (decide (c < 3)%nat) as [Hc3|Hc3].
  - rewrite lookup_take_lt, lookup_drop by exact Hc3.
    replace (Z.to_nat (3 * n) + c)%nat
      with (3 * (Z.to_nat y * Z.to_nat grid_width + Z.to_nat k) + c)%nat by nia.
    rewrite (zigzag_order_lookup _ (Z.to_nat grid_width) _ _ _ row);
      [|exact Hu|exact Hrow|lia|exact Hc3].
    rewrite Hsel. reflexivity.
  - rewrite lookup_take_ge by lia. apply lookup_ge_None_2. lia.
Qed.

(** X6. On a frame of the target dimensions, the [n]-th pixel of the
    payload is the pixel of the frame at row [n / grid_width] and, counted
    from the left on an even row and from the right on an odd row, column
    [n mod grid_width]; the next pixel of the payload is a horizontal or
    vertical neighbour of it in the grid. *)
Theorem payload_neighbours_are_adjacent
    (cv2_resize : ndarray -> Z * Z -> outcome array)
    (frame_rgb : ndarray) (grid_width grid_height n : Z) (tr : list event) :
  shape frame_rgb = (grid_height, grid_width, 3) ->
  0 <= n -> n + 1 < grid_width * grid_height ->
  exists payload : list byte,
    fst (Screen.prepare_pixel_data_standard_zigzag cv2_resize frame_rgb
           grid_width grid_height tr) = Ok (Some payload)
    /\ fst (Video.prepare_pixel_data_standard_zigzag frame_rgb
              grid_width grid_height tr) = Ok (Some payload)
    /\ getitem frame_rgb (fst (zigzag_position grid_width n))
         (snd (zigzag_position grid_width n)) = Ok (payload_pixel payload n)
    /\ getitem frame_rgb (fst (zigzag_position grid_width (n + 1)))
         (snd (zigzag_position grid_width (n + 1))) = Ok (payload_pixel payload (n + 1))
    /\ Z.abs (fst (zigzag_position grid_width (n + 1)) - fst (zigzag_position grid_width n))
       + Z.abs (snd (zigzag_position grid_width (n + 1))
                - snd (zigzag_position grid_width n)) = 1.
Proof.
  intros Hs Hn0 Hn1. exists (zigzag_order (data frame_rgb)).
  rewrite (screen_prepare_matching _ _ _ _ _ Hs), (video_prepare_matching _ _ _ _ Hs).
  split; [reflexivity|]. split; [reflexivity|].
  split; [apply (zigzag_position_pixel _ _ grid_height); [exact Hs|lia]|].
  split; [apply (zigzag_position_pixel _ _ grid_height); [exact Hs|lia]|].
  pose proof (shape_nonneg _ _ _ _ Hs) as (Hh0 & Hw0 & _).
  assert (Hw : 0 < grid_width) by nia.
  unfold zigzag_position. cbn [fst snd].
  pose proof (Z.mod_pos_bound n grid_width Hw) as Hk.
  pose proof (Z.div_mod n grid_width ltac:(lia)) as Hdm.
  set (y := n / grid_width) in *. set (k := n mod grid_width) in *.
  destruct (Z_lt_le_dec (k + 1) grid_width) as [Hin|Hend].
  - (* the next pixel is in the same row *)
    assert (Hy' : (n + 1) / grid_width = y).
    { symmetry. apply (Z.div_unique (n + 1) grid_width y (k + 1)); lia. }
    assert (Hk' : (n + 1) mod grid_width = k + 1).
    { symmetry. apply (Z.mod_unique (n + 1) grid_width y (k + 1)); lia. }
    rewrite Hy', Hk'. destruct (Z.even y); lia.
  - (* the next pixel starts the next row *)
    assert (Hy' : (n + 1) / grid_width = y + 1).
    { symmetry. apply (Z.div_unique (n + 1) grid_width (y + 1) 0); lia. }
    assert (Hk' : (n + 1) mod grid_width = 0).
    { symmetry. apply (Z.mod_unique (n + 1) grid_width (y + 1) 0); lia. }
    rewrite Hy', Hk'. rewrite Z.even_add. change (Z.even 1) with false.
    destruct (Z.even y); simpl; lia.
Qed.

Lemma payload_neighbours_are_adjacent_witness :
  shape grid2x2 = (2, 2, 3)
  /\ exists payload : list byte,
      fst (Screen.prepare_pixel_data_standard_zigzag resize_unchanged grid2x2 2 2 [])
      = Ok (Some payload)
      /\ fst (Video.prepare_pixel_data_standard_zigzag grid2x2 2 2 []) = Ok (Some payload)
      /\ getitem grid2x2 (fst (zigzag_position 2 1)) (snd (zigzag_position 2 1))
         = Ok (payload_pixel payload 1)
      /\ getitem grid2x2 (fst (zigzag_position 2 (1 + 1))) (snd (zigzag_position 2 (1 + 1)))
         = Ok (payload_pixel payload (1 + 1))
      /\ Z.abs (fst (zigzag_position 2 (1 + 1)) - fst (zigzag_position 2 1))
         + Z.abs (snd (zigzag_position 2 (1 + 1)) - snd (zigzag_position 2 1)) = 1.
Proof.
  split; [reflexivity|].
  exact (payload_neighbours_are_adjacent resize_unchanged grid2x2 2 2 1 []
           eq_refl ltac:(discriminate) eq_refl).
Defined.

(** * Interactive configuration *)

Section ConsoleFacts.
Variable str_strip : string -> string.
Variable int_of_str : string -> option Z.
Variable float_of_str : string -> option float.

Lemma get_int_input_positive (prompt : string) (default_value : Z)
    (lines : list string) :
  forall (shown : list console_event) (v : Z) (lines' : list string)
         (shown' : list console_event),
    Console.get_int_input str_strip int_of_str prompt default_value lines shown
    = (Returned v, lines', shown') ->
    v = default_value \/ 0 < v.
Proof.
  induction lines as [|line rest IH]; intros shown v lines' shown'; simpl.
  - discriminate.
  - destruct (str_empty (str_strip line)); [intros [= <- _ _]; left; reflexivity|].
    destruct (int_of_str (str_strip line)) as [value|]; [|apply IH].
    destruct (0 <? value) eqn:Hpos; [|apply IH].
    intros [= <- _ _]. right. apply Z.ltb_lt. exact Hpos.
Qed.

Lemma get_float_input_positive (prompt : string) (default_value : float)
    (lines : list string) :
  forall (shown : list console_event) (v : float) (lines' : list string)
         (shown' : list console_event),
    Console.get_float_input str_strip float_of_str prompt default_value lines shown
    = (Returned v, lines', shown') ->
    v = default_value \/ (0 <? v)%float = true.
Proof.
  induction lines as [|line rest IH]; intros shown v lines' shown'; simpl.
  - discriminate.
  - destruct (str_empty (str_strip line)); [intros [= <- _ _]; left; reflexivity|].
    destruct (float_of_str (str_strip line)) as [value|]; [|apply IH].
    destruct (0 <? value)%float eqn:Hpos; [|apply IH].
    intros [= <- _ _]. right. exact Hpos.
Qed.

Lemma get_int_input_origin (prompt : string) (default_value : Z)
    (lines : list string) :
  forall (shown : list console_event) (v : Z) (lines' : list string)
         (shown' : list console_event),
    Console.get_int_input str_strip int_of_str prompt default_value lines shown
    = (Returned v, lines', shown') ->
    exists (bad : list string) (line : string),
      lines = bad ++ line :: lines'
      /\ forallb (int_rejected str_strip int_of_str) bad = true
      /\ if str_empty (str_strip line) then v = default_value
         else int_of_str (str_strip line) = Some v /\ 0 < v.
Proof.
  induction lines as [|line rest IH]; intros shown v lines' shown'; simpl.
  - discriminate.
  - destruct (str_empty (str_strip line)) eqn:Hblank.
    { intros [= <- <- _]. exists [], line. rewrite Hblank. repeat split. }
    assert (Hnext : forall shown0,
               int_rejected str_strip int_of_str line = true ->
               Console.get_int_input str_strip int_of_str prompt default_value rest shown0
               = (Returned v, lines', shown') ->
               exists (bad : list string) (line0 : string),
                 line :: rest = bad ++ line0 :: lines'
                 /\ forallb (int_rejected str_strip int_of_str) bad = true
                 /\ if str_empty (str_strip line0) then v = default_value
                    else int_of_str (str_strip line0) = Some v /\ 0 < v).
    { intros shown0 Hrej H. apply IH in H as (bad & line0 & -> & Hbad & Hv).
      exists (line :: bad), line0. split; [reflexivity|]. split; [|exact Hv].
      simpl. rewrite Hrej. exact Hbad. }
    unfold int_rejected in Hnext. rewrite Hblank in Hnext. simpl in Hnext.
    destruct (int_of_str (str_strip line)) as [value|] eqn:Hint;
      [|apply Hnext; reflexivity].
    destruct (0 <? value) eqn:Hpos; [|apply Hnext; reflexivity].
    intros [= <- <- _]. exists [], line. rewrite Hblank, Hint.
    split; [reflexivity|]. split; [reflexivity|]. split; [reflexivity|].
    apply Z.ltb_lt. exact Hpos.
Qed.

Lemma get_float_input_origin (prompt : string) (default_value : float)
    (lines : list string) :
  forall (shown : list console_event) (v : float) (lines' : list string)
         (shown' : list console_event),
    Console.get_float_input str_strip float_of_str prompt default_value lines shown
    = (Returned v, lines', shown') ->
    exists (bad : list string) (line : string),
      lines = bad ++ line :: lines'
      /\ forallb (float_rejected str_strip float_of_str) bad = true
      /\ if str_empty (str_strip line) then v = default_value
         else float_of_str (str_strip line) = Some v /\ (0 <? v)%float = true.
Proof.
  induction lines as [|line rest IH]; intros shown v lines' shown'; simpl.
  - discriminate.
  - destruct (str_empty (str_strip line)) eqn:Hblank.
    { intros [= <- <- _]. exists [], line. rewrite Hblank. repeat split. }
    assert (Hnext : forall shown0,
               float_rejected str_strip float_of_str line = true ->
               Console.get_float_input str_strip float_of_str prompt default_value rest
                 shown0
               = (Returned v, lines', shown') ->
               exists (bad : list string) (line0 : string),
                 line :: rest = bad ++ line0 :: lines'
                 /\ forallb (float_rejected str_strip float_of_str) bad = true
                 /\ if str_empty (str_strip line0) then v = default_value
                    else float_of_str (str_strip line0) = Some v
                         /\ (0 <? v)%float = true).
    { intros shown0 Hrej H. apply IH in H as (bad & line0 & -> & Hbad & Hv).
      exists (line :: bad), line0. split; [reflexivity|]. split; [|exact Hv].
      simpl. rewrite Hrej. exact Hbad. }
    unfold float_rejected in Hnext. rewrite Hblank in Hnext. simpl in Hnext.
    destruct (float_of_str (str_strip line)) as [value|] eqn:Hfloat;
      [|apply Hnext; reflexivity].
    destruct (0 <? value)%float eqn:Hpos; [|apply Hnext; reflexivity].
    intros [= <- <- _]. exists [], line. rewrite Hblank, Hfloat.
    split; [reflexivity|]. split; [reflexivity|]. split; [reflexivity|exact Hpos].
Qed.

(** X7. What [get_int_input] returns comes from the line it stopped at:
    the lines typed before that one were all turned down, the lines after
    it are left unread, and the value is the default when that line is
    blank once stripped, and otherwise the integer that [int] read from
    the stripped line, which is above zero. The same holds for
    [get_float_input] and [float]; the float read is above zero, so never
    a NaN. *)
Theorem input_is_default_or_positive (prompt : string)
    (default_int : Z) (default_float : float)
    (lines : list string) (shown : list console_event) :
  (forall (v : Z) (lines' : list string) (shown' : list console_event),
      Console.get_int_input str_strip int_of_str prompt default_int lines shown
      = (Returned v, lines', shown') ->
      exists (bad : list string) (line : string),
        lines = bad ++ line :: lines'
        /\ forallb (int_rejected str_strip int_of_str) bad = true
        /\ if str_empty (str_strip line) then v = default_int
           else int_of_str (str_strip line) = Some v /\ 0 < v)
  /\ (forall (v : float) (lines' : list string) (shown' : list console_event),
        Console.get_float_input str_strip float_of_str prompt default_float lines shown
        = (Returned v, lines', shown') ->
        exists (bad : list string) (line : string),
          lines = bad ++ line :: lines'
          /\ forallb (float_rejected str_strip float_of_str) bad = true
          /\ if str_empty (str_strip line) then v = default_float
             else float_of_str (str_strip line) = Some v /\ (0 <? v)%float = true).
Proof.
  split.
  - intros v lines' shown'. apply get_int_input_origin.
  - intros v lines' shown'. apply get_float_input_origin.
Qed.

Lemma get_int_input_retries (prompt : string) (default_value : Z)
    (bad : list string) :
  forall (lines : list string) (shown : list console_event),
    forallb (int_rejected str_strip int_of_str) bad = true ->
    Console.get_int_input str_strip int_of_str prompt default_value (bad ++ lines) shown
    = Console.get_int_input str_strip int_of_str prompt default_value lines
        (shown ++ concat ((fun line => [CPromptInt prompt default_value;
                                        int_complaint str_strip int_of_str line]) <$> bad)).
Proof.
  induction bad as [|line bad IH]; intros lines shown Hbad; simpl.
  - rewrite app_nil_r. reflexivity.
  - simpl in Hbad. apply andb_true_iff in Hbad as [Hline Hbad].
    unfold int_rejected in Hline. apply andb_true_iff in Hline as [Hne Hrej].
    apply negb_true_iff in Hne. rewrite Hne.
    unfold int_complaint.
    destruct (int_of_str (str_strip line)) as [value|].
    + apply negb_true_iff in Hrej. rewrite Hrej.
      rewrite IH by exact Hbad. rewrite <- !app_assoc. reflexivity.
    + rewrite IH by exact Hbad. rewrite <- !app_assoc. reflexivity.
Qed.

Lemma get_float_input_retries (prompt : string) (default_value : float)
    (bad : list string) :
  forall (lines : list string) (shown : list console_event),
    forallb (float_rejected str_strip float_of_str) bad = true ->
    Console.get_float_input str_strip float_of_str prompt default_value (bad ++ lines) shown
    = Console.get_float_input str_strip float_of_str prompt default_value lines
        (shown ++ concat ((fun line => [CPromptFloat prompt default_value;
                                        float_complaint str_strip float_of_str line])
                            <$> bad)).
Proof.
  induction bad as [|line bad IH]; intros lines shown Hbad; simpl.
  - rewrite app_nil_r. reflexivity.
  - simpl in Hbad. apply andb_true_iff in Hbad as [Hline Hbad].
    unfold float_rejected in Hline. apply andb_true_iff in Hline as [Hne Hrej].
    apply negb_true_iff in Hne. rewrite Hne.
    unfold float_complaint.
    destruct (float_of_str (str_strip line)) as [value|].
    + apply negb_true_iff in Hrej. rewrite Hrej.
      rewrite IH by exact Hbad. rewrite <- !app_assoc. reflexivity.
    + rewrite IH by exact Hbad. rewrite <- !app_assoc. reflexivity.
Qed.

(** X8. [get_int_input] and [get_float_input] take lines until one is
    accepted: after any number of rejected lines, each answered by its
    complaint and a new prompt, the first line that is blank or a number
    above zero decides the result, and the lines after it are left
    unread. *)
Theorem input_retries_until_accepted (prompt : string)
    (default_int : Z) (default_float : float)
    (bad : list string) (good : string) (rest : list string)
    (shown : list console_event) :
  (forallb (int_rejected str_strip int_of_str) bad = true ->
   int_rejected str_strip int_of_str good = false ->
   Console.get_int_input str_strip int_of_str prompt default_int
     (bad ++ good :: rest) shown
   = (Returned (int_answer str_strip int_of_str default_int good), rest,
      shown ++ concat ((fun line => [CPromptInt prompt default_int;
                                     int_complaint str_strip int_of_str line]) <$> bad)
            ++ [CPromptInt prompt default_int]))
  /\ (forallb (float_rejected str_strip float_of_str) bad = true ->
      float_rejected str_strip float_of_str good = false ->
      Console.get_float_input str_strip float_of_str prompt default_float
        (bad ++ good :: rest) shown
      = (Returned (float_answer str_strip float_of_str default_float good), rest,
         shown ++ concat ((fun line => [CPromptFloat prompt default_float;
                                        float_complaint str_strip float_of_str line])
                            <$> bad)
               ++ [CPromptFloat prompt default_float])).
Proof.
  split; intros Hbad Hgood.
  - rewrite get_int_input_retries by exact Hbad. simpl.
    unfold int_rejected in Hgood. unfold int_answer.
    destruct (str_empty (str_strip good)); [rewrite <- app_assoc; reflexivity|].
    simpl in Hgood.
    destruct (int_of_str (str_strip good)) as [value|]; [|discriminate Hgood].
    apply negb_false_iff in Hgood. rewrite Hgood. simpl.
    rewrite <- app_assoc. reflexivity.
  - rewrite get_float_input_retries by exact Hbad. simpl.
    unfold float_rejected in Hgood. unfold float_answer.
    destruct (str_empty (str_strip good)); [rewrite <- app_assoc; reflexivity|].
    simpl in Hgood.
    destruct (float_of_str (str_strip good)) as [value|]; [|discriminate Hgood].
    apply negb_false_iff in Hgood. rewrite Hgood. simpl.
    rewrite <- app_assoc. reflexivity.
Qed.

(** X9. When standard input ends before a line is accepted,
    [get_int_input] and [get_float_input] raise [EOFError], after one prompt
    per line read and one more. *)
Theorem input_ends_with_eof (prompt : string)
    (default_int : Z) (default_float : float)
    (bad : list string) (shown : list console_event) :
  (forallb (int_rejected str_strip int_of_str) bad = true ->
   Console.get_int_input str_strip int_of_str prompt default_int bad shown
   = (Thrown EOFError, [],
      shown ++ concat ((fun line => [CPromptInt prompt default_int;
                                     int_complaint str_strip int_of_str line]) <$> bad)
            ++ [CPromptInt prompt default_int]))
  /\ (forallb (float_rejected str_strip float_of_str) bad = true ->
      Console.get_float_input str_strip float_of_str prompt default_float bad shown
      = (Thrown EOFError, [],
         shown ++ concat ((fun line => [CPromptFloat prompt default_float;
                                        float_complaint str_strip float_of_str line])
                            <$> bad)
               ++ [CPromptFloat prompt default_float])).
Proof.
  split; intros Hbad.
  - rewrite <- (app_nil_r bad) at 1. rewrite get_int_input_retries by exact Hbad.
    simpl. rewrite <- app_assoc. reflexivity.
  - rewrite <- (app_nil_r bad) at 1. rewrite get_float_input_retries by exact Hbad.
    simpl. rewrite <- app_assoc. reflexivity.
Qed.


Lemma get_grid_and_serial_inputs_positive (lines : list string)
    (shown : list console_event) (grid_width grid_height baud_rate : Z) (timeout : float)
    (lines' : list string) (shown' : list console_event) :
  Console.get_grid_and_serial_inputs str_strip int_of_str float_of_str lines shown
  = (Returned (grid_width, grid_height, baud_rate, timeout), lines', shown') ->
  0 < grid_width /\ 0 < grid_height /\ 0 < baud_rate /\ (0 <? timeout)%float = true.
Proof.
  unfold Console.get_grid_and_serial_inputs.
  destruct (Console.get_int_input _ _ _ DEFAULT_GRID_WIDTH lines shown)
    as [[[w|e] l1] s1] eqn:Hw; [|discriminate].
  destruct (Console.get_int_input _ _ _ DEFAULT_GRID_HEIGHT l1 s1)
    as [[[h|e] l2] s2] eqn:Hh; [|discriminate].
  destruct (Console.get_int_input _ _ _ DEFAULT_BAUD_RATE l2 s2)
    as [[[b|e] l3] s3] eqn:Hb; [|discriminate].
  destruct (Console.get_float_input _ _ _ DEFAULT_TIMEOUT l3 s3)
    as [[[t|e] l4] s4] eqn:Ht; [|discriminate].
  intros [= <- <- <- <- _ _].
  apply get_int_input_positive in Hw, Hh, Hb. apply get_float_input_positive in Ht.
  unfold DEFAULT_GRID_WIDTH, DEFAULT_GRID_HEIGHT, DEFAULT_BAUD_RATE in *.
  repeat split; try lia.
  destruct Ht as [->|Ht]; [reflexivity|exact Ht].
Qed.

(** X10. Every configuration either [main] gets from its prompts has a
    port that is not blank, a width, a height, a baud rate and a target
    rate above zero and a write timeout above zero, whatever is typed. *)
Theorem inputs_are_positive (lines : list string) (shown : list console_event)
    (cfg : Console.config) (lines' : list string) (shown' : list console_event) :
  Console.screen_inputs str_strip int_of_str float_of_str lines shown
  = (Returned cfg, lines', shown')
  \/ Console.video_inputs str_strip int_of_str float_of_str lines shown
     = (Returned cfg, lines', shown') ->
  str_empty (Console.serial_port cfg) = false
  /\ 0 < Console.grid_width cfg /\ 0 < Console.grid_height cfg
  /\ 0 < Console.baud_rate cfg /\ (0 <? Console.timeout cfg)%float = true
  /\ 0 < Console.target_fps cfg.
Proof.
  intros [H|H].
  - unfold Console.screen_inputs, Console.input_stripped in H.
    destruct lines as [|line rest]; [discriminate|].
    destruct (str_empty (str_strip line)) eqn:Hport; [discriminate|].
    destruct (Console.get_grid_and_serial_inputs _ _ _ rest _)
      as [[[[[[w h] b] t]|e] l1] s1] eqn:Hg; [|discriminate].
    injection H as <- _ _. simpl.
    apply get_grid_and_serial_inputs_positive in Hg.
    destruct Hg as (Hw & Hh & Hb & Ht).
    repeat split; assumption.
  - unfold Console.video_inputs, Console.input_stripped in H.
    destruct lines as [|line0 rest0]; [discriminate|].
    destruct (str_empty (str_strip line0)) eqn:Hurl; [discriminate|].
    destruct rest0 as [|line rest]; [discriminate|].
    destruct (str_empty (str_strip line)) eqn:Hport; [discriminate|].
    destruct (Console.get_grid_and_serial_inputs _ _ _ rest _)
      as [[[[[[w h] b] t]|e] l1] s1] eqn:Hg; [|discriminate].
    destruct (Console.get_int_input _ _ _ DEFAULT_TARGET_FPS l1 s1)
      as [[[f|e] l2] s2] eqn:Hf; [|discriminate].
    injection H as <- _ _. simpl.
    apply get_grid_and_serial_inputs_positive in Hg.
    destruct Hg as (Hw & Hh & Hb & Ht).
    apply get_int_input_positive in Hf. unfold DEFAULT_TARGET_FPS in Hf.
    repeat split; try assumption. lia.
Qed.

End ConsoleFacts.

Lemma input_is_default_or_positive_witness :
  Console.get_int_input strip_nothing int_of_known "Enter target grid width" 32
    ["abc"; "0"; "64"; "9"] []
  = (Returned 64, ["9"],
     [CPromptInt "Enter target grid width" 32; CPrint stdout SayInvalidInteger;
      CPromptInt "Enter target grid width" 32; CPrint stdout SayPositiveInteger;
      CPromptInt "Enter target grid width" 32])
  /\ exists (bad : list string) (line : string),
       ["abc"; "0"; "64"; "9"] = bad ++ line :: ["9"]
       /\ forallb (int_rejected strip_nothing int_of_known) bad = true
       /\ if str_empty (strip_nothing line) then 64 = 32
          else int_of_known (strip_nothing line) = Some 64 /\ 0 < 64.
Proof.
  split; [reflexivity|].
  exact (proj1 (input_is_default_or_positive strip_nothing int_of_known float_of_known
                  "Enter target grid width" 32 DEFAULT_TIMEOUT
                  ["abc"; "0"; "64"; "9"] []) 64 _ _ eq_refl).
Defined.

Lemma input_retries_until_accepted_witness :
  forallb (float_rejected strip_nothing float_of_known) ["nan"; "-1"; "soon"] = true
  /\ float_rejected strip_nothing float_of_known "0.5" = false
  /\ Console.get_float_input strip_nothing float_of_known "Enter serial write timeout in seconds"
       DEFAULT_TIMEOUT (["nan"; "-1"; "soon"] ++ "0.5" :: ["x"]) []
     = (Returned 0x1p-1%float, ["x"],
        [CPromptFloat "Enter serial write timeout in seconds" DEFAULT_TIMEOUT;
         CPrint stdout SayPositiveNumber;
         CPromptFloat "Enter serial write timeout in seconds" DEFAULT_TIMEOUT;
         CPrint stdout SayPositiveNumber;
         CPromptFloat "Enter serial write timeout in seconds" DEFAULT_TIMEOUT;
         CPrint stdout SayInvalidNumber;
         CPromptFloat "Enter serial write timeout in seconds" DEFAULT_TIMEOUT]).
Proof.
  split; [reflexivity|]. split; [reflexivity|].
  exact (proj2 (input_retries_until_accepted strip_nothing int_of_known float_of_known
                  "Enter serial write timeout in seconds" 32 DEFAULT_TIMEOUT
                  ["nan"; "-1"; "soon"] "0.5" ["x"] []) eq_refl eq_refl).
Defined.

Lemma input_ends_with_eof_witness :
  forallb (int_rejected strip_nothing int_of_known) ["-3"; "abc"] = true
  /\ Console.get_int_input strip_nothing int_of_known "Enter serial baud rate" 115200
       ["-3"; "abc"] []
     = (Thrown EOFError, [],
        [CPromptInt "Enter serial baud rate" 115200; CPrint stdout SayPositiveInteger;
         CPromptInt "Enter serial baud rate" 115200; CPrint stdout SayInvalidInteger;
         CPromptInt "Enter serial baud rate" 115200]).
Proof.
  split; [reflexivity|].
  exact (proj1 (input_ends_with_eof strip_nothing int_of_known float_of_known
                  "Enter serial baud rate" 115200 DEFAULT_TIMEOUT ["-3"; "abc"] [])
           eq_refl).
Defined.

Lemma inputs_are_positive_witness :
  Console.video_inputs strip_nothing int_of_known float_of_known
    ["https://example.org/v"; "COM3"; ""; "64"; ""; "0.5"; "0"; ""] []
  = (Returned {| Console.youtube_url := "https://example.org/v";
                 Console.serial_port := "COM3";
                 Console.grid_width := 32; Console.grid_height := 64;
                 Console.baud_rate := 115200; Console.timeout := 0x1p-1%float;
                 Console.target_fps := 5 |}, [],
     [CPromptUrl; CPromptPort;
      CPromptInt "Enter target grid width" 32;
      CPromptInt "Enter target grid height" 18;
      CPromptInt "Enter serial baud rate" 115200;
      CPromptFloat "Enter serial write timeout in seconds" DEFAULT_TIMEOUT;
      CPromptInt "Enter target FPS to send" 5; CPrint stdout SayPositiveInteger;
      CPromptInt "Enter target FPS to send" 5])
  /\ 0 < 5.
Proof.
  split; [reflexivity|].
  exact (proj2 (proj2 (proj2 (proj2 (proj2
           (inputs_are_positive strip_nothing int_of_known float_of_known
              ["https://example.org/v"; "COM3"; ""; "64"; ""; "0.5"; "0"; ""] []
              {| Console.youtube_url := "https://example.org/v";
                 Console.serial_port := "COM3";
                 Console.grid_width := 32; Console.grid_height := 64;
                 Console.baud_rate := 115200; Console.timeout := 0x1p-1%float;
                 Console.target_fps := 5 |} [] _
              (or_intror eq_refl))))))).
Defined.

(** * Reading the video file *)

Lemma skip_loop_keeps (turns : list Z) :
  forall (x : Z) (ret : bool) (frame : option ndarray) (cap : list ndarray) (idx : Z),
    (length turns < length cap)%nat ->
    skip_loop (x :: turns) ret frame cap idx
    = (true, cap !! length turns, drop (S (length turns)) cap,
       idx + Z.of_nat (S (length turns))).
Proof.
  induction turns as [|y turns IH]; intros x ret frame cap idx Hlen.
  - destruct cap as [|f rest]; [simpl in Hlen; lia|]. simpl. rewrite drop_0.
    reflexivity.
  - destruct cap as [|f rest]; [simpl in Hlen; lia|]. simpl in Hlen.
    change (skip_loop (x :: y :: turns) ret frame (f :: rest) idx)
      with (skip_loop (y :: turns) true (Some f) rest (idx + 1)).
    rewrite IH by lia. simpl length. simpl drop. simpl lookup.
    f_equal. lia.
Qed.

Lemma skip_loop_runs_out (cap : list ndarray) :
  forall (x : Z) (turns : list Z) (ret : bool) (frame : option ndarray) (idx : Z),
    (length cap <= length turns)%nat ->
    skip_loop (x :: turns) ret frame cap idx
    = (false, None, [], idx + Z.of_nat (length cap) + 1).
Proof.
  induction cap as [|f rest IH]; intros x turns ret frame idx Hlen.
  - simpl. f_equal. lia.
  - destruct turns as [|y turns]; [simpl in Hlen; lia|]. simpl in Hlen.
    change (skip_loop (x :: y :: turns) ret frame (f :: rest) idx)
      with (skip_loop (y :: turns) true (Some f) rest (idx + 1)).
    rewrite IH by lia. simpl length. f_equal. lia.
Qed.

Lemma range_cons (s : Z) : 1 <= s -> exists turns, range s = 0 :: turns
                                       /\ length turns = Z.to_nat (s - 1).
Proof.
  intros Hs. unfold range. rewrite seqZ_cons by lia.
  eexists. split; [reflexivity|]. rewrite length_seqZ. lia.
Qed.

Lemma read_frame_cases (frames_to_skip : Z) (cap : list ndarray)
    (processed_frame_index : Z) :
  1 <= frames_to_skip ->
  (frames_to_skip <= Z.of_nat (length cap) ->
   read_frame frames_to_skip cap processed_frame_index
   = (true, cap !! (Z.to_nat frames_to_skip - 1)%nat, drop (Z.to_nat frames_to_skip) cap,
      processed_frame_index + frames_to_skip))
  /\ (Z.of_nat (length cap) < frames_to_skip ->
      read_frame frames_to_skip cap processed_frame_index
      = (false, None, [], processed_frame_index + Z.of_nat (length cap) + 1)).
Proof.
  intros Hs. unfold read_frame.
  destruct (range_cons _ Hs) as (turns & -> & Hturns). split; intros Hlen.
  - rewrite skip_loop_keeps by lia. rewrite Hturns.
    replace (S (Z.to_nat (frames_to_skip - 1))) with (Z.to_nat frames_to_skip) by lia.
    replace (Z.to_nat (frames_to_skip - 1)) with (Z.to_nat frames_to_skip - 1)%nat by lia.
    f_equal. lia.
  - rewrite skip_loop_runs_out by lia. reflexivity.
Qed.

(** X11. With a skip count [s] of at least 1, the read stage hands on the
    [s]-th of the frames still in the file, having read and dropped the
    [s - 1] before it, and advances the frame index by [s]. When fewer than
    [s] frames are left it reports the end of the file, with the index one
    past the number of frames there were. *)
Theorem read_frame_keeps_every_nth (frames_to_skip : Z) (cap : list ndarray)
    (processed_frame_index : Z) :
  1 <= frames_to_skip ->
  (frames_to_skip <= Z.of_nat (length cap) ->
   read_frame frames_to_skip cap processed_frame_index
   = (true, cap !! (Z.to_nat frames_to_skip - 1)%nat, drop (Z.to_nat frames_to_skip) cap,
      processed_frame_index + frames_to_skip))
  /\ (Z.of_nat (length cap) < frames_to_skip ->
      read_frame frames_to_skip cap processed_frame_index
      = (false, None, [], processed_frame_index + Z.of_nat (length cap) + 1)).
Proof.
  exact (read_frame_cases frames_to_skip cap processed_frame_index).
Qed.

Lemma read_frame_keeps_every_nth_witness :
  1 <= 2
  /\ read_frame 2 [grid2x2; grid2x2_dark; grid1x1] 0
     = (true, Some grid2x2_dark, [grid1x1], 0 + 2)
  /\ read_frame 2 [grid1x1] 2 = (false, None, [], 2 + 1 + 1).
Proof.
  assert (H : 1 <= 2) by discriminate.
  split; [exact H|]. split.
  - exact (proj1 (read_frame_keeps_every_nth 2 [grid2x2; grid2x2_dark; grid1x1] 0 H)
             ltac:(discriminate)).
  - exact (proj2 (read_frame_keeps_every_nth 2 [grid1x1] 2 H) eq_refl).
Defined.

Lemma every_nth_short (s : nat) (cap : list ndarray) :
  (length cap < s)%nat -> every_nth s cap = [].
Proof.
  intros Hlen. unfold every_nth. rewrite Nat.div_small by exact Hlen. reflexivity.
Qed.

Lemma omap_fmap_pointwise {A B C : Type} (f : B -> option C) (g : A -> B)
    (h : A -> option C) (l : list A) :
  (forall a, f (g a) = h a) -> omap f (g <$> l) = omap h l.
Proof.
  intros Hfg. induction l as [|a l IH]; simpl; [reflexivity|].
  rewrite Hfg. destruct (h a); [f_equal|]; exact IH.
Qed.

Lemma every_nth_step (s : nat) (cap : list ndarray) (frame : ndarray) :
  (1 <= s)%nat -> (s <= length cap)%nat -> cap !! (s - 1)%nat = Some frame ->
  every_nth s cap = frame :: every_nth s (drop s cap).
Proof.
  intros Hs Hlen Hframe. unfold every_nth.
  rewrite length_drop.
  replace (length cap / s)%nat with (S ((length cap - s) / s)).
  - rewrite <- cons_seq, <- fmap_S_seq. simpl. rewrite Hframe. f_equal.
    apply omap_fmap_pointwise. intros k.
    rewrite lookup_drop. f_equal. lia.
  - replace (length cap) with ((length cap - s) + 1 * s)%nat at 2 by lia.
    rewrite Nat.div_add by lia. lia.
Qed.

Lemma run_written_app (a b : list run_event) :
  run_written (a ++ b) = run_written a ++ run_written b.
Proof. apply omap_app. Qed.

Lemma run_written_from_iteration (evs : list event) :
  run_written (FromIteration <$> evs) = written evs.
Proof.
  unfold run_written, written.
  induction evs as [|ev evs IH]; [reflexivity|].
  destruct ev; simpl; first [exact IH | f_equal; exact IH].
Qed.

(** X12. With a skip count [s] of at least 1, frames that the resize and
    the colour conversion bring to the target dimensions, and writes that
    succeed, the loop over a file of [N] frames writes the packets of the
    frames at positions [s], [2 s], ... up to [N], in that order, counts
    [N / s] frames as sent, and then reports the end of the file after
    frame [N]; the [N mod s] frames behind the last multiple of [s] are
    read and never sent. *)
Theorem video_sends_every_nth_frame
    (cv2_resize : ndarray -> Z * Z -> outcome array)
    (cv2_cvtColor : array -> outcome ndarray) (rgb_of : ndarray -> ndarray)
    (grid_width grid_height target_fps : Z) (frame_delay : float)
    (original_frames frames_to_skip : Z) (ticks : list tick) :
  1 <= frames_to_skip -> target_fps <> 0 ->
  Forall (fun t => exists n : Z, tick_write t = Ok n) ticks ->
  forall (cap : list ndarray) (processed_frame_index frame_count : Z)
         (tr : list run_event),
    (forall frame, frame ∈ cap ->
       exists resized_frame,
         cv2_resize frame (grid_width, grid_height) = Ok resized_frame
         /\ cv2_cvtColor resized_frame = Ok (rgb_of frame)
         /\ shape (rgb_of frame) = (grid_height, grid_width, 3)) ->
    (length cap / Z.to_nat frames_to_skip < length ticks)%nat ->
    exists new : list run_event,
      Capture.main_loop cv2_resize cv2_cvtColor grid_width grid_height target_fps
        frame_delay original_frames frames_to_skip ticks cap
        processed_frame_index frame_count tr
      = (Ok (frame_count + Z.of_nat (length cap / Z.to_nat frames_to_skip)),
         tr ++ new ++ [EndOfVideo (processed_frame_index + Z.of_nat (length cap))])
      /\ run_written new
         = (packet_of ∘ rgb_of <$> every_nth (Z.to_nat frames_to_skip) cap).
Proof.
  intros Hs Hfps Hticks.
  induction Hticks as [|t ticks [n Hwrite] _ IH];
    intros cap idx frame_count tr Hcap Hlen.
  - simpl in Hlen. lia.
  - cbn [Capture.main_loop].
    destruct (Z_lt_le_dec (Z.of_nat (length cap)) frames_to_skip) as [Hshort|Hlong].
    + rewrite (proj2 (read_frame_cases frames_to_skip cap idx Hs) Hshort).
      cbn [negb]. exists [].
      rewrite every_nth_short by lia. rewrite Nat.div_small by lia.
      split; [|reflexivity].
      replace (idx + Z.of_nat (length cap) + 1 - 1)
        with (idx + Z.of_nat (length cap)) by lia.
      rewrite Z.add_0_r. reflexivity.
    + rewrite (proj1 (read_frame_cases frames_to_skip cap idx Hs) Hlong).
      cbn [negb].
      destruct (lookup_lt_is_Some_2 cap (Z.to_nat frames_to_skip - 1)) as [frame Hframe];
        [lia|].
      rewrite Hframe.
      destruct (Hcap frame (list_elem_of_lookup_2 _ _ _ Hframe))
        as (resized & -> & -> & Hshape).
      set (it := {| rgb_frame := rgb_of frame; frame_start_time := tick_start t;
                    frame_end_time := tick_end t; write_result := tick_write t |}).
      assert (Hserved : served grid_width grid_height it).
      { split; [exact Hshape|]. exists n. exact Hwrite. }
      destruct (video_loop_body_served grid_width grid_height target_fps frame_delay
                  original_frames (idx + frames_to_skip) it frame_count [] Hfps Hserved)
        as [new1 [-> Hnew1]].
      rewrite app_nil_l.
      assert (Hdiv : (length cap / Z.to_nat frames_to_skip
                      = S (length (drop (Z.to_nat frames_to_skip) cap)
                           / Z.to_nat frames_to_skip))%nat).
      { rewrite length_drop.
        replace (length cap)
          with ((length cap - Z.to_nat frames_to_skip) + 1 * Z.to_nat frames_to_skip)%nat
          at 1 by lia.
        rewrite Nat.div_add by lia. lia. }
      destruct (IH (drop (Z.to_nat frames_to_skip) cap) (idx + frames_to_skip)
                  (frame_count + 1) (tr ++ (FromIteration <$> new1)))
        as [new' [-> Hnew']].
      * intros f Hf. apply Hcap.
        apply list_elem_of_lookup in Hf as [i Hi]. rewrite lookup_drop in Hi.
        exact (list_elem_of_lookup_2 _ _ _ Hi).
      * simpl in Hlen. lia.
      * exists ((FromIteration <$> new1) ++ new').
        rewrite (every_nth_step _ _ frame) by (try lia; exact Hframe).
        rewrite run_written_app, run_written_from_iteration, Hnew1, Hnew'.
        split; [|reflexivity].
        rewrite <- !app_assoc, length_drop, Hdiv, length_drop.
        replace (idx + frames_to_skip
                 + Z.of_nat (length cap - Z.to_nat frames_to_skip))
          with (idx + Z.of_nat (length cap)) by lia.
        f_equal. f_equal. lia.
Qed.

Lemma video_sends_every_nth_frame_witness :
  run_written
    (snd (Capture.main_loop resize_unchanged cvt_unchanged 2 2 5 delay_200ms 5 2
            [tick_ok; tick_ok; tick_ok]
            [grid2x2_dark; grid2x2; grid2x2; grid2x2_dark; grid2x2] 0 0 []))
  = [packet_of grid2x2; packet_of grid2x2_dark]
  /\ fst (Capture.main_loop resize_unchanged cvt_unchanged 2 2 5 delay_200ms 5 2
            [tick_ok; tick_ok; tick_ok]
            [grid2x2_dark; grid2x2; grid2x2; grid2x2_dark; grid2x2] 0 0 [])
     = Ok 2
  /\ exists new : list run_event,
      Capture.main_loop resize_unchanged cvt_unchanged 2 2 5 delay_200ms 5 2
        [tick_ok; tick_ok; tick_ok]
        [grid2x2_dark; grid2x2; grid2x2; grid2x2_dark; grid2x2] 0 0 []
      = (Ok (0 + Z.of_nat (5 / Z.to_nat 2)), [] ++ new ++ [EndOfVideo (0 + Z.of_nat 5)])
      /\ run_written new
         = (packet_of ∘ (fun f => f)
              <$> every_nth (Z.to_nat 2)
                    [grid2x2_dark; grid2x2; grid2x2; grid2x2_dark; grid2x2]).
Proof.
  split; [reflexivity|]. split; [reflexivity|].
  refine (video_sends_every_nth_frame resize_unchanged cvt_unchanged (fun f => f)
            2 2 5 delay_200ms 5 2 [tick_ok; tick_ok; tick_ok]
            ltac:(discriminate) ltac:(discriminate) _
            [grid2x2_dark; grid2x2; grid2x2; grid2x2_dark; grid2x2] 0 0 [] _ _).
  - repeat constructor; exists 14; reflexivity.
  - intros frame Hin. exists (Array3 frame). split; [reflexivity|]. split; [reflexivity|].
    repeat (apply elem_of_cons in Hin as [->|Hin]; [reflexivity|]).
    apply elem_of_nil in Hin. destruct Hin.
  - simpl. lia.
Defined.

(** ** The download *)

Lemma path_exists_elem (fs : gset string) (path : string) :
  path_exists fs path = true -> path ∈ fs.
Proof.
  unfold path_exists. intros H. apply andb_prop in H as [_ H].
  now apply bool_decide_eq_true in H.
Qed.

Lemma path_exists_subseteq (fs fs' : gset string) (path : string) :
  fs' ⊆ fs -> path_exists fs path = false -> path_exists fs' path = false.
Proof.
  unfold path_exists. intros Hsub H.
  destruct (negb (str_empty path)); simpl in *; [|reflexivity].
  apply bool_decide_eq_false in H. apply bool_decide_eq_false. set_solver.
Qed.

Lemma path_exists_removed (fs : gset string) (path : string) :
  path_exists (fs ∖ {[path]}) path = false.
Proof.
  unfold path_exists. destruct (negb (str_empty path)); simpl; [|reflexivity].
  apply bool_decide_eq_false. rewrite elem_of_difference, elem_of_singleton. tauto.
Qed.

Lemma probe_first (output_filename : string) (fs : gset string)
    (before after : list string) (ext : string) :
  Forall (fun e => path_exists fs (output_filename +:+ e) = false) before ->
  path_exists fs (output_filename +:+ ext) = true ->
  Download.probe output_filename (before ++ ext :: after) fs
  = Some (output_filename +:+ ext).
Proof.
  induction 1 as [|e before He _ IH]; intros Hext; simpl.
  - now rewrite Hext.
  - rewrite He. exact (IH Hext).
Qed.

Lemma probe_exists (output_filename : string) (fs : gset string)
    (exts : list string) (path : string) :
  Download.probe output_filename exts fs = Some path -> path_exists fs path = true.
Proof.
  induction exts as [|e exts IH]; simpl; [discriminate|].
  destruct (path_exists fs (output_filename +:+ e)) eqn:He.
  - intros [= <-]. exact He.
  - exact IH.
Qed.

Section RemovalFacts.

Variable remove_fails : gset string -> string -> bool.

Lemma remove_partial_spec (output_filename : string) (exts : list string) :
  forall (fs fs' : gset string) (shown shown' : list download_event),
    Download.remove_partial remove_fails output_filename exts fs shown = (fs', shown') ->
    fs' ⊆ fs
    /\ (forall p, p ∈ fs -> p ∉ fs' ->
                  exists ext, ext ∈ exts /\ p = output_filename +:+ ext)
    /\ ((forall fs0 p, remove_fails fs0 p = false) ->
        forall ext, ext ∈ exts -> path_exists fs' (output_filename +:+ ext) = false)
    /\ runs shown' = runs shown.
Proof.
  induction exts as [|e exts IH]; intros fs fs' shown shown'; simpl.
  - intros [= <- <-]. split; [set_solver|]. split; [set_solver|]. split.
    + intros _ ext Hin. now apply elem_of_nil in Hin.
    + reflexivity.
  - destruct (path_exists fs (output_filename +:+ e)) eqn:He.
    + destruct (remove_fails fs (output_filename +:+ e)) eqn:Hf.
      * intros H. apply IH in H as (Hsub & Hlost & Hgone & Hruns).
        split; [exact Hsub|]. split; [|split].
        -- intros p Hp Hnp. destruct (Hlost p Hp Hnp) as (ext & Hin & ->).
           exists ext. split; [apply elem_of_cons; now right | reflexivity].
        -- intros Hnever. now rewrite Hnever in Hf.
        -- rewrite Hruns. unfold runs. rewrite omap_app. simpl. apply app_nil_r.
      * intros H. apply IH in H as (Hsub & Hlost & Hgone & Hruns).
        split; [set_solver|]. split; [|split].
        -- intros p Hp Hnp.
           destruct (decide (p = output_filename +:+ e)) as [->|Hne].
           ++ exists e. split; [apply elem_of_cons; now left | reflexivity].
           ++ assert (Hp' : p ∈ fs ∖ {[output_filename +:+ e]}) by set_solver.
              destruct (Hlost p Hp' Hnp) as (ext & Hin & ->).
              exists ext. split; [apply elem_of_cons; now right | reflexivity].
        -- intros Hnever ext Hin. apply elem_of_cons in Hin as [->|Hin].
           ++ apply (path_exists_subseteq (fs ∖ {[output_filename +:+ e]})); [exact Hsub|].
              apply path_exists_removed.
           ++ now apply Hgone.
        -- rewrite Hruns. unfold runs. rewrite omap_app. simpl. apply app_nil_r.
    + intros H. apply IH in H as (Hsub & Hlost & Hgone & Hruns).
      split; [exact Hsub|]. split; [|split].
      * intros p Hp Hnp. destruct (Hlost p Hp Hnp) as (ext & Hin & ->).
        exists ext. split; [apply elem_of_cons; now right | reflexivity].
      * intros Hnever ext Hin. apply elem_of_cons in Hin as [->|Hin].
        -- now apply (path_exists_subseteq fs).
        -- now apply Hgone.
      * exact Hruns.
Qed.

(** X16. Deleting the downloaded file at the end removes at most that
    one file: every other file stays. When the removal does not fail the
    file is gone afterwards, and a second deletion changes nothing and
    does not call [os.remove]: a file that is no longer there is
    reported, not an error. *)
Theorem delete_download_only_that_file
    (video_filepath : string) (fs fs1 : gset string)
    (shown shown1 : list download_event) :
  Download.delete_download remove_fails video_filepath fs shown = (fs1, shown1) ->
  (forall p, p <> video_filepath -> p ∈ fs1 <-> p ∈ fs)
  /\ fs1 ⊆ fs
  /\ (remove_fails fs video_filepath = false ->
      path_exists fs1 video_filepath = false
      /\ exists shown2,
           Download.delete_download remove_fails video_filepath fs1 shown1
           = (fs1, shown2)
           /\ removals shown2 = removals shown1).
Proof.
  unfold Download.delete_download.
  destruct (str_empty video_filepath) eqn:Hempty; simpl.
  - intros [= <- <-]. split; [tauto|]. split; [set_solver|]. intros _. split.
    + unfold path_exists. now rewrite Hempty.
    + eexists. split; reflexivity.
  - destruct (path_exists fs video_filepath) eqn:Hex.
    + destruct (remove_fails fs video_filepath) eqn:Hf.
      * intros [= <- <-]. split; [tauto|]. split; [set_solver|]. discriminate.
      * intros [= <- <-].
        split; [intros p Hp; set_solver|]. split; [set_solver|]. intros _.
        split; [apply path_exists_removed|].
        rewrite path_exists_removed.
        eexists. split; [reflexivity|]. unfold removals. rewrite !omap_app. simpl.
        now rewrite !app_nil_r.
    + intros [= <- <-].
      split; [tauto|]. split; [set_solver|]. intros _. split; [exact Hex|].
      rewrite Hex. eexists. split; [reflexivity|].
      unfold removals. rewrite !omap_app. simpl. now rewrite !app_nil_r.
Qed.

End RemovalFacts.

Section DownloadFacts.

Variable str_strip : string -> string.
Variable run : list string -> Z -> gset string -> result os_exn string * gset string.
Variable remove_fails : gset string -> string -> bool.

(** X13. Whatever yt-dlp and the file system do, a path that
    [download_youtube_video] returns is a file that exists when it
    returns. *)
Theorem download_returns_existing_file
    (youtube_url format_select output_filename : string) (timeout : Z)
    (fs fs' : gset string) (shown shown' : list download_event) (path : string) :
  Download.download_youtube_video str_strip run remove_fails
    youtube_url format_select output_filename timeout fs shown
  = (Some path, fs', shown') ->
  path_exists fs' path = true.
Proof.
  unfold Download.download_youtube_video.
  destruct (run _ timeout fs) as [[out|e] fs1].
  - destruct (Download.probe _ _ fs1) as [found|] eqn:Hprobe.
    + intros [= <- <- _]. exact (probe_exists _ _ _ _ Hprobe).
    + destruct (run _ 30 fs1) as [[out2|e2] fs2].
      * destruct (path_exists fs2 (str_strip out2)) eqn:Hex.
        -- intros [= <- <- _]. exact Hex.
        -- discriminate.
      * discriminate.
  - destruct e; try discriminate.
    destruct (Download.remove_partial _ _ _ _ _) as [fs2 shown2]. discriminate.
Qed.

(** X14. After a download that yt-dlp reports as successful, the file
    returned is the one with the first extension, in the order .mp4,
    .mkv, .webm, .avi, .mov, .flv, whose file exists; yt-dlp is then run
    once only, and no file is touched. *)
Theorem download_prefers_first_extension
    (youtube_url format_select output_filename : string) (timeout : Z)
    (fs fs1 : gset string) (shown : list download_event) (out : string)
    (before after : list string) (ext : string) :
  run ["yt-dlp"; "-f"; format_select; "-o"; output_filename +:+ ".%(ext)s"; youtube_url]
      timeout fs = (Returned out, fs1) ->
  [".mp4"; ".mkv"; ".webm"; ".avi"; ".mov"; ".flv"] = before ++ ext :: after ->
  Forall (fun e => path_exists fs1 (output_filename +:+ e) = false) before ->
  path_exists fs1 (output_filename +:+ ext) = true ->
  exists shown',
    Download.download_youtube_video str_strip run remove_fails
      youtube_url format_select output_filename timeout fs shown
    = (Some (output_filename +:+ ext), fs1, shown')
    /\ length (runs shown') = S (length (runs shown))
    /\ removals shown' = removals shown.
Proof.
  intros Hrun Hexts Hbefore Hext.
  unfold Download.download_youtube_video. rewrite Hrun, Hexts.
  rewrite (probe_first _ _ _ _ _ Hbefore Hext).
  eexists. split; [reflexivity|]. split.
  - unfold runs. rewrite !omap_app, !length_app. simpl. lia.
  - unfold removals. rewrite !omap_app. simpl. now rewrite !app_nil_r.
Qed.

(** X15. When yt-dlp fails, [download_youtube_video] returns None and
    does not run yt-dlp a second time. It deletes files only after a
    timeout, and then only files named by the output name and one of the
    extensions .mp4, .mkv, .webm, .avi, .mov, .flv, .part; if no removal
    fails, none of these files is left. *)
Theorem failed_download_cleans_only_candidates
    (youtube_url format_select output_filename : string) (timeout : Z)
    (fs fs1 : gset string) (shown : list download_event) (e : os_exn) :
  run ["yt-dlp"; "-f"; format_select; "-o"; output_filename +:+ ".%(ext)s"; youtube_url]
      timeout fs = (Thrown e, fs1) ->
  exists fs' shown',
    Download.download_youtube_video str_strip run remove_fails
      youtube_url format_select output_filename timeout fs shown
    = (None, fs', shown')
    /\ length (runs shown') = S (length (runs shown))
    /\ fs' ⊆ fs1
    /\ (forall p, p ∈ fs1 -> p ∉ fs' ->
          e = TimeoutExpired
          /\ exists ext,
               ext ∈ [".mp4"; ".mkv"; ".webm"; ".avi"; ".mov"; ".flv"; ".part"]
               /\ p = output_filename +:+ ext)
    /\ (e = TimeoutExpired ->
        (forall fs0 p, remove_fails fs0 p = false) ->
        forall ext,
          ext ∈ [".mp4"; ".mkv"; ".webm"; ".avi"; ".mov"; ".flv"; ".part"] ->
          path_exists fs' (output_filename +:+ ext) = false).
Proof.
  intros Hrun. unfold Download.download_youtube_video. rewrite Hrun.
  destruct e.
  2: { destruct (Download.remove_partial _ _ _ _ _) as [fs2 shown2] eqn:Hrm.
       apply remove_partial_spec in Hrm as (Hsub & Hlost & Hgone & Hruns).
       exists fs2, shown2. split; [reflexivity|]. split; [|split; [exact Hsub|split]].
       - rewrite Hruns. unfold runs. rewrite !omap_app, !length_app. simpl. lia.
       - intros p Hp Hnp. split; [reflexivity|]. exact (Hlost p Hp Hnp).
       - intros _ Hnever. exact (Hgone Hnever). }
  all: eexists; eexists; split; [reflexivity|];
    split; [unfold runs; rewrite !omap_app, !length_app; simpl; lia|];
    split; [set_solver|]; split; [intros p Hp Hnp; contradiction | discriminate].
Qed.

End DownloadFacts.

Lemma download_returns_existing_file_witness :
  path_exists ({["temp_youtube_video.webm"; "temp_youtube_video.mkv"]} ∪ ∅)
    "temp_youtube_video.mkv" = true.
Proof.
  apply (download_returns_existing_file (fun s => s) run_writes_mkv_webm
           remove_never_fails "https://youtu.be/x" YTDLP_FORMAT DOWNLOAD_FILENAME
           DOWNLOAD_TIMEOUT_SECONDS ∅ _ []
           (snd (Download.download_youtube_video (fun s => s) run_writes_mkv_webm
                   remove_never_fails "https://youtu.be/x" YTDLP_FORMAT
                   DOWNLOAD_FILENAME DOWNLOAD_TIMEOUT_SECONDS ∅ []))).
  vm_compute. reflexivity.
Defined.

Lemma download_prefers_first_extension_witness :
  exists shown',
    Download.download_youtube_video (fun s => s) run_writes_mkv_webm remove_never_fails
      "https://youtu.be/x" YTDLP_FORMAT DOWNLOAD_FILENAME DOWNLOAD_TIMEOUT_SECONDS ∅ []
    = (Some "temp_youtube_video.mkv",
       {["temp_youtube_video.webm"; "temp_youtube_video.mkv"]} ∪ ∅, shown')
    /\ length (runs shown') = 1%nat
    /\ removals shown' = [].
Proof.
  apply (download_prefers_first_extension (fun s => s) run_writes_mkv_webm
           remove_never_fails "https://youtu.be/x" YTDLP_FORMAT DOWNLOAD_FILENAME
           DOWNLOAD_TIMEOUT_SECONDS ∅ _ [] "" [".mp4"]
           [".webm"; ".avi"; ".mov"; ".flv"] ".mkv").
  - reflexivity.
  - reflexivity.
  - repeat constructor.
  - vm_compute. reflexivity.
Defined.

Lemma failed_download_cleans_only_candidates_witness :
  exists fs' shown',
    Download.download_youtube_video (fun s => s) run_times_out remove_never_fails
      "https://youtu.be/x" YTDLP_FORMAT DOWNLOAD_FILENAME DOWNLOAD_TIMEOUT_SECONDS
      {["notes.txt"]} []
    = (None, fs', shown')
    /\ length (runs shown') = 1%nat
    /\ fs' ⊆ {["temp_youtube_video.part"]} ∪ {["notes.txt"]}.
Proof.
  destruct (failed_download_cleans_only_candidates (fun s => s) run_times_out
              remove_never_fails "https://youtu.be/x" YTDLP_FORMAT DOWNLOAD_FILENAME
              DOWNLOAD_TIMEOUT_SECONDS {["notes.txt"]} _ [] TimeoutExpired eq_refl)
    as (fs' & shown' & H1 & H2 & H3 & _).
  exists fs', shown'. split; [exact H1|]. split; [exact H2 | exact H3].
Defined.

Lemma delete_download_only_that_file_witness :
  path_exists
    (fst (Download.delete_download remove_never_fails "temp_youtube_video.mkv"
            {["temp_youtube_video.mkv"; "notes.txt"]} []))
    "temp_youtube_video.mkv" = false.
Proof.
  refine (proj1 (proj2 (proj2
    (delete_download_only_that_file remove_never_fails "temp_youtube_video.mkv"
       {["temp_youtube_video.mkv"; "notes.txt"]} _ []
       (snd (Download.delete_download remove_never_fails "temp_youtube_video.mkv"
               {["temp_youtube_video.mkv"; "notes.txt"]} [])) _)) eq_refl)).
  vm_compute. reflexivity.
Defined.
